(** * Louisville foreclosure fetcher ([fetchData.go]): model and properties

    A shallow embedding of [fetchData.go]: the value normaliser
    [formatValue], the remote query client [fetchBatch], the worker pool
    of [main] as an interleaving step relation, and the CSV writing
    phase of [main], with the buffer of the writer down to the writes
    to the file.

    The Go standard library functions the program calls ([fmt.Sprintf]
    with the verb v, [time.Unix], [Time.Format], float64 arithmetic,
    [strconv.Itoa], [url.Values.Encode], [csv.Writer] on its
    [bufio.Writer]) are modelled with the part of the program that calls
    them, each after the library's documented behaviour. *)

From Stdlib Require Import ZArith String Ascii List SpecFloat Lia.
From stdpp Require Import gmap strings list relations sorting.

Open Scope string_scope.
Open Scope list_scope.
Open Scope Z_scope.

(** ** Integers and decimal text *)

(** Go's [int], [int64] and [uint64] are 64-bit; arithmetic wraps. *)
Definition wrap_int64 (x : Z) : Z := (x + 2 ^ 63) mod 2 ^ 64 - 2 ^ 63.
Definition wrap_uint64 (x : Z) : Z := x mod 2 ^ 64.

Definition digit_char (d : Z) : ascii := ascii_of_N (48 + Z.to_N d).

Fixpoint digits_aux (fuel : nat) (n : Z) (acc : string) : string :=
  match fuel with
  | O => acc
  | S fuel' =>
      let acc' := String (digit_char (n mod 10)) acc in
      if n <? 10 then acc' else digits_aux fuel' (n / 10) acc'
  end.

(** Decimal digits of a non-negative integer, most significant first. *)
Definition utoa (n : Z) : string :=
  digits_aux (S (Z.to_nat (Z.log2 n))) n "".

(** [strconv.Itoa], also the verb d of [fmt]. *)
Definition itoa (n : Z) : string :=
  if n <? 0 then "-" +:+ utoa (- n) else utoa n.

Fixpoint zeros (n : nat) : string :=
  match n with
  | O => ""
  | S n' => String "0" (zeros n')
  end.

(** [appendInt] of package time: sign, then the digits padded with
    leading zeros to [width]. *)
Definition appendInt (x : Z) (width : nat) : string :=
  let u := Z.abs x in
  let ds := utoa u in
  (if x <? 0 then "-" else "") +:+ zeros (width - String.length ds) +:+ ds.

(** ** float64 *)

(** IEEE 754 binary64 values: the Standard Library's [spec_float] at
    precision 53 and maximal exponent 1024. *)
Definition float64 : Type := spec_float.

Definition f64_div : float64 -> float64 -> float64 := SFdiv 53 1024.

(** Go's [==] on float64: both zeros are equal, NaN equals nothing. *)
Definition f64_eqb : float64 -> float64 -> bool := SFeqb.

(** The float64 nearest to an integer (exact below [2 ^ 53]): what an
    integer literal or a decoded JSON integer denotes. *)
Definition f64_of_Z (n : Z) : float64 := binary_normalize 53 1024 n 0 false.

(** The integer part of a finite float, fraction discarded. *)
Definition f64_trunc (f : float64) : option Z :=
  match f with
  | S754_zero _ => Some 0
  | S754_finite s m e =>
      let a := if 0 <=? e then Z.pos m * 2 ^ e else Z.pos m / 2 ^ (- e) in
      Some (if s then - a else a)
  | S754_infinity _ | S754_nan => None
  end.

(** ** Calendar arithmetic of package time *)

Definition secondsPerDay : Z := 86400.
Definition daysPer400Years : Z := 365 * 400 + 97.
Definition daysPer100Years : Z := 365 * 100 + 24.
Definition daysPer4Years : Z := 365 * 4 + 1.
Definition absoluteZeroYear : Z := -292277022399.
Definition unixToInternal : Z :=
  (1969 * 365 + 1969 / 4 - 1969 / 100 + 1969 / 400) * secondsPerDay.
Definition internalToUnix : Z := - unixToInternal.
Definition absoluteToInternal : Z := -9223371966579724800.
Definition internalToAbsolute : Z := - absoluteToInternal.

(** [time.Unix(sec, 0).UTC()]: the instant, as the seconds field the
    library stores (seconds since January 1, year 1). *)
Definition time_Unix (sec : Z) : Z := wrap_int64 (sec + unixToInternal).

(** [Time.abs] in UTC: seconds since the absolute zero year, a uint64. *)
Definition time_abs (ext : Z) : Z :=
  wrap_uint64 (wrap_int64 (ext + internalToUnix)
               + (unixToInternal + internalToAbsolute)).

Definition isLeap (year : Z) : bool :=
  (year mod 4 =? 0) && (negb (year mod 100 =? 0) || (year mod 400 =? 0)).

(** [daysBefore[m]]: days in a non-leap year before month [m + 1]. *)
Definition daysBefore : list Z :=
  [0; 31; 59; 90; 120; 151; 181; 212; 243; 273; 304; 334; 365].

Definition daysBefore_at (m : Z) : Z := nth (Z.to_nat m) daysBefore 0.

(** [absDate(abs, true)]: year, month and day of an absolute time. *)
Definition absDate (abs : Z) : Z * Z * Z :=
  let d := abs / secondsPerDay in
  let n := d / daysPer400Years in
  let y := 400 * n in
  let d := d - daysPer400Years * n in
  let n := d / daysPer100Years in
  let n := n - Z.shiftr n 2 in
  let y := y + 100 * n in
  let d := d - daysPer100Years * n in
  let n := d / daysPer4Years in
  let y := y + 4 * n in
  let d := d - daysPer4Years * n in
  let n := d / 365 in
  let n := n - Z.shiftr n 2 in
  let y := y + n in
  let d := d - 365 * n in
  let year := wrap_int64 (y + absoluteZeroYear) in
  let day := d in
  if isLeap year && (day =? 31 + 29 - 1) then (year, 2, 29)
  else
    let day := if isLeap year && (31 + 29 - 1 <? day) then day - 1 else day in
    let month := day / 31 in
    let end_ := daysBefore_at (month + 1) in
    let '(month, begin) :=
      if end_ <=? day then (month + 1, end_) else (month, daysBefore_at month) in
    (year, month + 1, day - begin + 1).

(** [absClock]: hour, minute and second within the day. *)
Definition absClock (abs : Z) : Z * Z * Z :=
  let sec := abs mod secondsPerDay in
  let hour := sec / 3600 in
  let sec := sec - hour * 3600 in
  let min := sec / 60 in
  let sec := sec - min * 60 in
  (hour, min, sec).

(** [Time.Format] with the layout [2006/01/02 15:04:05+00] of a UTC
    time.  The layout splits into the chunks 2006 (year, at least four
    digits), 01 (month, two digits), 02 (day), 15 (hour, 24-hour clock),
    04 (minute), 05 (second); the slashes, the space, the colons and the
    trailing [+00] are no layout verbs and are copied as they are. *)
Definition time_Format (ext : Z) : string :=
  let abs := time_abs ext in
  let '(year, month, day) := absDate abs in
  let '(hour, min, sec) := absClock abs in
  appendInt year 4 +:+ "/" +:+ appendInt month 2 +:+ "/" +:+ appendInt day 2
  +:+ " " +:+ appendInt hour 2 +:+ ":" +:+ appendInt min 2 +:+ ":"
  +:+ appendInt sec 2 +:+ "+00".

(** ** Shortest decimal text of a float64 ([strconv.FormatFloat]) *)

(** A decimal number [0.d1 d2 ... dn * 10 ^ dp], digits without trailing
    zeros, as [strconv]'s [decimalSlice]. *)
Record decimal := Decimal { dec_digits : string; dec_dp : Z }.

Fixpoint strip_zeros_rev (s : list ascii) : list ascii :=
  match s with
  | "0"%char :: s' => strip_zeros_rev s'
  | _ => s
  end.

Definition trim_zeros (s : string) : string :=
  string_of_list_ascii (rev (strip_zeros_rev (rev (list_ascii_of_string s)))).

Section shortest.
(** The value [nv / den] and the bounds [nl / den] and [nu / den] of
    the interval of reals that round to it; the bounds belong to the
    interval when [inclusive]. *)
Variables (nv nl nu den : Z) (inclusive : bool).

(** The least [p] from [p0] on with [nv / den < 10 ^ p]. *)
Fixpoint find_dp (fuel : nat) (p : Z) : Z :=
  match fuel with
  | O => p
  | S fuel' =>
      if nv * 10 ^ Z.max 0 (- p) <? den * 10 ^ Z.max 0 p then p
      else find_dp fuel' (p + 1)
  end.

(** Rounding the value to [k] digits: down when only that stays
    inside the interval, up when only that does, to the nearest (ties
    to even) when both do; nothing when neither does. *)
Definition round_to (dp k : Z) : option Z :=
  let a := 10 ^ Z.max 0 (k - dp) in
  let b := den * 10 ^ Z.max 0 (dp - k) in
  let q := (nv * a) / b in
  let r := nv * a - q * b in
  let okdown := (nl * a <? q * b) || (inclusive && (nl * a =? q * b)) in
  let okup :=
    ((q + 1) * b <? nu * a) || (inclusive && ((q + 1) * b =? nu * a)) in
  match okdown, okup with
  | true, true =>
      Some (if (b <? 2 * r) || ((2 * r =? b) && Z.odd q) then q + 1 else q)
  | true, false => Some q
  | false, true => Some (q + 1)
  | false, false => None
  end.

(** [roundShortest]: the first number of digits at which a rounding of
    the value stays inside the interval. *)
Fixpoint shortest_from (fuel : nat) (dp k : Z) : decimal :=
  match fuel with
  | O => Decimal (utoa ((nv * 10 ^ Z.max 0 (k - dp)) / (den * 10 ^ Z.max 0 (dp - k)))) dp
  | S fuel' =>
      match round_to dp k with
      | Some c =>
          let ds := utoa c in
          Decimal (trim_zeros ds) (Z.of_nat (String.length ds) + dp - k)
      | None => shortest_from fuel' dp (k + 1)
      end
  end.
End shortest.

(** The shortest decimal that reads back as the float [m * 2 ^ e]
    ([m] positive).  The neighbours are [(m - 1) * 2 ^ e] and
    [(m + 1) * 2 ^ e], except below a power of two, where the lower
    neighbour is half as far; the interval ends halfway to them. *)
Definition shortest_decimal (m e : Z) : decimal :=
  let narrow := negb (2 ^ 52 <? m) && negb (e =? -1074) in
  let nv := 4 * m in
  let nl := if narrow then 4 * m - 1 else 4 * m - 2 in
  let nu := 4 * m + 2 in
  let num_scale := 2 ^ Z.max 0 (e - 2) in
  let den := 2 ^ Z.max 0 (2 - e) in
  let nv := nv * num_scale in
  let nl := nl * num_scale in
  let nu := nu * num_scale in
  let dp := find_dp nv den 800 (-400) in
  shortest_from nv nl nu den (Z.even m) 800 dp 0.

Definition digit_at (s : string) (i : Z) : string :=
  if i <? 0 then "0"
  else match String.get (Z.to_nat i) s with
       | Some c => String c ""
       | None => "0"
       end.

(** [%e] of [strconv]: [d.ddddde±dd] with [prec] digits after the point. *)
Definition fmtE (neg : bool) (d : decimal) (prec : Z) : string :=
  let nd := Z.of_nat (String.length (dec_digits d)) in
  let first := if nd =? 0 then "0" else digit_at (dec_digits d) 0 in
  let more :=
    if 0 <? prec then
      let m := Z.min nd (prec + 1) in
      "." +:+ String.substring 1 (Z.to_nat (m - 1)) (dec_digits d)
      +:+ zeros (Z.to_nat (prec + 1 - Z.max 1 m))
    else "" in
  let exp := if nd =? 0 then 0 else dec_dp d - 1 in
  let esign := if exp <? 0 then "-" else "+" in
  let exp := Z.abs exp in
  let edigits := if exp <? 10 then "0" +:+ utoa exp else utoa exp in
  (if neg then "-" else "") +:+ first +:+ more +:+ "e" +:+ esign +:+ edigits.

Fixpoint fraction_digits (d : decimal) (n : nat) (i : Z) : string :=
  match n with
  | O => ""
  | S n' => digit_at (dec_digits d) (dec_dp d + i) +:+ fraction_digits d n' (i + 1)
  end.

(** [%f] of [strconv]: [ddddd.ddd] with [prec] digits after the point. *)
Definition fmtF (neg : bool) (d : decimal) (prec : Z) : string :=
  let nd := Z.of_nat (String.length (dec_digits d)) in
  let int_part :=
    if 0 <? dec_dp d then
      let m := Z.min nd (dec_dp d) in
      String.substring 0 (Z.to_nat m) (dec_digits d)
      +:+ zeros (Z.to_nat (dec_dp d - m))
    else "0" in
  let frac :=
    if 0 <? prec then "." +:+ fraction_digits d (Z.to_nat prec) 0 else "" in
  (if neg then "-" else "") +:+ int_part +:+ frac.

(** [%g] with the shortest precision: the exponent form when the
    decimal exponent is below [-4] or at least [eprec = 6] (at the
    shortest precision [strconv] takes 6 for this decision), the plain
    form otherwise. *)
Definition fmtG_shortest (neg : bool) (d : decimal) : string :=
  let nd := Z.of_nat (String.length (dec_digits d)) in
  let eprec := 6 in
  let exp := dec_dp d - 1 in
  if (exp <? -4) || (eprec <=? exp) then fmtE neg d (nd - 1)
  else fmtF neg d (Z.max (nd - dec_dp d) 0).

(** The verb v of [fmt] on a float64: [strconv.FormatFloat(f, 'g', -1, 64)],
    the plus sign of the infinity kept. *)
Definition fmt_float64 (f : float64) : string :=
  match f with
  | S754_nan => "NaN"
  | S754_infinity false => "+Inf"
  | S754_infinity true => "-Inf"
  | S754_zero s => fmtG_shortest s (Decimal "" 0)
  | S754_finite s m e => fmtG_shortest s (shortest_decimal (Z.pos m) e)
  end.

(** ** Attribute values and records *)

(** What [encoding/json] stores in an [interface{}]: nil for null, bool,
    float64 for every number, string, a slice for an array and a
    string-keyed map for an object. *)
#[warnings="-register-all"]
Inductive value : Type :=
| VNil
| VBool (b : bool)
| VNum (f : float64)
| VStr (s : string)
| VArr (l : list value)
| VObj (m : gmap string value).

(** [map[string]interface{}]; the nil map is the empty map. *)
Abbreviation record := (gmap string value).

(** [record[key]]: a missing key reads as the nil interface. *)
Definition record_get (r : record) (key : string) : value :=
  default VNil (r !! key).

(** [type Feature struct { Attributes map[string]interface{} }] *)
Record Feature := { Attributes : record }.

(** [type QueryResult struct { Features []Feature }] *)
Record QueryResult := { Features : list Feature }.

(** ** The verb v of [fmt] *)

Definition key_le (x y : string * string) : Prop := String.leb x.1 y.1 = true.

#[local] Instance key_le_dec x y : Decision (key_le x y).
Proof. unfold key_le. apply _. Defined.

(** [fmt.Sprintf("%v", v)]: [<nil>] for nil, the elements of a slice
    between brackets, the entries of a map in the order of their keys. *)
Fixpoint fmt_value (v : value) : string :=
  match v with
  | VNil => "<nil>"
  | VBool b => if b then "true" else "false"
  | VNum f => fmt_float64 f
  | VStr s => s
  | VArr l => "[" +:+ String.concat " " (map fmt_value l) +:+ "]"
  | VObj m =>
      "map["
      +:+ String.concat " "
            (map (fun kv : string * string => kv.1 +:+ ":" +:+ kv.2)
                 (merge_sort key_le (map_to_list (fmt_value <$> m))))
      +:+ "]"
  end.

(** ** Constants of the program *)

Definition url : string :=
  "https://services1.arcgis.com/79kfd2K6fskCAkyg/arcgis/rest/services/Louisville_Metro_KY_Property_Foreclosures/FeatureServer/0/query".
Definition batchSize : Z := 1000.
Definition outputDir : string := "data".
Definition outputFile : string := "Louisville_Metro_KY_-_Property_Foreclosures.csv".
Definition workers : nat := 5.
Definition maxBatches : Z := 300.

Definition csvHeaders : list string :=
  [ "House_Nr"; "Dir"; "Street_Name"; "St_Type"; "Post_Dir"; "Zip"; "L_S"; "CD";
    "Neighborhood"; "Full_Parcel_ID"; "Census_Tract"; "Action_Filed"; "Case_";
    "Case_Style"; "Sale_Date"; "Sale_Price"; "Purchaser"; "ObjectId" ].

Section Program.

(** The conversion [int64(f)] discards the fraction; when the result
    does not fit (or [f] is no number) the Go specification leaves the
    value to the implementation. *)
Variable int64_unrepresentable : float64 -> Z.

Definition int64_of_f64 (f : float64) : Z :=
  match f64_trunc f with
  | Some t =>
      if (- 2 ^ 63 <=? t) && (t <? 2 ^ 63) then t else int64_unrepresentable f
  | None => int64_unrepresentable f
  end.

(** ** formatValue *)

Definition is_date_key (key : string) : bool :=
  String.eqb key "Action_Filed" || String.eqb key "Sale_Date".

(** Step 3 of [formatValue]. *)
Definition stringify (v : value) : string :=
  let s := fmt_value v in
  if String.eqb s "<nil>" then "" else s.

Definition formatValue (key : string) (v : value) : string :=
  match v with
  | VNil => ""
  | _ =>
      if is_date_key key then
        match v with
        | VNum timestamp =>
            if f64_eqb timestamp (f64_of_Z 0) then ""
            else
              let sec := int64_of_f64 (f64_div timestamp (f64_of_Z 1000)) in
              time_Format (time_Unix sec)
        | _ => stringify v
        end
      else stringify v
  end.

(** ** fetchBatch *)

(** Go errors, by the package that makes them. *)
Inductive error : Type :=
| UrlError (msg : string)      (* [http.NewRequest], [Client.Do] *)
| ErrorfError (msg : string)   (* [fmt.Errorf] *)
| JsonError (msg : string)     (* [json.Decoder.Decode] *)
| OsError (msg : string)       (* [os.MkdirAll], [os.Create] *)
| CsvError (msg : string).     (* [csv.Writer.Write] *)

(** The method [Error()]. *)
Definition Error (e : error) : string :=
  match e with
  | UrlError msg | ErrorfError msg | JsonError msg | OsError msg
  | CsvError msg => msg
  end.

(** [url.Values]: the values added under each key, in the order added. *)
Abbreviation Values := (gmap string (list string)).

Definition Values_Add (key v : string) (q : Values) : Values :=
  <[key := default [] (q !! key) ++ [v]]> q.

Record Request := { Method : string; URL : string; RawQuery : Values }.

Record Response := { StatusCode : Z; Body : string }.

(** [shouldEscape(c, encodeQueryComponent)] of package net/url: letters,
    digits and the marks [-], [_], [.] and [~] are kept, every other
    byte is escaped. *)
Definition shouldEscape (c : ascii) : bool :=
  let n := N_of_ascii c in
  negb (((97 <=? n) && (n <=? 122)) || ((65 <=? n) && (n <=? 90))
        || ((48 <=? n) && (n <=? 57))
        || (n =? 45) || (n =? 95) || (n =? 46) || (n =? 126))%N.

Definition upperhex (d : N) : ascii :=
  nth (N.to_nat d) (list_ascii_of_string "0123456789ABCDEF") "0"%char.

(** [url.QueryEscape]: a space becomes [+], any other escaped byte its
    two hexadecimal digits after a percent sign. *)
Fixpoint QueryEscape (s : string) : string :=
  match s with
  | "" => ""
  | String c s' =>
      (if shouldEscape c then
         if Ascii.eqb c " " then "+"
         else String "%" (String (upperhex (N_of_ascii c / 16))
                            (String (upperhex (N_of_ascii c mod 16)) ""))
       else String c "")
      +:+ QueryEscape s'
  end.

Definition values_key_le (x y : string * list string) : Prop :=
  String.leb x.1 y.1 = true.

#[local] Instance values_key_le_dec x y : Decision (values_key_le x y).
Proof. unfold values_key_le. apply _. Defined.

(** [url.Values.Encode]: [key=value] for every value, the keys sorted,
    joined by [&]. *)
Definition Values_Encode (q : Values) : string :=
  String.concat "&"
    (merge_sort values_key_le (map_to_list q) ≫=
       fun kv => map (fun v => QueryEscape kv.1 +:+ "=" +:+ QueryEscape v) kv.2).

(** [req.URL.String()] once [req.URL.RawQuery = q.Encode()] is set. *)
Definition Request_String (req : Request) : string :=
  URL req +:+ "?" +:+ Values_Encode (RawQuery req).

(** [http.NewRequest] fails on a malformed method or URL only; with the
    method GET and the constant [url] it returns a request. *)
Definition http_NewRequest (method target : string) : error + Request :=
  inr {| Method := method; URL := target; RawQuery := ∅ |}.

Definition http_StatusOK : Z := 200.

(** An [*http.Client], seen from the program: what [Do] answers to a
    request, a transport error or a response. *)
Definition Client : Type := Request -> string + Response.

(** [json.NewDecoder(body).Decode(&result)] into a [QueryResult]: an
    error, or the features of the document. *)
Variable json_Decode : string -> string + QueryResult.

Definition fetchBatch (offset : Z) (client : Client)
  : list record * option error :=
  match http_NewRequest "GET" url with
  | inl err => ([], Some err)
  | inr req =>
      let q := RawQuery req in
      let q := Values_Add "where" "1=1" q in
      let q := Values_Add "outFields" "*" q in
      let q := Values_Add "returnGeometry" "false" q in
      let q := Values_Add "f" "json" q in
      let q := Values_Add "resultOffset" (itoa offset) q in
      let q := Values_Add "resultRecordCount" (itoa batchSize) q in
      let req := {| Method := Method req; URL := URL req; RawQuery := q |} in
      match client req with
      | inl err => ([], Some (UrlError err))
      | inr resp =>
          if negb (StatusCode resp =? http_StatusOK) then
            ([], Some (ErrorfError ("status code " +:+ itoa (StatusCode resp))))
          else
            match json_Decode (Body resp) with
            | inl err => ([], Some (JsonError err))
            | inr result =>
                (foldl (fun records feature => records ++ [Attributes feature])
                       [] (Features result),
                 None)
            end
      end
  end.

(** ** The worker pool of [main] *)

Definition nl : string := String (ascii_of_nat 10) "".

(** Where a worker goroutine stands in its loop. *)
Inductive wstate : Type :=
| WRecv                                   (* at [range offsets] *)
| WFetch (offset : Z)                     (* about to call [fetchBatch] *)
| WLock (records : list record)           (* at [mu.Lock()] *)
| WRead (records : list record)           (* holds [mu], reads [allData] *)
| WWrite (old records : list record)      (* holds [mu], assigns [allData] *)
| WUnlock                                 (* at [mu.Unlock()] *)
| WDone.                                  (* loop left, [wg.Done()] run *)

(** Where the main goroutine stands. *)
Inductive mstate : Type :=
| MFeed (i : Z)     (* in the feeding loop, before its test *)
| MWait.            (* channel closed, at [wg.Wait()] *)

Record pool := Pool {
  p_main : mstate;
  p_chan : list Z;            (* the buffer of [offsets] *)
  p_closed : bool;
  p_workers : list wstate;
  p_mu : bool;                (* [mu] is locked *)
  p_allData : list record;
  p_stdout : list string;
  p_sent : list Z;            (* history: offsets sent on the channel *)
  p_fetched : list Z          (* history: offsets [fetchBatch] was called at *)
}.

(** The pool is started with [nworkers] workers, which is also the
    capacity of the channel ([workers] in the program); the workers
    share the client. *)
Definition pool_init (nworkers : nat) : pool :=
  {| p_main := MFeed 0; p_chan := []; p_closed := false;
     p_workers := replicate nworkers WRecv; p_mu := false;
     p_allData := []; p_stdout := ["Starting data fetch..." +:+ nl];
     p_sent := []; p_fetched := [] |}.

Definition set_worker (w : nat) (ws : wstate) (s : pool) : pool :=
  {| p_main := p_main s; p_chan := p_chan s; p_closed := p_closed s;
     p_workers := <[w := ws]> (p_workers s); p_mu := p_mu s;
     p_allData := p_allData s; p_stdout := p_stdout s;
     p_sent := p_sent s; p_fetched := p_fetched s |}.

(** One step of the main goroutine: send the next offset when the
    buffer has room, close the channel after the last one. *)
Definition main_step (nworkers : nat) (s : pool) : option pool :=
  match p_main s with
  | MFeed i =>
      if i <? maxBatches then
        if (length (p_chan s) <? nworkers)%nat then
          let o := wrap_int64 (i * batchSize) in
          Some {| p_main := MFeed (i + 1); p_chan := p_chan s ++ [o];
                  p_closed := p_closed s; p_workers := p_workers s;
                  p_mu := p_mu s; p_allData := p_allData s;
                  p_stdout := p_stdout s; p_sent := p_sent s ++ [o];
                  p_fetched := p_fetched s |}
        else None
      else
        Some {| p_main := MWait; p_chan := p_chan s; p_closed := true;
                p_workers := p_workers s; p_mu := p_mu s;
                p_allData := p_allData s; p_stdout := p_stdout s;
                p_sent := p_sent s; p_fetched := p_fetched s |}
  | MWait => None
  end.

(** One step of worker [w].  The return of [fetchBatch] and the
    [Printf] after it are one step: between them the worker touches
    nothing that another goroutine reads, so of the lines of different
    workers only the number of each is meant, not their order. *)
Definition worker_step (client : Client) (w : nat) (s : pool) : option pool :=
  match p_workers s !! w with
  | None => None
  | Some WRecv =>
      match p_chan s with
      | offset :: rest =>
          Some {| p_main := p_main s; p_chan := rest; p_closed := p_closed s;
                  p_workers := <[w := WFetch offset]> (p_workers s);
                  p_mu := p_mu s; p_allData := p_allData s;
                  p_stdout := p_stdout s; p_sent := p_sent s;
                  p_fetched := p_fetched s |}
      | [] => if p_closed s then Some (set_worker w WDone s) else None
      end
  | Some (WFetch offset) =>
      let '(records, err) := fetchBatch offset client in
      let next :=
        match err with
        | Some _ => WRecv
        | None => if (length records =? 0)%nat then WRecv else WLock records
        end in
      let out :=
        match err with
        | Some e =>
            ["Error fetching offset " +:+ itoa offset +:+ ": " +:+ Error e +:+ nl]
        | None => []
        end in
      Some {| p_main := p_main s; p_chan := p_chan s; p_closed := p_closed s;
              p_workers := <[w := next]> (p_workers s); p_mu := p_mu s;
              p_allData := p_allData s; p_stdout := p_stdout s ++ out;
              p_sent := p_sent s; p_fetched := p_fetched s ++ [offset] |}
  | Some (WLock records) =>
      if p_mu s then None
      else
        Some {| p_main := p_main s; p_chan := p_chan s; p_closed := p_closed s;
                p_workers := <[w := WRead records]> (p_workers s);
                p_mu := true; p_allData := p_allData s;
                p_stdout := p_stdout s; p_sent := p_sent s;
                p_fetched := p_fetched s |}
  | Some (WRead records) => Some (set_worker w (WWrite (p_allData s) records) s)
  | Some (WWrite old records) =>
      Some {| p_main := p_main s; p_chan := p_chan s; p_closed := p_closed s;
              p_workers := <[w := WUnlock]> (p_workers s); p_mu := p_mu s;
              p_allData := old ++ records; p_stdout := p_stdout s;
              p_sent := p_sent s; p_fetched := p_fetched s |}
  | Some WUnlock =>
      Some {| p_main := p_main s; p_chan := p_chan s; p_closed := p_closed s;
              p_workers := <[w := WRecv]> (p_workers s); p_mu := false;
              p_allData := p_allData s; p_stdout := p_stdout s;
              p_sent := p_sent s; p_fetched := p_fetched s |}
  | Some WDone => None
  end.

(** The goroutines: [None] is main, [Some w] is worker [w]. *)
Definition actor_step (nworkers : nat) (client : Client) (a : option nat)
    (s : pool) : option pool :=
  match a with
  | None => main_step nworkers s
  | Some w => worker_step client w s
  end.

(** Any goroutine that can move may move next. *)
Definition step (nworkers : nat) (client : Client) (s s' : pool) : Prop :=
  exists a, actor_step nworkers client a s = Some s'.

(** [wg.Wait()] returns: the channel is closed and every worker left. *)
Definition pool_done (s : pool) : bool :=
  match p_main s with
  | MWait => forallb (fun ws => match ws with WDone => true | _ => false end)
                     (p_workers s)
  | MFeed _ => false
  end.

(** A scheduler that runs the first goroutine that can move, workers
    before main. *)
Fixpoint first_step (nworkers : nat) (client : Client) (ws : list nat)
    (s : pool) : option pool :=
  match ws with
  | [] => main_step nworkers s
  | w :: ws' =>
      match worker_step client w s with
      | Some s' => Some s'
      | None => first_step nworkers client ws' s
      end
  end.

Fixpoint run (nworkers : nat) (client : Client) (fuel : nat) (s : pool) : pool :=
  match fuel with
  | O => s
  | S fuel' =>
      match first_step nworkers client (seq 0 nworkers) s with
      | Some s' => run nworkers client fuel' s'
      | None => s
      end
  end.

(** ** The writing phase of [main] *)

(** What the calls of the writing phase return: the error of
    [os.MkdirAll], the error of [os.Create], and the error that the
    [n]-th call of [writer.Write] returns (the header is call 0), if
    any.  What they return on a file system is [OsEnv_of] below. *)
Record OsEnv := {
  mkdirAll_err : option string;
  create_err : option string;
  write_err : nat -> option string
}.

(** How [main] ends, seen through the results of its calls: the lines
    printed, the directory made, the file created with the rows for
    which [writer.Write] returned no error, and the value [main]
    panicked with.  The writer keeps what it is given in a buffer: the
    bytes that reach the file are those of [main_write] below. *)
Record outcome := Outcome {
  o_stdout : list string;
  o_dir : option string;
  o_file : option (string * list (list string));
  o_panic : option error
}.

(** The inner loop: [row[i] = formatValue(key, record[key])]. *)
Definition build_row (r : record) : list string :=
  foldl (fun row '(i, key) => <[i := formatValue key (record_get r key)]> row)
        (replicate (length csvHeaders) "")
        (imap (fun i key => (i, key)) csvHeaders).

(** The outer loop, from call [n] of [writer.Write] on: the rows for
    which the call returned no error, and the lines printed for the
    others. *)
Fixpoint write_rows (env : OsEnv) (n : nat) (data : list record)
  : list (list string) * list string :=
  match data with
  | [] => ([], [])
  | r :: rest =>
      let row := build_row r in
      let '(rows, log) := write_rows env (S n) rest in
      match write_err env n with
      | Some err =>
          (rows, ("Error writing record to CSV: " +:+ Error (CsvError err) +:+ nl) :: log)
      | None => (row :: rows, log)
      end
  end.

(** [main] from the return of [wg.Wait()] on, through the results of
    its calls. *)
Definition save (env : OsEnv) (allData : list record) (stdout : list string)
  : outcome :=
  let stdout :=
    stdout ++ ["Fetched " +:+ itoa (Z.of_nat (length allData))
               +:+ " total records." +:+ nl] in
  if (0 <? length allData)%nat then
    match mkdirAll_err env with
    | Some err => Outcome stdout None None (Some (OsError err))
    | None =>
        let filePath := outputDir +:+ "/" +:+ outputFile in
        match create_err env with
        | Some err => Outcome stdout (Some outputDir) None (Some (OsError err))
        | None =>
            match write_err env 0 with
            | Some err =>
                Outcome stdout (Some outputDir) (Some (filePath, []))
                        (Some (CsvError err))
            | None =>
                let '(rows, log) := write_rows env 1 allData in
                Outcome (stdout ++ log
                         ++ ["✅ Data saved to" +:+ " " +:+ filePath +:+ nl])
                        (Some outputDir)
                        (Some (filePath, csvHeaders :: rows))
                        None
            end
        end
    end
  else
    Outcome (stdout ++ ["⚠️ No data was retrieved from the API." +:+ nl])
            None None None.

(** A run of [main]: some interleaving of the pool up to the return of
    [wg.Wait()], then the writing phase. *)
Definition main_run (n : nat) (client : Client) (env : OsEnv) (o : outcome)
  : Prop :=
  exists s, rtc (step n client) (pool_init n) s /\ pool_done s = true
            /\ o = save env (p_allData s) (p_stdout s).

(** ** The writer of [main], down to the file *)

(** What the operating system answers in the writing phase: the error
    of [os.MkdirAll], the error of [os.Create], and for the [k]-th write
    to the file nothing, when the file takes all the bytes, or the
    number of bytes it takes and the error it returns. *)
Record FileSystem := {
  fs_mkdirAll : option string;
  fs_create : option string;
  fs_write : nat -> option (nat * string)
}.

(** A [bufio.Writer] on the file: the bytes in its buffer and the error
    it has stopped on; with them, the bytes the file holds and the
    number of writes made to it. *)
Record bufio := Bufio {
  b_buf : list ascii;
  b_err : option string;
  b_file : list ascii;
  b_calls : nat
}.

Definition defaultBufSize : nat := 4096.

(** [csv.NewWriter(file)], which is [bufio.NewWriter(file)], on the file
    that [os.Create] has just made or emptied. *)
Definition NewWriter : bufio := Bufio [] None [] 0.

Definition Available (b : bufio) : nat := defaultBufSize - length (b_buf b).

Definition Buffered (b : bufio) : nat := length (b_buf b).

(** A method of the writer that returns an error or nil. *)
Definition writer_op : Type := bufio -> option string * bufio.

Definition op_nil : writer_op := fun b => (None, b).

(** One call after another, the second left out when the first
    returns an error. *)
Definition op_then (f g : writer_op) : writer_op := fun b =>
  match f b with
  | (Some e, b') => (Some e, b')
  | (None, b') => g b'
  end.

(** [file.Write(p)] and [file.WriteString(p)]: the bytes taken, the
    error, and the file after. *)
Definition file_Write (fs : FileSystem) (p : list ascii) (b : bufio)
  : nat * option string * bufio :=
  let '(n, err) :=
    match fs_write fs (b_calls b) with
    | None => (length p, None)
    | Some (n, e) => (Nat.min n (length p), Some e)
    end in
  (n, err, Bufio (b_buf b) (b_err b) (b_file b ++ take n p) (S (b_calls b))).

Definition ErrShortWrite : string := "short write".

(** [bufio.Writer.Flush] *)
Definition Flush (fs : FileSystem) : writer_op := fun b =>
  match b_err b with
  | Some e => (Some e, b)
  | None =>
      if (length (b_buf b) =? 0)%nat then (None, b)
      else
        let '(n, err, b1) := file_Write fs (b_buf b) b in
        let err :=
          match err with
          | None => if (n <? length (b_buf b))%nat then Some ErrShortWrite else None
          | Some e => Some e
          end in
        match err with
        | Some e =>
            (Some e, Bufio (drop n (b_buf b)) (Some e) (b_file b1) (b_calls b1))
        | None => (None, Bufio [] None (b_file b1) (b_calls b1))
        end
  end.

(** [bufio.Writer.WriteByte] *)
Definition WriteByte (fs : FileSystem) (c : ascii) : writer_op := fun b =>
  match b_err b with
  | Some e => (Some e, b)
  | None =>
      if (Available b <=? 0)%nat then
        match Flush fs b with
        | (Some _, b') => (b_err b', b')
        | (None, b') =>
            (None, Bufio (b_buf b' ++ [c]) (b_err b') (b_file b') (b_calls b'))
        end
      else (None, Bufio (b_buf b ++ [c]) (b_err b) (b_file b) (b_calls b))
  end.

(** The loop of [bufio.Writer.WriteString]: while the text does not fit
    and no error stands, either the buffer is empty and the text goes
    to the file as it is (an [*os.File] is an [io.StringWriter]), or the
    buffer is filled and flushed.  Returns the text not yet written. *)
Fixpoint WriteString_loop (fs : FileSystem) (fuel : nat) (s : list ascii)
    (b : bufio) : list ascii * bufio :=
  match fuel with
  | O => (s, b)
  | S fuel' =>
      if (Available b <? length s)%nat && negb (bool_decide (is_Some (b_err b)))
      then
        if (Buffered b =? 0)%nat then
          let '(n, err, b1) := file_Write fs s b in
          WriteString_loop fs fuel' (drop n s)
            (Bufio (b_buf b1) err (b_file b1) (b_calls b1))
        else
          let n := Nat.min (Available b) (length s) in
          let b1 := Bufio (b_buf b ++ take n s) (b_err b) (b_file b) (b_calls b) in
          WriteString_loop fs fuel' (drop n s) (Flush fs b1).2
      else (s, b)
  end.

(** [bufio.Writer.WriteString]; the loop runs at most twice, see
    [WriteString_loop_ends]. *)
Definition WriteString (fs : FileSystem) (s : string) : writer_op := fun b =>
  let '(rest, b') := WriteString_loop fs 3 (list_ascii_of_string s) b in
  match b_err b' with
  | Some e => (Some e, b')
  | None => (None, Bufio (b_buf b' ++ rest) (b_err b') (b_file b') (b_calls b'))
  end.

(** [bufio.Writer.WriteRune] of a rune below [utf8.RuneSelf]. *)
Definition WriteRune (fs : FileSystem) (c : ascii) : writer_op := WriteByte fs c.

(** *** encoding/csv *)

Definition quote : ascii := ascii_of_nat 34.
Definition cr : ascii := ascii_of_nat 13.
Definition lf : ascii := ascii_of_nat 10.
Definition comma : ascii := ","%char.

(** The white space of [unicode.IsSpace], in UTF-8: tab to carriage
    return, space, U+0085, U+00A0, U+1680, U+2000 to U+200A, U+2028,
    U+2029, U+202F, U+205F and U+3000. *)
Definition space_encodings : list string :=
  map (fun l => string_of_list_ascii (map ascii_of_nat l))
    ([ [9]; [10]; [11]; [12]; [13]; [32]; [194; 133]; [194; 160];
      [225; 154; 128];
      [226; 128; 128]; [226; 128; 129]; [226; 128; 130]; [226; 128; 131];
      [226; 128; 132]; [226; 128; 133]; [226; 128; 134]; [226; 128; 135];
      [226; 128; 136]; [226; 128; 137]; [226; 128; 138];
      [226; 128; 168]; [226; 128; 169]; [226; 128; 175]; [226; 129; 159];
      [227; 128; 128] ]%nat : list (list nat)).

(** [csv.Writer.fieldNeedsQuotes] with the comma as delimiter. *)
Definition fieldNeedsQuotes (field : string) : bool :=
  if String.eqb field "" then false
  else if String.eqb field "\." then true
  else if existsb (fun c => Ascii.eqb c lf || Ascii.eqb c cr || Ascii.eqb c quote
                            || Ascii.eqb c comma)
                  (list_ascii_of_string field)
       then true
  else existsb (fun p => String.prefix p field) space_encodings.

(** [strings.IndexAny(field, ...)] of quote, carriage return and line
    feed: the text before the first of them, and the text from it on. *)
Fixpoint span_plain (field : string) : string * string :=
  match field with
  | "" => ("", "")
  | String c field' =>
      if Ascii.eqb c quote || Ascii.eqb c cr || Ascii.eqb c lf then ("", field)
      else let '(plain, rest) := span_plain field' in (String c plain, rest)
  end.

(** The loop of [csv.Writer.Write] over a field that needs quotes: the
    text up to a special character as it is, a quote doubled, a
    carriage return and a line feed as they are. *)
Fixpoint write_quoted (fs : FileSystem) (fuel : nat) (field : string)
  : writer_op :=
  match fuel with
  | O => op_nil
  | S fuel' =>
      match field with
      | "" => op_nil
      | _ =>
          let '(plain, rest) := span_plain field in
          op_then (WriteString fs plain)
            match rest with
            | "" => op_nil
            | String c rest' =>
                op_then
                  (if Ascii.eqb c quote
                   then WriteString fs (String quote (String quote ""))
                   else WriteByte fs c)
                  (write_quoted fs fuel' rest')
            end
      end
  end.

(** The fields of a record, from field [n] on. *)
Fixpoint write_fields (fs : FileSystem) (n : nat) (record : list string)
  : writer_op :=
  match record with
  | [] => op_nil
  | field :: rest =>
      op_then (if (0 <? n)%nat then WriteRune fs comma else op_nil)
        (op_then
           (if negb (fieldNeedsQuotes field) then WriteString fs field
            else op_then (WriteByte fs quote)
                   (op_then (write_quoted fs (S (String.length field)) field)
                            (WriteByte fs quote)))
           (write_fields fs (S n) rest))
  end.

(** [csv.Writer.Write(record)] *)
Definition csv_Write (fs : FileSystem) (record : list string) : writer_op :=
  op_then (write_fields fs 0 record) (WriteByte fs lf).

(** *** The text of a CSV file *)

(** A quote doubled, the other characters as they are. *)
Fixpoint csv_escape (field : string) : string :=
  match field with
  | "" => ""
  | String c field' =>
      if Ascii.eqb c quote then String quote (String quote (csv_escape field'))
      else String c (csv_escape field')
  end.

Definition csv_field (field : string) : string :=
  if fieldNeedsQuotes field
  then String quote (csv_escape field) +:+ String quote ""
  else field.

(** The line of a record: its fields between commas, then a line feed. *)
Definition csv_line (record : list string) : string :=
  String.concat "," (map csv_field record) +:+ String lf "".

Definition csv_text (rows : list (list string)) : string :=
  foldr (fun row text => csv_line row +:+ text) "" rows.

(** *** [main] on the writer *)

(** The loop over the records: [writer.Write] of the row of each, a
    line printed when it returns an error, and on to the next record.
    Returns the lines printed and the writer after. *)
Fixpoint write_records (fs : FileSystem) (data : list record) (b : bufio)
  : list string * bufio :=
  match data with
  | [] => ([], b)
  | r :: rest =>
      let '(err, b1) := csv_Write fs (build_row r) b in
      let '(log, b2) := write_records fs rest b1 in
      (match err with
       | Some e => ["Error writing record to CSV: " +:+ Error (CsvError e) +:+ nl]
       | None => []
       end ++ log, b2)
  end.

(** How [main] ends, the file as the bytes it holds: the lines printed,
    the directory made, the path and the content of the file, and the
    value [main] panicked with. *)
Record run_end := RunEnd {
  e_stdout : list string;
  e_dir : option string;
  e_file : option (string * string);
  e_panic : option error
}.

(** [defer writer.Flush()] then [defer file.Close()], run when [main]
    returns or panics.  [csv.Writer.Flush] returns nothing: the error
    of the flush stays in the writer, and [main] does not ask for it.
    Gives the bytes of the file. *)
Definition deferred (fs : FileSystem) (b : bufio) : string :=
  string_of_list_ascii (b_file (Flush fs b).2).

(** [main] from the return of [wg.Wait()] on, the writer with its
    buffer. *)
Definition main_write (fs : FileSystem) (allData : list record)
    (stdout : list string) : run_end :=
  let stdout :=
    stdout ++ ["Fetched " +:+ itoa (Z.of_nat (length allData))
               +:+ " total records." +:+ nl] in
  if (0 <? length allData)%nat then
    match fs_mkdirAll fs with
    | Some err => RunEnd stdout None None (Some (OsError err))
    | None =>
        let filePath := outputDir +:+ "/" +:+ outputFile in
        match fs_create fs with
        | Some err => RunEnd stdout (Some outputDir) None (Some (OsError err))
        | None =>
            let writer := NewWriter in
            match csv_Write fs csvHeaders writer with
            | (Some err, writer) =>
                RunEnd stdout (Some outputDir)
                       (Some (filePath, deferred fs writer))
                       (Some (CsvError err))
            | (None, writer) =>
                let '(log, writer) := write_records fs allData writer in
                RunEnd (stdout ++ log
                        ++ ["✅ Data saved to" +:+ " " +:+ filePath +:+ nl])
                       (Some outputDir)
                       (Some (filePath, deferred fs writer))
                       None
            end
        end
    end
  else
    RunEnd (stdout ++ ["⚠️ No data was retrieved from the API." +:+ nl])
           None None None.

(** A run of [main] to its end: some interleaving of the pool up to
    the return of [wg.Wait()], then the writing phase on the writer. *)
Definition main_ends (n : nat) (client : Client) (fs : FileSystem)
    (e : run_end) : Prop :=
  exists s, rtc (step n client) (pool_init n) s /\ pool_done s = true
            /\ e = main_write fs (p_allData s) (p_stdout s).

(** The results of the calls of [writer.Write] on rows, in order. *)
Fixpoint write_results (fs : FileSystem) (rows : list (list string))
    (b : bufio) : list (option string) :=
  match rows with
  | [] => []
  | row :: rest =>
      let '(err, b') := csv_Write fs row b in
      err :: write_results fs rest b'
  end.

(** [main] seen through the results of its calls: what [save] is given
    when the program runs on a file system. *)
Definition OsEnv_of (fs : FileSystem) (allData : list record) : OsEnv :=
  {| mkdirAll_err := fs_mkdirAll fs;
     create_err := fs_create fs;
     write_err := fun n =>
       mjoin (write_results fs (csvHeaders :: map build_row allData) NewWriter
                !! n) |}.


(** The request [fetchBatch] sends for an offset: GET on [url] with
    the six query parameters. *)
Definition batch_request (offset : Z) : Request :=
  {| Method := "GET"; URL := url;
     RawQuery :=
       list_to_map
         [ ("where", ["1=1"]); ("outFields", ["*"]);
           ("returnGeometry", ["false"]); ("f", ["json"]);
           ("resultOffset", [itoa offset]);
           ("resultRecordCount", [itoa batchSize]) ] |}.

(** ** What the pool is expected to keep *)

(** The offsets of the feeding loop. *)
Definition offsets_upto (i : Z) : list Z :=
  (fun j => j * batchSize) <$> seqZ 0 i.

Definition all_offsets : list Z := offsets_upto maxBatches.

(** The records a call of [fetchBatch] at an offset adds to the
    dataset: those it returns, none when it fails. *)
Definition page (client : Client) (offset : Z) : list record :=
  match fetchBatch offset client with
  | (records, None) => records
  | (_, Some _) => []
  end.

Definition held_offset (ws : wstate) : list Z :=
  match ws with
  | WFetch offset => [offset]
  | _ => []
  end.

Definition held_records (ws : wstate) : list record :=
  match ws with
  | WLock records | WRead records | WWrite _ records => records
  | _ => []
  end.

Definition in_critical (ws : wstate) : nat :=
  match ws with
  | WRead _ | WWrite _ _ | WUnlock => 1
  | _ => 0
  end.

Definition reads_current (allData : list record) (ws : wstate) : Prop :=
  match ws with
  | WWrite old _ => old = allData
  | _ => True
  end.

Record pool_inv (nworkers : nat) (client : Client) (s : pool) : Prop := {
  inv_workers : length (p_workers s) = nworkers;
  inv_chan : (length (p_chan s) <= nworkers)%nat;
  inv_main :
    match p_main s with
    | MFeed i =>
        0 <= i <= maxBatches /\ p_closed s = false /\ p_sent s = offsets_upto i
    | MWait => p_closed s = true /\ p_sent s = all_offsets
    end;
  inv_done : WDone ∈ p_workers s -> p_closed s = true /\ p_chan s = [];
  inv_offsets :
    p_sent s ≡ₚ p_fetched s ++ (p_workers s ≫= held_offset) ++ p_chan s;
  inv_records :
    p_fetched s ≫= page client
    ≡ₚ p_allData s ++ (p_workers s ≫= held_records);
  inv_mu :
    sum_list_with in_critical (p_workers s) = if p_mu s then 1%nat else 0%nat;
  inv_write : Forall (reads_current (p_allData s)) (p_workers s)
}.

(** A bound on the steps left, which every step lowers. *)
Definition weight (ws : wstate) : nat :=
  match ws with
  | WFetch _ => 6
  | WLock _ => 5
  | WRead _ => 4
  | WWrite _ _ => 3
  | WUnlock => 2
  | WRecv => 1
  | WDone => 0
  end.

Definition steps_left (s : pool) : nat :=
  (match p_main s with
   | MFeed i => 7 * Z.to_nat (maxBatches - i) + 1
   | MWait => 0
   end
   + 6 * length (p_chan s) + sum_list_with weight (p_workers s))%nat.

(** The number of offsets whose page holds records. *)
Definition nonempty_pages (client : Client) : nat :=
  length (filter (fun o => (0 < length (page client o))%nat) all_offsets).

(** The dataset is made of whole pages: the pages of some offsets
    [os], laid end to end, while each worker holds the pages of the
    offsets [h] it has fetched and not yet appended. *)
Definition pages_kept (client : Client) (s : pool) : Prop :=
  exists (os : list Z) (hs : list (list Z)),
    p_allData s = os ≫= page client /\
    Forall2 (fun ws h => held_records ws = h ≫= page client) (p_workers s) hs /\
    p_fetched s ≡ₚ os ++ concat hs.

(** ** A small world to run the program in *)

(** The conversion of an unrepresentable float on amd64. *)
Definition amd64_int64_unrepresentable : float64 -> Z := fun _ => - 2 ^ 63.

Definition sample_record (id : Z) (zip : string) (filed : Z) : record :=
  <["ObjectId" := VNum (f64_of_Z id)]>
    (<["Zip" := VStr zip]>
       (<["Action_Filed" := VNum (f64_of_Z filed)]>
          (<["Sale_Date" := VNum (f64_of_Z 0)]>
             (<["Purchaser" := VNil]> ∅)))).

(** A service with two records at offset 0 and one at offset 1000; it
    answers 500 at offset 2000, cannot be reached at offset 3000, sends
    a broken body at offset 4000 and an empty page elsewhere. *)
Definition sample_client : Client := fun req =>
  match RawQuery req !! "resultOffset" with
  | Some [o] =>
      if String.eqb o "0" then inr {| StatusCode := 200; Body := "page0" |}
      else if String.eqb o "1000" then inr {| StatusCode := 200; Body := "page1" |}
      else if String.eqb o "2000" then inr {| StatusCode := 500; Body := "" |}
      else if String.eqb o "3000" then inl "connection reset"
      else if String.eqb o "4000" then inr {| StatusCode := 200; Body := "{" |}
      else inr {| StatusCode := 200; Body := "empty" |}
  | _ => inl "bad request"
  end.

Definition sample_decode (body : string) : string + QueryResult :=
  if String.eqb body "page0" then
    inr {| Features :=
             [ {| Attributes := sample_record 1 "40202" 1615766400000 |};
               {| Attributes := sample_record 2 "40203" 1615852800123 |} ] |}
  else if String.eqb body "page1" then
    inr {| Features := [ {| Attributes := sample_record 1234567 "40204" 0 |} ] |}
  else if String.eqb body "empty" then inr {| Features := [] |}
  else inl "unexpected end of JSON input".

(** A record with a purchaser whose name holds a comma. *)
Definition named_record : record :=
  <["Purchaser" := VStr "DOE, JOHN"]> (sample_record 7 "40205" 0).

(** Records enough to fill the buffer of the writer more than once. *)
Definition many_records : list record :=
  replicate 300 (<["Zip" := VStr "40202"]> ∅).

(** A file system that takes every write. *)
Definition sample_fs : FileSystem :=
  {| fs_mkdirAll := None; fs_create := None; fs_write := fun _ => None |}.

(** The error of a write to the file when the disk is full. *)
Definition ENOSPC : string :=
  "write data/Louisville_Metro_KY_-_Property_Foreclosures.csv: "
  +:+ "no space left on device".

(** A file system on which the file takes 200 bytes and no more. *)
Definition short_disk : FileSystem :=
  {| fs_mkdirAll := None; fs_create := None;
     fs_write := fun k =>
       Some (if (k =? 0)%nat then 200%nat else 0%nat, ENOSPC) |}.

(** A file system on which the file can be created and no byte
    written to it. *)
Definition full_disk : FileSystem :=
  {| fs_mkdirAll := None; fs_create := None;
     fs_write := fun _ => Some (0%nat, ENOSPC) |}.

(** ** The Gregorian calendar, to state what a rendered date means *)

Definition days_in_month (year month : Z) : Z :=
  if month =? 2 then (if isLeap year then 29 else 28)
  else if (month =? 4) || (month =? 6) || (month =? 9) || (month =? 11) then 30
  else 31.

(** Days from January 1, 1970 to January 1 of [year]. *)
Definition days_before_year (year : Z) : Z :=
  365 * (year - 1970)
  + ((year - 1) / 4 - (year - 1) / 100 + (year - 1) / 400) - 477.

(** Days from January 1 of [year] to the first day of [month]. *)
Definition days_before_month (year month : Z) : Z :=
  foldr Z.add 0 (days_in_month year <$> seqZ 1 (month - 1)).

Record civil := Civil {
  c_year : Z; c_month : Z; c_day : Z; c_hour : Z; c_minute : Z; c_second : Z
}.

Definition civil_valid (c : civil) : Prop :=
  1 <= c_month c <= 12 /\ 1 <= c_day c <= days_in_month (c_year c) (c_month c)
  /\ 0 <= c_hour c < 24 /\ 0 <= c_minute c < 60 /\ 0 <= c_second c < 60.

(** The seconds from 1970-01-01 00:00:00 UTC to a civil time in UTC. *)
Definition unix_of_civil (c : civil) : Z :=
  (days_before_year (c_year c) + days_before_month (c_year c) (c_month c)
   + (c_day c - 1)) * 86400
  + c_hour c * 3600 + c_minute c * 60 + c_second c.

(** The last [width] decimal digits of [n]. *)
Fixpoint fixed_digits (width : nat) (n : Z) : string :=
  match width with
  | O => ""
  | S w => fixed_digits w (n / 10) +:+ String (digit_char (n mod 10)) ""
  end.

(** The layout [YYYY/MM/DD HH:MM:SS+00]. *)
Definition layout_text (c : civil) : string :=
  fixed_digits 4 (c_year c) +:+ "/" +:+ fixed_digits 2 (c_month c) +:+ "/"
  +:+ fixed_digits 2 (c_day c) +:+ " " +:+ fixed_digits 2 (c_hour c) +:+ ":"
  +:+ fixed_digits 2 (c_minute c) +:+ ":" +:+ fixed_digits 2 (c_second c)
  +:+ "+00".

(** The day of the absolute epoch on which 1970 begins. *)
Definition epoch_day : Z :=
  Eval vm_compute in (unixToInternal + internalToAbsolute) / secondsPerDay.

Definition sample_data : list record :=
  [ sample_record 1 "40202" 1615766400000; sample_record 1234567 "40204" 0 ].

(** The year as [Time.Format] writes it: at least four digits, a minus
    sign before the year 0. *)
Definition year_text (y : Z) : string :=
  (if y <? 0 then "-" else "")
  +:+ (if Z.abs y <? 10000 then fixed_digits 4 (Z.abs y) else utoa (Z.abs y)).

(** The layout with a year of any size. *)
Definition layout_text_any (c : civil) : string :=
  year_text (c_year c) +:+ "/" +:+ fixed_digits 2 (c_month c) +:+ "/"
  +:+ fixed_digits 2 (c_day c) +:+ " " +:+ fixed_digits 2 (c_hour c) +:+ ":"
  +:+ fixed_digits 2 (c_minute c) +:+ ":" +:+ fixed_digits 2 (c_second c)
  +:+ "+00".

(** The line a worker prints for an offset whose fetch fails. *)
Definition error_line (client : Client) (offset : Z) : list string :=
  match fetchBatch offset client with
  | (_, Some e) =>
      ["Error fetching offset " +:+ itoa offset +:+ ": " +:+ Error e +:+ nl]
  | (_, None) => []
  end.

(** ** Notions used in the proofs *)

(** A decimal digit. *)
Definition is_digit (c : ascii) : bool :=
  ((48 <=? N_of_ascii c) && (N_of_ascii c <=? 57))%N.

Definition all_digits (s : string) : Prop :=
  Forall (fun c => is_digit c = true) (list_ascii_of_string s).

(** A text that does not begin like the nil marker. *)
Definition starts_ok (s : string) : Prop :=
  match s with
  | String c _ => c <> "<"%char
  | EmptyString => False
  end.

(** The number a decimal text denotes. *)
Definition digit_value (c : ascii) : Z := Z.of_N (N_of_ascii c) - 48.

Fixpoint digits_value_from (acc : Z) (s : string) : Z :=
  match s with
  | "" => acc
  | String c s' => digits_value_from (10 * acc + digit_value c) s'
  end.

Definition digits_value (s : string) : Z := digits_value_from 0 s.

(** The file takes every write. *)
Definition file_ok (fs : FileSystem) : Prop := forall k, fs_write fs k = None.

(** The writer holds the text [t]: all of it in the file and the
    buffer while no error stands, a part of it in the file after. *)
Definition holds (b : bufio) (t : list ascii) : Prop :=
  (length (b_buf b) <= defaultBufSize)%nat /\
  match b_err b with
  | None => b_file b ++ b_buf b = t
  | Some _ => b_file b `prefix_of` t
  end.

(** What a method of the writer does with a text: the writer holds it
    after what it held; an error returned stands in the writer; and on a
    file that takes every write no error comes up. *)
Definition emits (fs : FileSystem) (op : writer_op) (s : string) : Prop :=
  forall b t, holds b t ->
    holds (op b).2 (t ++ list_ascii_of_string s) /\
    (forall e, (op b).1 = Some e -> b_err (op b).2 = Some e) /\
    (file_ok fs -> b_err b = None -> (op b).1 = None /\ b_err (op b).2 = None).

(** An error that stands is returned again, and nothing is written. *)
Definition sticky (op : writer_op) : Prop :=
  forall b e, b_err b = Some e -> op b = (Some e, b).

(** The loop of [WriteString] is over. *)
Definition loop_over (s : list ascii) (b : bufio) : Prop :=
  (Available b <? length s)%nat && negb (bool_decide (is_Some (b_err b)))
  = false.

(** The fields of a record as [write_fields] writes them from field [n]
    on: a comma before every field but field 0. *)
Fixpoint fields_text (n : nat) (record : list string) : string :=
  match record with
  | [] => ""
  | field :: rest =>
      (if (0 <? n)%nat then "," else "") +:+ csv_field field
      +:+ fields_text (S n) rest
  end.

(** The writer after the write of the header: the line of the header
    in the buffer, nothing in the file. *)
Definition header_writer : bufio :=
  Bufio (list_ascii_of_string (csv_line csvHeaders)) None [] 0.

(** * Properties *)

(** ** Decimal digits *)

Lemma digit_char_is_digit n : is_digit (digit_char (n mod 10)) = true.
Proof.
  pose proof (Z.mod_pos_bound n 10 ltac:(lia)) as H.
  assert (Hc : n mod 10 = 0 \/ n mod 10 = 1 \/ n mod 10 = 2 \/ n mod 10 = 3
          \/ n mod 10 = 4 \/ n mod 10 = 5 \/ n mod 10 = 6 \/ n mod 10 = 7
          \/ n mod 10 = 8 \/ n mod 10 = 9) by lia.
  repeat (destruct Hc as [-> | Hc]; [reflexivity |]).
  rewrite Hc. reflexivity.
Qed.

Lemma digits_aux_all_digits fuel n acc :
  all_digits acc -> all_digits (digits_aux fuel n acc).
Proof.
  revert n acc. induction fuel as [| fuel IH]; intros n acc Hacc; simpl; [done |].
  assert (all_digits (String (digit_char (n mod 10)) acc)) as Hnext.
  { constructor; [apply digit_char_is_digit | exact Hacc]. }
  destruct (n <? 10); [exact Hnext | by apply IH].
Qed.

Lemma utoa_all_digits n : all_digits (utoa n).
Proof. apply digits_aux_all_digits. constructor. Qed.

Lemma strip_zeros_rev_sub (P : ascii -> Prop) l :
  Forall P l -> Forall P (strip_zeros_rev l).
Proof.
  induction 1 as [| c l Hc Hl IH]; [constructor |].
  destruct c as [[] [] [] [] [] [] [] []]; simpl;
    first [exact IH | by constructor].
Qed.

Lemma trim_zeros_all_digits s : all_digits s -> all_digits (trim_zeros s).
Proof.
  unfold all_digits, trim_zeros. intros H.
  rewrite list_ascii_of_string_of_list_ascii.
  apply Forall_rev, strip_zeros_rev_sub, Forall_rev, H.
Qed.

(** ** The text of a value is the nil marker for nil and for the
    string that spells it only *)

Ltac starts_const := cbn; congruence.

Lemma starts_ok_app s t : starts_ok s -> starts_ok (s +:+ t).
Proof. destruct s; simpl; [done | auto]. Qed.

Lemma starts_ok_not_nil s : starts_ok s -> s <> "<nil>".
Proof. intros H ->. simpl in H. by apply H. Qed.

Lemma is_digit_not_lt c : is_digit c = true -> c <> "<"%char.
Proof. intros H ->. discriminate H. Qed.

Lemma string_get_in n s c :
  String.get n s = Some c -> In c (list_ascii_of_string s).
Proof.
  revert n. induction s as [| a s IH]; intros [| n] H; simpl in *; try done.
  - left. congruence.
  - right. eauto.
Qed.

Lemma digit_at_starts_ok s i : all_digits s -> starts_ok (digit_at s i).
Proof.
  intros Hs. unfold digit_at. destruct (i <? 0); [starts_const |].
  destruct (String.get (Z.to_nat i) s) as [c |] eqn:Hget; [| starts_const].
  simpl. apply is_digit_not_lt.
  eapply (proj1 (List.Forall_forall _ _) Hs), string_get_in, Hget.
Qed.

Lemma fmtE_starts_ok neg d prec : all_digits (dec_digits d) -> starts_ok (fmtE neg d prec).
Proof.
  intros Hd. unfold fmtE. destruct neg; [starts_const |]. cbv zeta. change ("" +:+ ?x) with x.
  apply starts_ok_app.
  destruct (Z.of_nat (String.length (dec_digits d)) =? 0);
    [starts_const | by apply digit_at_starts_ok].
Qed.

Lemma fmtF_starts_ok neg d prec : all_digits (dec_digits d) -> starts_ok (fmtF neg d prec).
Proof.
  intros Hd. unfold fmtF. destruct neg; [starts_const |]. cbv zeta. change ("" +:+ ?x) with x.
  apply starts_ok_app.
  destruct (0 <? dec_dp d) eqn:Hdp; [| starts_const].
  apply Z.ltb_lt in Hdp.
  destruct (dec_digits d) as [| c s] eqn:Hds.
  - simpl String.length. rewrite Z.min_l by lia. simpl.
    destruct (Z.to_nat (dec_dp d - Z.of_nat 0)) eqn:Hn; [lia | starts_const].
  - set (m := Z.min _ _).
    assert (exists k, Z.to_nat m = S k) as [k ->].
    { exists (Nat.pred (Z.to_nat m)). subst m. simpl String.length. lia. }
    simpl. apply is_digit_not_lt. by inversion Hd.
Qed.

Lemma fmtG_shortest_starts_ok neg d :
  all_digits (dec_digits d) -> starts_ok (fmtG_shortest neg d).
Proof.
  intros Hd. unfold fmtG_shortest.
  destruct (_ || _); [by apply fmtE_starts_ok | by apply fmtF_starts_ok].
Qed.

Lemma shortest_from_all_digits nv nl nu den incl fuel dp k :
  all_digits (dec_digits (shortest_from nv nl nu den incl fuel dp k)).
Proof.
  revert k. induction fuel as [| fuel IH]; intros k; simpl.
  - apply utoa_all_digits.
  - destruct (round_to _ _ _ _ _ _ _); [| apply IH].
    simpl. apply trim_zeros_all_digits, utoa_all_digits.
Qed.

Lemma fmt_float64_starts_ok f : starts_ok (fmt_float64 f).
Proof.
  destruct f as [s | [] | | s m e]; cbn [fmt_float64].
  - apply fmtG_shortest_starts_ok. constructor.
  - starts_const.
  - starts_const.
  - starts_const.
  - apply fmtG_shortest_starts_ok, shortest_from_all_digits.
Qed.

Lemma fmt_value_nil_marker v :
  fmt_value v = "<nil>" <-> v = VNil \/ v = VStr "<nil>".
Proof.
  split.
  - destruct v as [| [] | f | s | l | m]; cbn [fmt_value]; intros H;
      try discriminate H; auto.
    + by apply starts_ok_not_nil in H; [| apply fmt_float64_starts_ok].
    + right. by rewrite H.
  - intros [-> | ->]; reflexivity.
Qed.

(** ** Dates *)

Ltac dlia := Z.div_mod_to_equations; lia.

Lemma utoa_unfold n :
  utoa n = digits_aux (S (Z.to_nat (Z.log2 n))) n "".
Proof. reflexivity. Qed.

Lemma digits_aux_S fuel n acc :
  digits_aux (S fuel) n acc =
  if n <? 10 then String (digit_char (n mod 10)) acc
  else digits_aux fuel (n / 10) (String (digit_char (n mod 10)) acc).
Proof. reflexivity. Qed.

Lemma log2_fuel n k :
  0 <= k -> 2 ^ k <= n -> exists f, Z.to_nat (Z.log2 n) = (Z.to_nat k + f)%nat.
Proof.
  intros Hk Hn. exists (Z.to_nat (Z.log2 n) - Z.to_nat k)%nat.
  assert (k <= Z.log2 n); [| lia].
  rewrite <- (Z.log2_pow2 k) by lia. apply Z.log2_le_mono. lia.
Qed.

Lemma utoa_1 n : 0 <= n < 10 -> utoa n = fixed_digits 1 n.
Proof.
  intros H. rewrite utoa_unfold, digits_aux_S.
  destruct (Z.ltb_spec n 10); [done | lia].
Qed.

Lemma utoa_2 n : 10 <= n < 100 -> utoa n = fixed_digits 2 n.
Proof.
  intros H. rewrite utoa_unfold.
  destruct (log2_fuel n 3) as [f ->]; [lia | lia |].
  change (S (Z.to_nat 3 + f)) with (S (S (S (S f)))). rewrite !digits_aux_S.
  destruct (Z.ltb_spec n 10); [lia |].
  destruct (Z.ltb_spec (n / 10) 10); [reflexivity | dlia].
Qed.

Lemma utoa_3 n : 100 <= n < 1000 -> utoa n = fixed_digits 3 n.
Proof.
  intros H. rewrite utoa_unfold.
  destruct (log2_fuel n 6) as [f ->]; [lia | lia |].
  change (S (Z.to_nat 6 + f)) with (S (S (S (S (S (S (S f))))))).
  rewrite !digits_aux_S.
  destruct (Z.ltb_spec n 10); [lia |].
  destruct (Z.ltb_spec (n / 10) 10); [dlia |].
  destruct (Z.ltb_spec (n / 10 / 10) 10); [reflexivity | dlia].
Qed.

Lemma utoa_4 n : 1000 <= n < 10000 -> utoa n = fixed_digits 4 n.
Proof.
  intros H. rewrite utoa_unfold.
  destruct (log2_fuel n 9) as [f ->]; [lia | lia |].
  change (S (Z.to_nat 9 + f)) with (S (S (S (S (S (S (S (S (S (S f)))))))))).
  rewrite !digits_aux_S.
  destruct (Z.ltb_spec n 10); [lia |].
  destruct (Z.ltb_spec (n / 10) 10); [dlia |].
  destruct (Z.ltb_spec (n / 10 / 10) 10); [dlia |].
  destruct (Z.ltb_spec (n / 10 / 10 / 10) 10); [reflexivity | dlia].
Qed.

Lemma fixed_digits_S w n :
  fixed_digits (S w) n = fixed_digits w (n / 10) +:+ String (digit_char (n mod 10)) "".
Proof. reflexivity. Qed.

Lemma fixed_digits_small w n : 0 <= n < 10 ^ Z.of_nat w ->
  fixed_digits (S w) n = String "0" (fixed_digits w n).
Proof.
  revert n. induction w as [| w IH]; intros n Hn.
  - assert (n = 0) as -> by (cbn in Hn; lia). reflexivity.
  - rewrite (fixed_digits_S (S w)), IH, (fixed_digits_S w); [done |].
    rewrite Nat2Z.inj_succ, Z.pow_succ_r in Hn by lia.
    split; [dlia |]. apply Z.div_lt_upper_bound; lia.
Qed.

Lemma appendInt_2 n : 0 <= n < 100 -> appendInt n 2 = fixed_digits 2 n.
Proof.
  intros H. unfold appendInt. rewrite Z.abs_eq by lia.
  destruct (Z.ltb_spec n 0); [lia |].
  destruct (Z_lt_le_dec n 10).
  - rewrite utoa_1, (fixed_digits_small 1) by (cbn; lia). reflexivity.
  - rewrite utoa_2 by lia. reflexivity.
Qed.

Lemma appendInt_4 n : 0 <= n < 10000 -> appendInt n 4 = fixed_digits 4 n.
Proof.
  intros H. unfold appendInt. rewrite Z.abs_eq by lia.
  destruct (Z.ltb_spec n 0); [lia |].
  destruct (Z_lt_le_dec n 10); [| destruct (Z_lt_le_dec n 100);
    [| destruct (Z_lt_le_dec n 1000)]].
  - rewrite utoa_1 by lia.
    rewrite (fixed_digits_small 3), (fixed_digits_small 2),
      (fixed_digits_small 1) by (cbn; lia).
    reflexivity.
  - rewrite utoa_2 by lia.
    rewrite (fixed_digits_small 3), (fixed_digits_small 2) by (cbn; lia).
    reflexivity.
  - rewrite utoa_3 by lia. rewrite (fixed_digits_small 3) by (cbn; lia).
    reflexivity.
  - rewrite utoa_4 by lia. reflexivity.
Qed.

(** *** The clock *)

Lemma absClock_spec abs :
  exists h mi s, absClock abs = (h, mi, s) /\
    0 <= h < 24 /\ 0 <= mi < 60 /\ 0 <= s < 60 /\
    h * 3600 + mi * 60 + s = abs mod 86400.
Proof.
  unfold absClock, secondsPerDay. do 3 eexists. split; [reflexivity |].
  dlia.
Qed.

(** *** The date *)

Lemma isLeap_cycles n1 n2 n3 n4 :
  0 <= n2 <= 3 -> 0 <= n3 <= 24 -> 0 <= n4 <= 3 ->
  isLeap (400 * n1 + 100 * n2 + 4 * n3 + n4 + absoluteZeroYear)
  = (n4 =? 3) && (negb (n3 =? 24) || (n2 =? 3)).
Proof.
  intros H2 H3 H4. unfold isLeap, absoluteZeroYear.
  set (year := 400 * n1 + 100 * n2 + 4 * n3 + n4 + -292277022399).
  assert (year mod 4 = (n4 + 1) mod 4) as E4 by (subst year; dlia).
  assert (year mod 100 = (4 * n3 + n4 + 1) mod 100) as E100 by (subst year; dlia).
  assert (year mod 400 = (100 * n2 + 4 * n3 + n4 + 1) mod 400) as E400
    by (subst year; dlia).
  rewrite E4, E100, E400.
  destruct (Z.eqb_spec n4 3) as [-> | Hn4].
  - destruct (Z.eqb_spec n3 24) as [-> | Hn3].
    + destruct (Z.eqb_spec n2 3) as [-> | Hn2]; [reflexivity |].
      assert (n2 = 0 \/ n2 = 1 \/ n2 = 2) as [-> | [-> | ->]] by lia; reflexivity.
    + replace ((3 + 1) mod 4) with 0 by reflexivity.
      destruct (Z.eqb_spec ((4 * n3 + 3 + 1) mod 100) 0) as [E | E]; [dlia |].
      reflexivity.
  - destruct (Z.eqb_spec ((n4 + 1) mod 4) 0) as [E | E]; [dlia | reflexivity].
Qed.

Lemma days_before_year_cycles n1 n2 n3 n4 :
  0 <= n2 <= 3 -> 0 <= n3 <= 24 -> 0 <= n4 <= 3 ->
  days_before_year (400 * n1 + 100 * n2 + 4 * n3 + n4 + absoluteZeroYear)
  = daysPer400Years * n1 + daysPer100Years * n2 + daysPer4Years * n3
    + 365 * n4 - epoch_day.
Proof.
  intros H2 H3 H4.
  unfold days_before_year, absoluteZeroYear, epoch_day, daysPer400Years,
    daysPer100Years, daysPer4Years.
  dlia.
Qed.

Lemma days_before_month_table year m :
  1 <= m <= 12 ->
  days_before_month year m
  = daysBefore_at (m - 1) + (if isLeap year && (2 <? m) then 1 else 0).
Proof.
  intros Hm. unfold days_before_month, days_in_month.
  remember (isLeap year) as leap.
  assert (m = 1 \/ m = 2 \/ m = 3 \/ m = 4 \/ m = 5 \/ m = 6 \/ m = 7 \/ m = 8
          \/ m = 9 \/ m = 10 \/ m = 11 \/ m = 12) as Hc by lia.
  repeat (destruct Hc as [-> | Hc]; [by destruct leap |]).
  subst m. by destruct leap.
Qed.

(** Evaluates the table look-ups and the tests on closed numbers. *)
Ltac eval_closed :=
  repeat match goal with
  | |- context [daysBefore_at ?k] =>
      let c := eval vm_compute in (daysBefore_at k) in
      progress change (daysBefore_at k) with c
  | |- context [?a <? ?b] =>
      let c := eval vm_compute in (a <? b) in
      lazymatch c with
      | true => change (a <? b) with true
      | false => change (a <? b) with false
      end
  | |- context [?a =? ?b] =>
      let c := eval vm_compute in (a =? b) in
      lazymatch c with
      | true => change (a =? b) with true
      | false => change (a =? b) with false
      end
  end;
  cbn [andb orb negb].

Lemma absDate_spec abs :
  0 <= abs < 2 ^ 64 ->
  exists y m d, absDate abs = (y, m, d) /\
    1 <= m <= 12 /\ 1 <= d <= days_in_month y m /\
    days_before_year y + days_before_month y m + (d - 1)
      = abs / secondsPerDay - epoch_day /\
    days_before_month y m + (d - 1) < (if isLeap y then 366 else 365).
Proof.
  intros Habs. unfold absDate. cbv zeta.
  set (D := abs / secondsPerDay).
  assert (0 <= D < 213503982334602) as HD by (subst D; unfold secondsPerDay; dlia).
  set (n1 := D / daysPer400Years).
  set (d1 := D - daysPer400Years * n1).
  assert (0 <= n1 < 1500000000 /\ 0 <= d1 < 146097) as [Hn1 Hd1]
    by (subst n1 d1; unfold daysPer400Years; dlia).
  rewrite !Z.shiftr_div_pow2 by lia. change (2 ^ 2) with 4.
  set (n2r := d1 / daysPer100Years).
  set (n2 := n2r - n2r / 4).
  set (d2 := d1 - daysPer100Years * n2).
  assert (0 <= n2 <= 3 /\ 0 <= d2 <= 36524 /\ (n2 < 3 -> d2 < 36524))
    as (Hn2 & Hd2 & Hd2')
    by (subst n2 n2r d2; unfold daysPer100Years; dlia).
  set (n3 := d2 / daysPer4Years).
  set (d3 := d2 - daysPer4Years * n3).
  assert (0 <= n3 <= 24 /\ 0 <= d3 <= 1460 /\ (n2 < 3 -> n3 = 24 -> d3 < 1460))
    as (Hn3 & Hd3 & Hd3')
    by (subst n3 d3; unfold daysPer4Years; dlia).
  set (n4r := d3 / 365).
  set (n4 := n4r - n4r / 4).
  set (yd := d3 - 365 * n4).
  assert (0 <= n4 <= 3 /\ 0 <= yd <= 365 /\ (yd = 365 -> n4 = 3 /\ d3 = 1460))
    as (Hn4 & Hyd & Hyd')
    by (subst n4 n4r yd; dlia).
  assert (D = daysPer400Years * n1 + daysPer100Years * n2
              + daysPer4Years * n3 + 365 * n4 + yd) as HDsum
    by (subst d1 d2 d3 yd; lia).
  clearbody n1 d1 n2r n2 d2 n3 d3 n4r n4 yd D.
  set (ysum := 400 * n1 + 100 * n2 + 4 * n3 + n4 + absoluteZeroYear).
  assert (wrap_int64 ysum = ysum) as ->.
  { unfold wrap_int64. subst ysum. unfold absoluteZeroYear.
    rewrite Z.mod_small; lia. }
  pose proof (isLeap_cycles n1 n2 n3 n4 Hn2 Hn3 Hn4) as Hleap.
  pose proof (days_before_year_cycles n1 n2 n3 n4 Hn2 Hn3 Hn4) as Hyear.
  fold ysum in Hleap, Hyear.
  assert (isLeap ysum = false -> yd <= 364) as Hcommon.
  { rewrite Hleap. intros Hl.
    destruct (Z.eq_dec yd 365) as [E | E]; [| lia].
    destruct (Hyd' E) as [-> Hd1460].
    destruct (Z.eqb_spec n3 24) as [E3 | E3];
      destruct (Z.eqb_spec n2 3) as [E2 | E2]; try done. lia. }
  clear Hleap Hyd' Hd3' Hd2'.
  remember (isLeap ysum) as leap eqn:Hl.
  assert (forall m d, 1 <= m <= 12 ->
            1 <= d <= (if m =? 2 then if leap then 29 else 28
                       else if (m =? 4) || (m =? 6) || (m =? 9) || (m =? 11)
                            then 30 else 31) ->
            daysBefore_at (m - 1) + (if leap && (2 <? m) then 1 else 0) + (d - 1)
              = yd ->
            1 <= m <= 12 /\ 1 <= d <= days_in_month ysum m /\
            days_before_year ysum + days_before_month ysum m + (d - 1)
              = D - epoch_day /\
            days_before_month ysum m + (d - 1)
              < (if isLeap ysum then 366 else 365)) as Hfin.
  { intros m d Hm Hd Hsum. rewrite Hyear, HDsum, days_before_month_table by lia.
    unfold days_in_month. rewrite <- Hl.
    repeat split; try lia. destruct leap; [lia |].
    specialize (Hcommon eq_refl). lia. }
  clear Hyear HDsum Hl.
  change (31 + 29 - 1) with 59.
  destruct (leap && (yd =? 59)) eqn:Hfeb29.
  - apply andb_true_iff in Hfeb29 as [-> ->%Z.eqb_eq].
    exists ysum, 2, 29. split; [done |]. apply Hfin; [lia | |]; eval_closed; lia.
  - set (day := if leap && (59 <? yd) then yd - 1 else yd).
    assert (0 <= day <= 364 /\
            (leap = true /\ 59 < yd /\ day = yd - 1
             \/ (leap = false \/ yd < 59) /\ day = yd)) as [Hday Hdcase].
    { subst day. destruct leap; cbn [andb] in *.
      - apply Z.eqb_neq in Hfeb29.
        destruct (Z.ltb_spec 59 yd); split; lia.
      - split; [specialize (Hcommon eq_refl) |]; lia. }
    clearbody day. clear Hfeb29 Hcommon.
    assert (forall k, day / 31 = k -> 0 <= k <= 11 ->
              exists y m d,
                (let '(month, begin) :=
                   if daysBefore_at (k + 1) <=? day
                   then (k + 1, daysBefore_at (k + 1))
                   else (k, daysBefore_at k) in
                 (ysum, month + 1, day - begin + 1)) = (y, m, d) /\
                1 <= m <= 12 /\ 1 <= d <= days_in_month y m /\
                days_before_year y + days_before_month y m + (d - 1)
                  = D - epoch_day /\
                days_before_month y m + (d - 1)
                  < (if isLeap y then 366 else 365)) as Hcase.
    { intros k Hk Hrange.
      assert (k = 0 \/ k = 1 \/ k = 2 \/ k = 3 \/ k = 4 \/ k = 5 \/ k = 6
              \/ k = 7 \/ k = 8 \/ k = 9 \/ k = 10 \/ k = 11 \/ False) as Hks
        by lia.
      repeat (destruct Hks as [-> | Hks]; [eval_closed;
        match goal with
        | |- context [?c <=? day] => destruct (Z.leb_spec c day)
        end;
        cbv beta iota;
        eexists _, _, _; (split; [reflexivity |]);
        (apply Hfin; [lia | |]; eval_closed; destruct leap; cbn [andb]; dlia) |]).
      destruct Hks. }
    assert (0 <= day / 31 <= 11) as Hk by (clear -Hday; dlia).
    by apply Hcase.
Qed.

Lemma year_length y :
  days_before_year (y + 1) = days_before_year y + (if isLeap y then 366 else 365).
Proof.
  unfold days_before_year, isLeap. replace (y + 1 - 1) with y by lia.
  destruct (Z.eqb_spec (y mod 4) 0); destruct (Z.eqb_spec (y mod 100) 0);
    destruct (Z.eqb_spec (y mod 400) 0); cbn [andb orb negb]; dlia.
Qed.

Lemma days_before_year_mono y1 y2 :
  y1 <= y2 -> days_before_year y1 <= days_before_year y2.
Proof. unfold days_before_year. dlia. Qed.

Lemma time_abs_Unix sec :
  - 2 ^ 62 <= sec <= 2 ^ 62 ->
  time_abs (time_Unix sec) = sec + epoch_day * secondsPerDay.
Proof.
  intros H. unfold time_abs, time_Unix, wrap_int64, wrap_uint64, internalToUnix.
  change unixToInternal with 62135596800.
  change (62135596800 + internalToAbsolute) with 9223372028715321600.
  change (epoch_day * secondsPerDay) with 9223372028715321600.
  change (2 ^ 62) with 4611686018427387904 in H.
  change (2 ^ 63) with 9223372036854775808.
  change (2 ^ 64) with 18446744073709551616.
  rewrite (Z.mod_small (sec + 62135596800 + _)) by lia.
  rewrite (Z.mod_small (_ - _ + _ + _)) by lia.
  rewrite Z.mod_small; lia.
Qed.

(** Between the years 0 and 9999 the text [Time.Format] gives for a
    second of the epoch is the layout filled with the civil time in UTC
    of that second. *)
Lemma time_Format_civil sec :
  -62167219200 <= sec <= 253402300799 ->
  exists c, civil_valid c /\ 0 <= c_year c <= 9999 /\
    unix_of_civil c = sec /\ time_Format (time_Unix sec) = layout_text c.
Proof.
  intros Hsec. unfold time_Format.
  rewrite time_abs_Unix by lia.
  set (abs := sec + epoch_day * secondsPerDay).
  assert (0 <= abs < 2 ^ 64) as Habs
    by (subst abs; unfold epoch_day, secondsPerDay; lia).
  destruct (absDate_spec abs Habs) as (y & m & d & -> & Hm & Hd & Hdays & Hyd).
  destruct (absClock_spec abs) as (h & mi & s & -> & Hh & Hmi & Hs & Hclock).
  assert (abs / secondsPerDay - epoch_day = sec / 86400 /\
          abs mod 86400 = sec mod 86400) as [Ediv Emod]
    by (subst abs; unfold epoch_day, secondsPerDay; dlia).
  rewrite Ediv in Hdays. rewrite Emod in Hclock.
  assert (0 <= days_before_month y m + (d - 1)) as Hyd0.
  { rewrite days_before_month_table by lia.
    assert (0 <= daysBefore_at (m - 1)); [| destruct (_ && _); lia].
    assert (m = 1 \/ m = 2 \/ m = 3 \/ m = 4 \/ m = 5 \/ m = 6 \/ m = 7
            \/ m = 8 \/ m = 9 \/ m = 10 \/ m = 11 \/ m = 12 \/ False) as Hc by lia.
    repeat (destruct Hc as [-> | Hc]; [by vm_compute |]). destruct Hc. }
  assert (0 <= y <= 9999) as Hy.
  { pose proof (year_length y) as Hlen.
    assert (days_before_year y <= sec / 86400 < days_before_year (y + 1))
      as Hbetween by lia.
    destruct (Z_lt_le_dec y 0) as [Hneg |]; [| destruct (Z_lt_le_dec 9999 y) as [Hbig |]];
      [| | lia]; exfalso.
    - pose proof (days_before_year_mono (y + 1) 0 ltac:(lia)) as Hmono.
      change (days_before_year 0) with (-719528) in Hmono. dlia.
    - pose proof (days_before_year_mono 10000 y ltac:(lia)) as Hmono.
      change (days_before_year 10000) with 2932897 in Hmono. dlia. }
  exists (Civil y m d h mi s). split; [| split; [| split]].
  - unfold civil_valid. cbn. lia.
  - exact Hy.
  - unfold unix_of_civil. cbn [c_year c_month c_day c_hour c_minute c_second].
    rewrite Hdays. dlia.
  - unfold layout_text. cbn [c_year c_month c_day c_hour c_minute c_second].
    assert (1 <= d <= 31) as Hd31.
    { unfold days_in_month in Hd.
      destruct (m =? 2); [destruct (isLeap y) |]; [lia | lia |].
      destruct (_ || _); lia. }
    by rewrite appendInt_4, !appendInt_2 by lia.
Qed.

(** ** Division of a float64 by 1000 *)

Lemma digits2_pos_bounds p :
  2 ^ (Z.pos (digits2_pos p) - 1) <= Z.pos p < 2 ^ Z.pos (digits2_pos p).
Proof.
  induction p as [p IH | p IH |]; cbn [digits2_pos]; [| | by vm_compute].
  - rewrite Pos2Z.inj_succ.
    replace (Z.succ (Z.pos (digits2_pos p)) - 1) with (Z.succ (Z.pos (digits2_pos p) - 1)) by lia.
    rewrite !Z.pow_succ_r by lia. lia.
  - rewrite Pos2Z.inj_succ.
    replace (Z.succ (Z.pos (digits2_pos p)) - 1) with (Z.succ (Z.pos (digits2_pos p) - 1)) by lia.
    rewrite !Z.pow_succ_r by lia. lia.
Qed.

Lemma digits2_pos_unique p d :
  2 ^ (d - 1) <= Z.pos p < 2 ^ d -> Z.pos (digits2_pos p) = d.
Proof.
  intros H. pose proof (digits2_pos_bounds p) as Hb.
  set (D := Z.pos (digits2_pos p)) in *.
  assert (0 < d).
  { destruct (Z_lt_le_dec 0 d); [done |].
    destruct (Z.eq_dec d 0) as [-> | ]; [cbn in H; lia |].
    rewrite (Z.pow_neg_r 2 d) in H by lia. lia. }
  destruct (Z.lt_trichotomy D d) as [Hlt | [Heq | Hgt]]; [| done |]; exfalso.
  - assert (2 ^ D <= 2 ^ (d - 1)) by (apply Z.pow_le_mono_r; lia). lia.
  - assert (2 ^ d <= 2 ^ (D - 1)) by (apply Z.pow_le_mono_r; lia). lia.
Qed.

Lemma fexp_normal e : -1074 <= e -> fexp 53 1024 (53 + e) = e.
Proof. intros H. unfold fexp, emin. lia. Qed.

Lemma round_record m l :
  round_nearest_even (shr_m (shr_record_of_loc m l))
                     (loc_of_shr_record (shr_record_of_loc m l))
  = round_nearest_even m l.
Proof. by destruct l as [| []]. Qed.

Lemma round_nearest_even_cases m l :
  round_nearest_even m l = m \/
  (round_nearest_even m l = m + 1 /\ l <> loc_Exact /\ l <> loc_Inexact Lt).
Proof.
  destruct l as [| []]; cbn; auto;
    try (destruct (Z.even m); auto); right; by repeat split.
Qed.

(** The last stage of [binary_round_aux]: a rounded mantissa of 53 bits
    stays, and [2 ^ 53] becomes [2 ^ 52] with the exponent raised. *)
Lemma round_finish s (M : positive) e :
  2 ^ 52 <= Z.pos M <= 2 ^ 53 -> -1074 <= e <= 970 ->
  exists M' e',
    (let '(mrs, e'') := shr_fexp 53 1024 (Z.pos M) e loc_Exact in
     match shr_m mrs with
     | 0 => S754_zero s
     | Z.pos m =>
         if e'' <=? 1024 - 53 then S754_finite s m e'' else S754_infinity s
     | Z.neg _ => S754_nan
     end) = S754_finite s M' e' /\
    Z.pos M' * 2 ^ (e' - e) = Z.pos M /\ (e' = e \/ e' = e + 1).
Proof.
  intros HM He. unfold shr_fexp.
  destruct (Z.eq_dec (Z.pos M) (2 ^ 53)) as [E | NE].
  - change (2 ^ 53) with (Z.pos 9007199254740992) in E. rewrite E.
    cbn [Zdigits2].
    change (Z.pos (digits2_pos 9007199254740992)) with 54.
    replace (fexp 53 1024 (54 + e)) with (e + 1) by (unfold fexp, emin; lia).
    replace (e + 1 - e) with 1 by lia.
    cbn [shr shr_record_of_loc iter_pos shr_1 shr_m orb].
    destruct (Z.leb_spec (e + 1) (1024 - 53)); [| lia].
    exists 4503599627370496%positive, (e + 1). split; [reflexivity |].
    replace (e + 1 - e) with 1 by lia. split; [reflexivity | lia].
  - cbn [Zdigits2]. rewrite (digits2_pos_unique M 53) by (cbn in *; lia).
    rewrite fexp_normal, Z.sub_diag by lia. cbn [shr shr_record_of_loc shr_m].
    destruct (Z.leb_spec e (1024 - 53)); [| lia].
    exists M, e. rewrite Z.sub_diag. change (2 ^ 0) with 1.
    split; [reflexivity |]. lia.
Qed.

(** Rounding a mantissa of 53 bits: it stays, or the next one is taken. *)
Lemma binary_round_aux_53 s (q : positive) e l :
  2 ^ 52 <= Z.pos q < 2 ^ 53 -> -1074 <= e <= 970 ->
  exists M e',
    binary_round_aux 53 1024 s (Z.pos q) e l = S754_finite s M e' /\
    (Z.pos M * 2 ^ (e' - e) = Z.pos q \/ Z.pos M * 2 ^ (e' - e) = Z.pos q + 1) /\
    (e' = e \/ e' = e + 1).
Proof.
  intros Hq He. unfold binary_round_aux.
  assert (shr_fexp 53 1024 (Z.pos q) e l = (shr_record_of_loc (Z.pos q) l, e))
    as ->.
  { unfold shr_fexp. cbn [Zdigits2].
    rewrite (digits2_pos_unique q 53) by (cbn; lia).
    by rewrite fexp_normal, Z.sub_diag by lia. }
  rewrite round_record.
  destruct (round_nearest_even_cases (Z.pos q) l) as [-> | (-> & _)].
  - destruct (round_finish s q e) as (M & e' & -> & HM & He'); [lia | lia |].
    exists M, e'. split; [reflexivity |]. split; [by left | done].
  - change (Z.pos q + 1) with (Z.pos (q + 1)).
    destruct (round_finish s (q + 1) e) as (M & e' & -> & HM & He'); [lia | lia |].
    exists M, e'. split; [reflexivity |]. split; [right; lia | done].
Qed.

(** Rounding a mantissa of 54 bits: the last bit is dropped, and the
    next mantissa is taken only when that bit was set. *)
Lemma binary_round_aux_54 s (q : positive) e l :
  2 ^ 53 <= Z.pos q < 2 ^ 54 -> -1074 <= e <= 969 ->
  exists M e',
    binary_round_aux 53 1024 s (Z.pos q) e l = S754_finite s M e' /\
    (Z.pos M * 2 ^ (e' - (e + 1)) = Z.pos q / 2 \/
     Z.pos M * 2 ^ (e' - (e + 1)) = Z.pos q / 2 + 1 /\ Z.odd (Z.pos q) = true) /\
    (e' = e + 1 \/ e' = e + 2).
Proof.
  intros Hq He. unfold binary_round_aux.
  assert (shr_fexp 53 1024 (Z.pos q) e l
          = (shr_1 (shr_record_of_loc (Z.pos q) l), e + 1)) as ->.
  { unfold shr_fexp. cbn [Zdigits2].
    rewrite (digits2_pos_unique q 54) by (cbn; lia).
    replace (fexp 53 1024 (54 + e)) with (e + 1) by (unfold fexp, emin; lia).
    replace (e + 1 - e) with 1 by lia. reflexivity. }
  destruct q as [p | p |]; [| | cbn in Hq; lia].
  - (* the bit dropped is set *)
    assert (exists b, shr_1 (shr_record_of_loc (Z.pos p~1) l)
                      = {| shr_m := Z.pos p; shr_r := true; shr_s := b |})
      as [b ->] by (destruct l as [| []]; cbn; eauto).
    assert (Z.pos p~1 / 2 = Z.pos p) as Hhalf by (rewrite Pos2Z.inj_xI; dlia).
    rewrite Hhalf.
    assert (2 ^ 52 <= Z.pos p < 2 ^ 53) as Hp
      by (rewrite Pos2Z.inj_xI in Hq; cbn in *; lia).
    destruct b; cbn [shr_m loc_of_shr_record];
      match goal with
      | |- context [round_nearest_even (Z.pos p) ?loc] =>
          destruct (round_nearest_even_cases (Z.pos p) loc) as [-> | (-> & _)]
      end;
      first
      [ destruct (round_finish s p (e + 1)) as (M & e' & -> & HM & He');
          [lia | lia |];
        exists M, e'; split; [reflexivity |]; split; [by left | lia]
      | change (Z.pos p + 1) with (Z.pos (p + 1));
        destruct (round_finish s (p + 1) (e + 1)) as (M & e' & -> & HM & He');
          [lia | lia |];
        exists M, e'; split; [reflexivity |];
        split; [right; split; [lia | done] | lia] ].
  - (* the bit dropped is clear *)
    assert (exists b, shr_1 (shr_record_of_loc (Z.pos p~0) l)
                      = {| shr_m := Z.pos p; shr_r := false; shr_s := b |})
      as [b ->] by (destruct l as [| []]; cbn; eauto).
    assert (Z.pos p~0 / 2 = Z.pos p) as Hhalf by (rewrite Pos2Z.inj_xO; dlia).
    rewrite Hhalf.
    assert (2 ^ 52 <= Z.pos p < 2 ^ 53) as Hp
      by (rewrite Pos2Z.inj_xO in Hq; cbn in *; lia).
    destruct b; cbn [shr_m loc_of_shr_record round_nearest_even];
      destruct (round_finish s p (e + 1)) as (M & e' & -> & HM & He');
        [lia | lia | | lia | lia |];
      exists M, e'; (split; [reflexivity |]); (split; [by left | lia]).
Qed.

Lemma div_between a b q : 0 < b -> b * q <= a < b * (q + 1) -> a / b = q.
Proof.
  intros Hb H. symmetry. apply (Z.div_unique a b q (a - b * q)); lia.
Qed.

Lemma quotient_parts X P :
  0 <= X -> 1 <= P ->
  exists a c, X * P * 1024 = 1024000 * a + 1024 * c /\
              a = P * (X / 1000) /\ 0 <= c <= 999 * P.
Proof.
  intros HX HP. exists (P * (X / 1000)), (P * (X mod 1000)).
  pose proof (Z.div_mod X 1000 ltac:(lia)) as Hdm.
  pose proof (Z.mod_pos_bound X 1000 ltac:(lia)) as Hb.
  repeat split; [| nia | nia].
  rewrite Hdm at 1. ring.
Qed.

(** The quotient mantissa of 53 bits, or the next one, has the integer
    part of [X / 1000]. *)
Lemma trunc_quotient_53 X P R :
  0 <= X -> 1 <= P ->
  R = X * P * 1024 / 1000 \/ R = X * P * 1024 / 1000 + 1 ->
  R / (1024 * P) = X / 1000.
Proof.
  intros HX HP HR.
  destruct (quotient_parts X P HX HP) as (a & c & Hq & Ha & Hc).
  rewrite Hq in HR.
  apply div_between; [lia |]. rewrite <- Z.mul_assoc, <- Ha.
  replace (1024 * P * (X / 1000 + 1)) with (1024 * a + 1024 * P) by lia.
  clear Ha Hq. dlia.
Qed.

(** The quotient mantissa of 54 bits, halved, or the next one when the
    bit dropped was set, has the integer part of [X / 1000]. *)
Lemma trunc_quotient_54 X P R :
  0 <= X -> 1 <= P ->
  R = X * P * 1024 / 1000 / 2 \/
  (R = X * P * 1024 / 1000 / 2 + 1 /\ Z.odd (X * P * 1024 / 1000) = true) ->
  R / (512 * P) = X / 1000.
Proof.
  intros HX HP HR.
  destruct (quotient_parts X P HX HP) as (a & c & Hq & Ha & Hc).
  rewrite Hq in HR.
  apply div_between; [lia |]. rewrite <- Z.mul_assoc, <- Ha.
  replace (512 * P * (X / 1000 + 1)) with (512 * a + 512 * P) by lia.
  clear Ha Hq. destruct HR as [-> | [-> Hodd]]; [dlia |].
  apply Z.odd_spec in Hodd as [k Hk]. dlia.
Qed.

Lemma f64_of_Z_1000 : f64_of_Z 1000 = S754_finite false 8796093022208000 (-43).
Proof. reflexivity. Qed.

Lemma SFdiv_core_1000 (mx : positive) ex :
  2 ^ 52 <= Z.pos mx < 2 ^ 53 -> -52 <= ex <= 0 ->
  SFdiv_core_binary 53 1024 (Z.pos mx) ex (Z.pos 8796093022208000) (-43)
  = (Z.pos mx * 2 ^ 53 / 8796093022208000, ex - 10,
     new_location 8796093022208000 (Z.pos mx * 2 ^ 53 mod 8796093022208000)).
Proof.
  intros Hmx Hex. unfold SFdiv_core_binary. cbn [Zdigits2].
  rewrite (digits2_pos_unique mx 53) by (cbn; lia).
  change (Z.pos (digits2_pos 8796093022208000)) with 53.
  replace (Z.min (fexp 53 1024 (53 + ex - (53 + -43))) (ex - -43))
    with (ex - 10) by (unfold fexp, emin; lia).
  replace (ex - -43 - (ex - 10)) with 53 by lia.
  cbv iota beta zeta. rewrite Z.shiftl_mul_pow2 by lia.
  unfold Z.div, Z.modulo.
  by destruct (Z.div_eucl (Z.pos mx * 2 ^ 53) 8796093022208000).
Qed.

(** Dividing a float64 that holds a whole number below [2 ^ 53] by 1000
    gives a float whose integer part is the quotient of the whole
    numbers. *)
Lemma f64_div_1000 sx (mx : positive) ex :
  2 ^ 52 <= Z.pos mx < 2 ^ 53 -> -52 <= ex <= 0 ->
  Z.pos mx mod 2 ^ (- ex) = 0 ->
  exists M e',
    f64_div (S754_finite sx mx ex) (f64_of_Z 1000) = S754_finite sx M e' /\
    e' < 0 /\ Z.pos M / 2 ^ (- e') = Z.pos mx / 2 ^ (- ex) / 1000.
Proof.
  intros Hmx Hex Hint.
  unfold f64_div. rewrite f64_of_Z_1000. cbn [SFdiv].
  rewrite SFdiv_core_1000 by done. rewrite xorb_false_r.
  set (P := 2 ^ (- ex)) in *.
  assert (1 <= P) as HP by (subst P; apply (Z.pow_le_mono_r 2 0); lia).
  set (X := Z.pos mx / P).
  assert (Z.pos mx = X * P) as HX
    by (subst X; pose proof (Z.div_mod (Z.pos mx) P ltac:(lia)); lia).
  assert (0 <= X) as HX0 by (subst X; apply Z.div_pos; lia).
  assert (forall k, 0 <= k -> 2 ^ (k - ex) = 2 ^ k * P) as Hpow
    by (intros k Hk; subst P; rewrite <- Z.pow_add_r by lia; f_equal; lia).
  change (2 ^ 53) with 9007199254740992 in *.
  change (2 ^ 52) with 4503599627370496 in *.
  set (q := Z.pos mx * 9007199254740992 / 8796093022208000).
  assert (q = X * P * 1024 / 1000) as Hq by (subst q; rewrite HX; dlia).
  assert (4503599627370496 <= q < 18014398509481984) as Hqb by (subst q; dlia).
  destruct q as [| qp |] eqn:Hqp; [lia | | lia].
  destruct (Z_lt_le_dec (Z.pos qp) 9007199254740992) as [H53 | H54].
  - destruct (binary_round_aux_53 sx qp (ex - 10)
                (new_location 8796093022208000
                   (Z.pos mx * 9007199254740992 mod 8796093022208000)))
      as (M & e' & -> & HM & He'); [cbn; lia | lia |].
    exists M, e'. split; [reflexivity |]. split; [lia |].
    destruct He' as [-> | ->].
    + rewrite Z.sub_diag in HM. change (2 ^ 0) with 1 in HM.
      replace (- (ex - 10)) with (10 - ex) by lia. rewrite Hpow by lia.
      change (2 ^ 10) with 1024.
      apply trunc_quotient_53; [done | done |]. rewrite <- Hq. lia.
    + replace (ex - 10 + 1 - (ex - 10)) with 1 in HM by lia.
      change (2 ^ 1) with 2 in HM.
      replace (- (ex - 10 + 1)) with (9 - ex) by lia. rewrite Hpow by lia.
      change (2 ^ 9) with 512.
      rewrite <- (trunc_quotient_53 X P (Z.pos M * 2)); [| done | done |].
      * replace (1024 * P) with (2 * (512 * P)) by lia.
        rewrite (Z.mul_comm (Z.pos M) 2), Z.div_mul_cancel_l; lia.
      * rewrite <- Hq. lia.
  - destruct (binary_round_aux_54 sx qp (ex - 10)
                (new_location 8796093022208000
                   (Z.pos mx * 9007199254740992 mod 8796093022208000)))
      as (M & e' & -> & HM & He'); [cbn; lia | lia |].
    exists M, e'. split; [reflexivity |]. split; [lia |].
    rewrite Hq in HM.
    destruct He' as [-> | ->].
    + rewrite Z.sub_diag in HM. change (2 ^ 0) with 1 in HM.
      replace (- (ex - 10 + 1)) with (9 - ex) by lia. rewrite Hpow by lia.
      change (2 ^ 9) with 512.
      apply trunc_quotient_54; [done | done |].
      destruct HM as [HM | [HM Hodd]]; [left | right; split; [| done]]; lia.
    + replace (ex - 10 + 2 - (ex - 10 + 1)) with 1 in HM by lia.
      change (2 ^ 1) with 2 in HM.
      replace (- (ex - 10 + 2)) with (8 - ex) by lia. rewrite Hpow by lia.
      change (2 ^ 8) with 256.
      rewrite <- (trunc_quotient_54 X P (Z.pos M * 2)); [| done | done |];
        [| destruct HM as [HM | [HM Hodd]]; [left | right; split; [| done]]; lia].
      replace (512 * P) with (2 * (256 * P)) by lia.
      rewrite (Z.mul_comm (Z.pos M) 2), Z.div_mul_cancel_l; lia.
Qed.

Lemma binary_round_aux_exact s (q : positive) e :
  2 ^ 52 <= Z.pos q < 2 ^ 53 -> -1074 <= e <= 970 ->
  binary_round_aux 53 1024 s (Z.pos q) e loc_Exact = S754_finite s q e.
Proof.
  intros Hq He. unfold binary_round_aux, shr_fexp. cbn [Zdigits2].
  rewrite (digits2_pos_unique q 53) by (cbn; lia).
  rewrite fexp_normal, Z.sub_diag by lia.
  cbn [shr shr_record_of_loc shr_m loc_of_shr_record round_nearest_even Zdigits2].
  rewrite (digits2_pos_unique q 53) by (cbn; lia).
  rewrite fexp_normal, Z.sub_diag by lia. cbn [shr shr_m].
  by destruct (Z.leb_spec e (1024 - 53)); [| lia].
Qed.

Lemma iter_xO_pow (p k : positive) :
  Z.pos (Pos.iter xO p k) = Z.pos p * 2 ^ Z.pos k.
Proof.
  change (Pos.iter xO p k) with (shift_pos k p).
  rewrite shift_pos_correct, Zpower_pos_nat, Zpower_nat_Z, positive_nat_Z. lia.
Qed.

(** The float64 of a whole number below [2 ^ 53] holds it exactly, in
    a mantissa of 53 bits. *)
Lemma f64_of_Z_normal ms :
  ms <> 0 -> - 2 ^ 53 < ms < 2 ^ 53 ->
  exists mx ex,
    f64_of_Z ms = S754_finite (ms <? 0) mx ex /\
    2 ^ 52 <= Z.pos mx < 2 ^ 53 /\ -52 <= ex <= 0 /\
    Z.pos mx = Z.abs ms * 2 ^ (- ex).
Proof.
  intros Hne Hms.
  assert (forall s (p : positive), Z.pos p < 2 ^ 53 ->
            exists mx ex, binary_round 53 1024 s p 0 = S754_finite s mx ex /\
              2 ^ 52 <= Z.pos mx < 2 ^ 53 /\ -52 <= ex <= 0 /\
              Z.pos mx = Z.pos p * 2 ^ (- ex)) as Hround.
  { intros s p Hp. unfold binary_round.
    pose proof (digits2_pos_bounds p) as Hd.
    set (d := Z.pos (digits2_pos p)) in *.
    assert (1 <= d <= 53) as Hd53.
    { split; [subst d; lia |].
      destruct (Z_lt_le_dec 53 d); [| done].
      assert (2 ^ 53 <= 2 ^ (d - 1)) by (apply Z.pow_le_mono_r; lia). lia. }
    replace (fexp 53 1024 (d + 0)) with (d - 53) by (unfold fexp, emin; lia).
    unfold shl_align. rewrite Z.sub_0_r.
    destruct (d - 53) as [| k | k] eqn:Hk; [| lia |].
    - rewrite binary_round_aux_exact by (replace d with 53 in Hd by lia; cbn in *; lia).
      exists p, 0. replace d with 53 in Hd by lia. cbn in *. repeat split; lia.
    - assert (Z.pos (Pos.iter xO p k) = Z.pos p * 2 ^ (53 - d)) as Hshift
        by (rewrite iter_xO_pow; f_equal; f_equal; lia).
      assert (2 ^ 52 <= Z.pos p * 2 ^ (53 - d) < 2 ^ 53) as Hrange.
      { assert (2 ^ 52 = 2 ^ (d - 1) * 2 ^ (53 - d)) as ->
          by (rewrite <- Z.pow_add_r by lia; f_equal; lia).
        assert (2 ^ 53 = 2 ^ d * 2 ^ (53 - d)) as ->
          by (rewrite <- Z.pow_add_r by lia; f_equal; lia).
        assert (0 < 2 ^ (53 - d)) by (apply Z.pow_pos_nonneg; lia). nia. }
      rewrite <- Hk. rewrite binary_round_aux_exact by lia.
      exists (Pos.iter xO p k), (d - 53). split; [done |].
      rewrite Hshift. replace (- (d - 53)) with (53 - d) by lia.
      repeat split; lia. }
  destruct ms as [| p | p]; [done | |].
  - destruct (Hround false p) as (mx & ex & H1 & H2 & H3 & H4); [lia |].
    exists mx, ex. split; [exact H1 |]. split; [done |]. split; [done |].
    exact H4.
  - destruct (Hround true p) as (mx & ex & H1 & H2 & H3 & H4); [lia |].
    exists mx, ex. split; [exact H1 |]. split; [done |]. split; [done |].
    exact H4.
Qed.

Lemma whole_ms_to_seconds ms :
  ms <> 0 -> - 2 ^ 53 < ms < 2 ^ 53 ->
  f64_eqb (f64_of_Z ms) (f64_of_Z 0) = false /\
  int64_of_f64 (f64_div (f64_of_Z ms) (f64_of_Z 1000)) = Z.quot ms 1000.
Proof.
  intros Hne Hms.
  destruct (f64_of_Z_normal ms Hne Hms) as (mx & ex & -> & Hmx & Hex & Hval).
  split; [by destruct (ms <? 0) |].
  assert (0 < 2 ^ (- ex)) as Hpow by (apply Z.pow_pos_nonneg; lia).
  destruct (f64_div_1000 (ms <? 0) mx ex Hmx Hex) as (M & e' & -> & He' & Hq).
  { rewrite Hval. apply Z.mod_mul. lia. }
  rewrite Hval, Z.div_mul in Hq by lia.
  unfold int64_of_f64, f64_trunc.
  destruct (Z.leb_spec 0 e'); [lia |]. rewrite Hq.
  assert (0 <= Z.abs ms / 1000 < 2 ^ 53) as Hrange.
  { change (2 ^ 53) with 9007199254740992 in *. dlia. }
  set (t := if ms <? 0 then - (Z.abs ms / 1000) else Z.abs ms / 1000).
  assert ((- 2 ^ 63 <=? t) && (t <? 2 ^ 63) = true) as ->.
  { change (2 ^ 53) with 9007199254740992 in *.
    change (2 ^ 63) with 9223372036854775808.
    apply andb_true_iff. split; [apply Z.leb_le | apply Z.ltb_lt];
      subst t; destruct (ms <? 0); lia. }
  subst t. destruct (Z.ltb_spec ms 0) as [Hneg | Hpos].
  - rewrite Z.abs_neq by lia.
    rewrite <- Z.quot_div_nonneg, Z.quot_opp_l by lia. lia.
  - rewrite Z.abs_eq by lia. by rewrite Z.quot_div_nonneg by lia.
Qed.

(** ** formatValue *)

Lemma stringify_not_marker v :
  v <> VNil -> v <> VStr "<nil>" -> stringify v = fmt_value v.
Proof.
  intros H1 H2. unfold stringify.
  destruct (String.eqb_spec (fmt_value v) "<nil>") as [He | _]; [| done].
  apply fmt_value_nil_marker in He. tauto.
Qed.

Lemma formatValue_other_column key v :
  is_date_key key = false -> v <> VNil -> formatValue key v = stringify v.
Proof. intros Hk Hv. unfold formatValue. rewrite Hk. by destruct v. Qed.

(** C1: on the columns Action_Filed and Sale_Date a number equal to
    zero gives the empty string; any other number is divided by 1000 as
    a float64, cut to its integer part, and that second of the epoch is
    written by [time.Format] in UTC.  For a whole number of
    milliseconds (exact in a float64, so below [2 ^ 53]) the second is
    the quotient truncated toward zero, and between the years 0 and
    9999 the text is the layout YYYY/MM/DD HH:MM:SS+00 filled with the
    civil time in UTC of that second; the milliseconds of
    2021-03-15T00:00:00Z give that date.  A value that is present and
    no number is written as on any other column. *)
Theorem formatValue_date_column key :
  key = "Action_Filed" \/ key = "Sale_Date" ->
  (forall ts, f64_eqb ts (f64_of_Z 0) = true -> formatValue key (VNum ts) = "") /\
  (forall ts, f64_eqb ts (f64_of_Z 0) = false ->
     formatValue key (VNum ts) =
       time_Format (time_Unix (int64_of_f64 (f64_div ts (f64_of_Z 1000))))) /\
  (forall ms, ms <> 0 -> - 2 ^ 53 < ms < 2 ^ 53 ->
     formatValue key (VNum (f64_of_Z ms)) =
       time_Format (time_Unix (Z.quot ms 1000))) /\
  (forall ms, ms <> 0 -> -62167219200999 <= ms <= 253402300799999 ->
     exists c, civil_valid c /\ 0 <= c_year c <= 9999 /\
       unix_of_civil c = Z.quot ms 1000 /\
       formatValue key (VNum (f64_of_Z ms)) = layout_text c) /\
  formatValue key (VNum (f64_of_Z 1615766400000)) = "2021/03/15 00:00:00+00" /\
  (forall v, v <> VNil -> (forall ts, v <> VNum ts) ->
     formatValue key v = stringify v).
Proof.
  clear json_Decode. intros Hkey.
  assert (is_date_key key = true) as Hk by (by destruct Hkey as [-> | ->]).
  assert (forall ts, f64_eqb ts (f64_of_Z 0) = false ->
            formatValue key (VNum ts) =
              time_Format (time_Unix (int64_of_f64 (f64_div ts (f64_of_Z 1000)))))
    as Hnum.
  { intros ts Hts. unfold formatValue. by rewrite Hk, Hts. }
  assert (forall ms, ms <> 0 -> - 2 ^ 53 < ms < 2 ^ 53 ->
            formatValue key (VNum (f64_of_Z ms)) =
              time_Format (time_Unix (Z.quot ms 1000))) as Hms.
  { intros ms Hne Hrange.
    destruct (whole_ms_to_seconds ms Hne Hrange) as [Hz Hsec].
    by rewrite Hnum, Hsec. }
  split; [| split; [exact Hnum | split; [exact Hms | split; [| split]]]].
  - intros ts Hts. unfold formatValue. by rewrite Hk, Hts.
  - intros ms Hne Hrange.
    destruct (time_Format_civil (Z.quot ms 1000)) as (c & Hv & Hy & Hu & Hf).
    { Z.to_euclidean_division_equations. lia. }
    exists c. rewrite Hms by (change (2 ^ 53) with 9007199254740992; lia).
    split; [exact Hv | split; [exact Hy | split; [exact Hu | exact Hf]]].
  - rewrite Hms by (change (2 ^ 53) with 9007199254740992; lia).
    vm_compute. reflexivity.
  - intros v Hnil Hnum'. unfold formatValue. rewrite Hk.
    destruct v; try done. by destruct (Hnum' f).
Qed.

(** C6: an absent or nil value gives the empty string on every column
    (a key missing from a record reads as nil), and on a column that is
    no date column a value whose text is the nil marker gives the empty
    string too. *)
Theorem formatValue_nil_is_empty :
  (forall key, formatValue key VNil = "") /\
  (forall key (r : record), r !! key = None ->
     formatValue key (record_get r key) = "") /\
  (forall key v, is_date_key key = false -> fmt_value v = "<nil>" ->
     formatValue key v = "").
Proof.
  split; [done |]. split.
  - intros key r Hr. unfold record_get. by rewrite Hr.
  - intros key v Hk Hv. unfold formatValue, stringify.
    rewrite Hk, Hv. by destruct v.
Qed.


(** C10: on a column that is no date column a number is written as
    [fmt] writes a float64 under the verb v, the shortest digits in the
    form of the verb g, so the integer 1234567 comes out in exponent
    form; integers below a million keep their plain digits. *)
Theorem formatValue_number_exponent_form :
  (forall key f, is_date_key key = false ->
     formatValue key (VNum f) = fmt_float64 f) /\
  formatValue "Sale_Price" (VNum (f64_of_Z 1234567)) = "1.234567e+06" /\
  formatValue "ObjectId" (VNum (f64_of_Z 1234567)) = "1.234567e+06" /\
  formatValue "ObjectId" (VNum (f64_of_Z 1000000)) = "1e+06" /\
  formatValue "ObjectId" (VNum (f64_of_Z 999999)) = "999999" /\
  formatValue "Zip" (VNum (f64_of_Z 40202)) = "40202".
Proof.
  split.
  - intros key f Hk. rewrite formatValue_other_column by done.
    by apply stringify_not_marker.
  - repeat split; vm_compute; reflexivity.
Qed.

(** ** fetchBatch *)

Lemma foldl_snoc_map {A B} (f : A -> B) (l : list A) (acc : list B) :
  foldl (fun acc x => acc ++ [f x]) acc l = acc ++ map f l.
Proof.
  revert acc. induction l as [| x l IH]; intros acc; simpl.
  - by rewrite app_nil_r.
  - by rewrite IH, <- app_assoc.
Qed.

Lemma fetchBatch_unfold offset client :
  fetchBatch offset client =
  match client (batch_request offset) with
  | inl err => ([], Some (UrlError err))
  | inr resp =>
      if StatusCode resp =? 200 then
        match json_Decode (Body resp) with
        | inl err => ([], Some (JsonError err))
        | inr result => (map Attributes (Features result), None)
        end
      else ([], Some (ErrorfError ("status code " +:+ itoa (StatusCode resp))))
  end.
Proof.
  unfold fetchBatch, http_NewRequest, batch_request, http_StatusOK.
  cbn [Method URL RawQuery].
  match goal with
  | |- match client {| RawQuery := ?a |} with _ => _ end =
       match client {| RawQuery := ?b |} with _ => _ end =>
      replace a with b by (apply map_eq; intros k; vm_compute; reflexivity)
  end.
  destruct (client _) as [err | resp]; [done |].
  destruct (StatusCode resp =? 200); simpl; [| done].
  destruct (json_Decode _) as [err | result]; [done |].
  by rewrite foldl_snoc_map.
Qed.

(** C8: one call of [fetchBatch] either fails or succeeds as a whole.
    A transport error, a status other than 200 and a body that does
    not decode each give an error of their own that carries the cause,
    with no records; the worker that called prints the offset and the
    cause and leaves the dataset as it is.  On success the result is
    the attribute mapping of each feature of the decoded document, in
    order, and nothing else. *)
Theorem fetchBatch_all_or_nothing offset client :
  (forall e, client (batch_request offset) = inl e ->
     fetchBatch offset client = ([], Some (UrlError e))) /\
  (forall resp, client (batch_request offset) = inr resp ->
     StatusCode resp <> 200 ->
     fetchBatch offset client =
       ([], Some (ErrorfError ("status code " +:+ itoa (StatusCode resp))))) /\
  (forall resp e, client (batch_request offset) = inr resp ->
     StatusCode resp = 200 -> json_Decode (Body resp) = inl e ->
     fetchBatch offset client = ([], Some (JsonError e))) /\
  (forall resp result, client (batch_request offset) = inr resp ->
     StatusCode resp = 200 -> json_Decode (Body resp) = inr result ->
     fetchBatch offset client = (map Attributes (Features result), None)) /\
  (forall records e, fetchBatch offset client = (records, Some e) ->
     records = []) /\
  (forall w s e, p_workers s !! w = Some (WFetch offset) ->
     fetchBatch offset client = ([], Some e) ->
     exists s', worker_step client w s = Some s' /\
       p_allData s' = p_allData s /\
       p_workers s' !! w = Some WRecv /\
       p_stdout s' = p_stdout s ++
         ["Error fetching offset " +:+ itoa offset +:+ ": " +:+ Error e +:+ nl]).
Proof.
  repeat split.
  - intros e H. by rewrite fetchBatch_unfold, H.
  - intros resp H Hs. rewrite fetchBatch_unfold, H.
    by destruct (Z.eqb_spec (StatusCode resp) 200).
  - intros resp e H Hs Hd. by rewrite fetchBatch_unfold, H, Hs, Hd.
  - intros resp result H Hs Hd. by rewrite fetchBatch_unfold, H, Hs, Hd.
  - intros records e. rewrite fetchBatch_unfold.
    destruct (client _) as [err | resp]; [congruence |].
    destruct (StatusCode resp =? 200); [| congruence].
    destruct (json_Decode _); congruence.
  - intros w s e Hw Hf. unfold worker_step. rewrite Hw, Hf.
    eexists. split; [reflexivity |]. cbn [p_allData p_workers p_stdout].
    repeat split. apply list_lookup_insert_eq. by eapply lookup_lt_Some.
Qed.

(** ** The rows of the output file *)

Lemma fill_row_from {A} (f : string -> A) (d : A) (rest : list string) :
  forall (filled : list A),
  foldl (fun row '(i, key) => <[i := f key]> row)
        (filled ++ replicate (length rest) d)
        (imap (fun i key => (length filled + i, key)%nat) rest)
  = filled ++ map f rest.
Proof.
  induction rest as [| key rest IH]; intros filled; [done |].
  cbn [imap foldl length replicate map].
  rewrite Nat.add_0_r, insert_app_r_alt, Nat.sub_diag by lia.
  cbn [insert list_insert].
  rewrite (cons_middle (f key) filled (replicate _ _)).
  rewrite (cons_middle (f key) filled (map f rest)), !app_assoc.
  rewrite <- (IH (filled ++ [f key])). f_equal.
  apply imap_ext. intros i x _. cbn. rewrite length_app. cbn. f_equal. lia.
Qed.

Lemma build_row_cells r :
  build_row r = map (fun key => formatValue key (record_get r key)) csvHeaders.
Proof.
  unfold build_row.
  exact (fill_row_from (fun key => formatValue key (record_get r key)) ""
                       csvHeaders []).
Qed.

Lemma write_rows_all env n data :
  (forall k, write_err env k = None) ->
  write_rows env n data = (map build_row data, []).
Proof.
  intros Hok. revert n. induction data as [| r data IH]; intros n; [done |].
  cbn [write_rows map]. by rewrite IH, Hok.
Qed.

Lemma write_rows_sublist env n data :
  sublist (write_rows env n data).1 (map build_row data).
Proof.
  revert n. induction data as [| r data IH]; intros n; [done |].
  cbn [write_rows map]. specialize (IH (S n)).
  destruct (write_rows env (S n) data) as [rows log].
  destruct (write_err env n); cbn in *.
  - by apply sublist_cons.
  - by apply sublist_skip.
Qed.

Lemma save_nonempty env allData stdout :
  allData <> [] -> mkdirAll_err env = None -> create_err env = None ->
  write_err env 0 = None ->
  save env allData stdout =
    Outcome (stdout
             ++ ["Fetched " +:+ itoa (Z.of_nat (length allData))
                 +:+ " total records." +:+ nl]
             ++ (write_rows env 1 allData).2
             ++ ["✅ Data saved to data/Louisville_Metro_KY_-_Property_Foreclosures.csv"
                 +:+ nl])
            (Some "data")
            (Some ("data/Louisville_Metro_KY_-_Property_Foreclosures.csv",
                   csvHeaders :: (write_rows env 1 allData).1))
            None.
Proof.
  intros Hne Hm Hc Hw. unfold save. rewrite Hm, Hc, Hw.
  destruct allData as [| r data]; [done |].
  change (0 <? length (r :: data))%nat with true. cbv iota.
  destruct (write_rows env 1 (r :: data)) as [rows log]. cbn [fst snd].
  by rewrite <- !app_assoc.
Qed.




(** C9: with an empty dataset [main] touches neither directory nor file
    and prints the line that no data was retrieved; with records, and
    the file set up, it prints the number of records and ends on the
    line that names the path of the file it wrote. *)
Theorem save_empty_or_summary env stdout :
  save env [] stdout =
    Outcome (stdout ++ ["Fetched 0 total records." +:+ nl;
                        "⚠️ No data was retrieved from the API." +:+ nl])
            None None None /\
  (forall allData, allData <> [] -> mkdirAll_err env = None ->
     create_err env = None -> write_err env 0 = None ->
     exists rows log,
       save env allData stdout =
         Outcome (stdout
                  ++ ["Fetched " +:+ itoa (Z.of_nat (length allData))
                      +:+ " total records." +:+ nl]
                  ++ log
                  ++ ["✅ Data saved to data/Louisville_Metro_KY_-_Property_Foreclosures.csv"
                      +:+ nl])
                 (Some "data")
                 (Some ("data/Louisville_Metro_KY_-_Property_Foreclosures.csv",
                        csvHeaders :: rows))
                 None).
Proof.
  split.
  - unfold save. cbn [length Nat.ltb Nat.leb]. by rewrite <- app_assoc.
  - intros allData Hne Hm Hc Hw. rewrite save_nonempty by done. eauto.
Qed.

(** ** The worker pool *)

Ltac pool_fields :=
  cbn [p_main p_chan p_closed p_workers p_mu p_allData p_stdout p_sent
       p_fetched] in *.

Lemma lookup_split {A} (l : list A) i x :
  l !! i = Some x ->
  exists pre post, l = pre ++ x :: post /\
    forall y, <[i := y]> l = pre ++ y :: post.
Proof.
  intros H. exists (take i l), (drop (S i) l). split.
  - by rewrite take_drop_middle.
  - intros y. apply insert_take_drop. by eapply lookup_lt_Some.
Qed.

Lemma offsets_upto_succ i :
  0 <= i -> offsets_upto (i + 1) = offsets_upto i ++ [i * batchSize].
Proof.
  intros Hi. unfold offsets_upto.
  rewrite seqZ_app, fmap_app by lia. f_equal.
Qed.

Lemma offset_no_wrap i :
  0 <= i < maxBatches -> wrap_int64 (i * batchSize) = i * batchSize.
Proof.
  unfold maxBatches, batchSize, wrap_int64. intros Hi.
  rewrite Z.mod_small; lia.
Qed.

Lemma pool_init_inv n client : pool_inv n client (pool_init n).
Proof.
  split; cbn.
  - apply length_replicate.
  - lia.
  - unfold maxBatches. repeat split; lia.
  - intros [[=] _]%elem_of_replicate.
  - induction n; cbn; [done | by rewrite <- IHn].
  - induction n; cbn; [done | by rewrite <- IHn].
  - induction n; cbn; [done | by rewrite IHn].
  - apply Forall_replicate. exact I.
Qed.

Lemma main_step_inv n client s s' :
  pool_inv n client s -> main_step n s = Some s' -> pool_inv n client s'.
Proof.
  intros [Hw Hc Hm Hd Ho Hr Hmu Hwr]. unfold main_step.
  destruct s as [m ch cl wks mu ad out sent fet]; pool_fields.
  destruct m as [i |]; [| done]. destruct Hm as (Hi & Hcl & Hs).
  destruct (Z.ltb_spec i maxBatches) as [Hlt | Hge].
  - destruct (Nat.ltb_spec (length ch) n) as [Hroom | _]; [| done].
    intros [= <-]. rewrite offset_no_wrap by lia.
    split; pool_fields; try done.
    + rewrite length_app. cbn. lia.
    + repeat split; [lia .. | done |]. by rewrite offsets_upto_succ, Hs by lia.
    + intros Hin. destruct (Hd Hin). congruence.
    + rewrite Ho. solve_Permutation.
  - intros [= <-]. split; pool_fields; try done.
    + split; [done |]. unfold all_offsets. by replace maxBatches with i by lia.
    + intros Hin. destruct (Hd Hin). congruence.
Qed.

Lemma not_critical_reads_current (ad : list record) (l : list wstate) :
  sum_list_with in_critical l = 0%nat -> Forall (reads_current ad) l.
Proof.
  induction l as [| ws l IH]; cbn; [constructor |].
  intros H. constructor; [| apply IH; lia].
  destruct ws; cbn in *; (exact I || lia).
Qed.

Ltac inv_norm :=
  repeat first
    [ progress rewrite ?bind_app, ?bind_cons, ?sum_list_with_app, ?length_app,
        ?Forall_app, ?Forall_cons, ?elem_of_app, ?elem_of_cons in *
    | progress cbn [sum_list_with length held_offset held_records in_critical
                    reads_current app] in * ].

Lemma worker_step_inv n client w s s' :
  pool_inv n client s -> worker_step client w s = Some s' ->
  pool_inv n client s'.
Proof.
  intros [Hw Hc Hm Hd Ho Hr Hmu Hwr]. unfold worker_step, set_worker.
  destruct s as [m ch cl wks mu ad out sent fet]; pool_fields.
  destruct (wks !! w) as [ws |] eqn:Hlk; [| done].
  destruct (lookup_split _ _ _ Hlk) as (pre & post & -> & Hins).
  clear Hlk. inv_norm. destruct Hwr as (Hpre & Hws & Hpost).
  destruct ws as [| o | recs | recs | old recs | |]; inv_norm.
  - (* receive, or leave when the channel is closed and empty *)
    destruct ch as [| o rest].
    + destruct cl; [| done]. intros [= <-]. rewrite Hins.
      split; pool_fields; inv_norm; try done.
    + intros [= <-]. rewrite Hins.
      split; pool_fields; inv_norm; try done.
      * lia.
      * intros [Hin | [[=] | Hin]]; [destruct Hd as [_ [=]]; auto ..].
      * rewrite Ho. solve_Permutation.
  - (* fetchBatch *)
    destruct (fetchBatch o client) as [records err] eqn:Hf.
    intros [= <-]. rewrite Hins.
    assert (page client o = records /\ err = None /\ records <> []
            \/ page client o = [] /\
               match err with
               | Some _ => WRecv
               | None => if (length records =? 0)%nat then WRecv
                         else WLock records
               end = WRecv) as Hpage.
    { unfold page. rewrite Hf. destruct err; [by right |].
      destruct records; [by right | by left]. }
    destruct Hpage as [(Hp & -> & Hne) | (Hp & ->)].
    + destruct records as [| r records]; [done |].
      change (length (r :: records) =? 0)%nat with false. cbv iota.
      split; pool_fields; inv_norm; try done.
      * intros [Hin | [[=] | Hin]]; auto.
      * rewrite Ho. solve_Permutation.
      * rewrite Hp, Hr. solve_Permutation.
    + split; pool_fields; inv_norm; try done.
      * intros [Hin | [[=] | Hin]]; auto.
      * rewrite Ho. solve_Permutation.
      * rewrite Hp, Hr. solve_Permutation.
  - (* mu.Lock() *)
    destruct mu; [done |]. intros [= <-]. rewrite Hins.
    split; pool_fields; inv_norm; try done.
    + intros [Hin | [[=] | Hin]]; auto.
    + lia.
  - (* read allData *)
    intros [= <-]. rewrite Hins.
    split; pool_fields; inv_norm; try done.
    intros [Hin | [[=] | Hin]]; auto.
  - (* assign allData *)
    intros [= <-]. rewrite Hins. subst old.
    assert (sum_list_with in_critical pre = 0 /\
            sum_list_with in_critical post = 0)%nat as [Hcp Hcq]
      by (destruct mu; lia).
    split; pool_fields; inv_norm; try done.
    + intros [Hin | [[=] | Hin]]; auto.
    + rewrite Hr. solve_Permutation.
    + by auto using not_critical_reads_current.
  - (* mu.Unlock() *)
    intros [= <-]. rewrite Hins.
    split; pool_fields; inv_norm; try done.
    + intros [Hin | [[=] | Hin]]; auto.
    + destruct mu; lia.
  - done.
Qed.

Lemma step_inv n client s s' :
  pool_inv n client s -> step n client s s' -> pool_inv n client s'.
Proof.
  intros Hinv [[w |] Hstep]; cbn in Hstep.
  - by eapply worker_step_inv.
  - by eapply main_step_inv.
Qed.

Lemma reachable_inv n client s :
  rtc (step n client) (pool_init n) s -> pool_inv n client s.
Proof.
  revert s. apply rtc_ind_r.
  - apply pool_init_inv.
  - intros s s' _ Hstep IH. by eapply step_inv.
Qed.

Lemma pool_done_workers s :
  pool_done s = true ->
  p_main s = MWait /\ Forall (fun ws => ws = WDone) (p_workers s).
Proof.
  unfold pool_done. destruct (p_main s); [done |]. intros H. split; [done |].
  rewrite List.forallb_forall in H.
  apply Forall_forall. intros ws Hin%list_elem_of_In. specialize (H ws Hin).
  by destruct ws.
Qed.

Lemma all_done_holds_nothing (l : list wstate) :
  Forall (fun ws => ws = WDone) l ->
  l ≫= held_offset = [] /\ l ≫= held_records = [].
Proof.
  induction 1 as [| ws l -> _ [IH1 IH2]]; [done |].
  by rewrite !bind_cons, IH1, IH2.
Qed.

Lemma pool_done_final n client s :
  pool_inv n client s -> pool_done s = true ->
  p_sent s = all_offsets /\ p_chan s = [] /\
  p_fetched s ≡ₚ all_offsets /\
  p_allData s ≡ₚ p_fetched s ≫= page client.
Proof.
  intros [Hw Hc Hm Hd Ho Hr Hmu Hwr] [Hmain Hall]%pool_done_workers.
  rewrite Hmain in Hm. destruct Hm as [Hcl Hs].
  destruct (all_done_holds_nothing _ Hall) as [Hho Hhr].
  assert (p_chan s = []) as Hch.
  { destruct (p_workers s) as [| ws wks] eqn:Hwks.
    - cbn in Hw. subst n. destruct (p_chan s); [done | cbn in Hc; lia].
    - apply Hd. inversion Hall; subst. left. }
  rewrite Hho, Hch, Hs in Ho. rewrite Hhr in Hr.
  rewrite !app_nil_r in Ho, Hr. by repeat split.
Qed.

(** *** Every step lowers [steps_left] *)

Lemma main_step_lowers n s s' :
  main_step n s = Some s' -> (steps_left s' < steps_left s)%nat.
Proof.
  unfold main_step, steps_left.
  destruct s as [m ch cl wks mu ad out sent fet]; pool_fields.
  destruct m as [i |]; [| done].
  destruct (Z.ltb_spec i maxBatches) as [Hlt | Hge].
  - destruct (length ch <? n)%nat; [| done]. intros [= <-]. pool_fields.
    rewrite length_app. cbn [length]. lia.
  - intros [= <-]. pool_fields. lia.
Qed.

Lemma worker_step_lowers client w s s' :
  worker_step client w s = Some s' -> (steps_left s' < steps_left s)%nat.
Proof.
  unfold worker_step, set_worker, steps_left.
  destruct s as [m ch cl wks mu ad out sent fet]; pool_fields.
  destruct (wks !! w) as [ws |] eqn:Hlk; [| done].
  destruct (lookup_split _ _ _ Hlk) as (pre & post & -> & Hins). clear Hlk.
  destruct ws as [| o | recs | recs | old recs | |].
  - destruct ch as [| o rest]; [destruct cl; [| done] |];
      intros [= <-]; pool_fields; rewrite Hins, !sum_list_with_app; cbn; lia.
  - destruct (fetchBatch o client) as [records err].
    intros [= <-]. pool_fields. rewrite Hins, !sum_list_with_app.
    destruct err; [cbn; lia |].
    destruct (length records =? 0)%nat; cbn; lia.
  - destruct mu; [done |].
    intros [= <-]. pool_fields. rewrite Hins, !sum_list_with_app. cbn. lia.
  - intros [= <-]. pool_fields. rewrite Hins, !sum_list_with_app. cbn. lia.
  - intros [= <-]. pool_fields. rewrite Hins, !sum_list_with_app. cbn. lia.
  - intros [= <-]. pool_fields. rewrite Hins, !sum_list_with_app. cbn. lia.
  - done.
Qed.

Lemma step_lowers n client s s' :
  step n client s s' -> (steps_left s' < steps_left s)%nat.
Proof.
  intros [[w |] Hstep]; cbn in Hstep.
  - by eapply worker_step_lowers.
  - by eapply main_step_lowers.
Qed.

(** *** The pool cannot get stuck before [wg.Wait()] returns *)

Lemma worker_blocked client w s ws :
  p_workers s !! w = Some ws -> worker_step client w s = None ->
  (ws = WRecv /\ p_chan s = [] /\ p_closed s = false)
  \/ (exists records, ws = WLock records /\ p_mu s = true)
  \/ ws = WDone.
Proof.
  unfold worker_step. intros ->.
  destruct ws as [| o | recs | recs | old recs | |]; try done; auto.
  - destruct (p_chan s); [| done]. destruct (p_closed s); [done | auto].
  - by destruct (fetchBatch o client).
  - destruct (p_mu s); [eauto | done].
Qed.

Lemma first_step_Some n client ws s s' :
  first_step n client ws s = Some s' -> step n client s s'.
Proof.
  induction ws as [| w ws IH]; cbn.
  - intros H. by exists None.
  - destruct (worker_step client w s) eqn:Hw; [| done].
    intros [= <-]. by exists (Some w).
Qed.

Lemma first_step_None n client ws s :
  first_step n client ws s = None ->
  main_step n s = None /\ Forall (fun w => worker_step client w s = None) ws.
Proof.
  induction ws as [| w ws IH]; cbn; [by auto |].
  destruct (worker_step client w s) eqn:Hw; [done |].
  intros [H1 H2]%IH. auto.
Qed.

Lemma blocked_not_critical (mu : bool) (l : list wstate) :
  Forall (fun ws => (exists records, ws = WLock records /\ mu = true)
                    \/ ws = WDone) l ->
  sum_list_with in_critical l = 0%nat.
Proof.
  induction 1 as [| ws l [(r & -> & _) | ->] _ IH]; cbn; [done | lia ..].
Qed.

Lemma stuck_is_done n client s :
  (0 < n)%nat -> pool_inv n client s ->
  first_step n client (seq 0 n) s = None -> pool_done s = true.
Proof.
  intros Hn [Hw Hc Hm Hd Ho Hr Hmu Hwr] [Hmain Hws]%first_step_None.
  assert (Forall (fun ws =>
            (ws = WRecv /\ p_chan s = [] /\ p_closed s = false)
            \/ (exists records, ws = WLock records /\ p_mu s = true)
            \/ ws = WDone) (p_workers s)) as Hbl.
  { apply Forall_lookup. intros w ws Hlk.
    apply (worker_blocked client w); [done |].
    rewrite Forall_forall in Hws. apply Hws, elem_of_seq.
    apply lookup_lt_Some in Hlk. lia. }
  assert (p_chan s = [] \/ p_closed s = true ->
          Forall (fun ws => (exists records, ws = WLock records /\ p_mu s = true)
                            \/ ws = WDone) (p_workers s) ->
          pool_done s = true) as Hfin.
  { intros Hor Hall. pose proof (blocked_not_critical _ _ Hall) as Hz.
    rewrite Hz in Hmu. unfold pool_done.
    assert (Forall (fun ws => ws = WDone) (p_workers s)) as Hdone.
    { eapply Forall_impl; [exact Hall |]. intros ws [(r & _ & Ht) | ->]; [| done].
      rewrite Ht in Hmu. done. }
    destruct (p_workers s) as [| ws wks] eqn:Hwks; [cbn in Hw; lia |].
    inversion Hdone as [| ? ? -> Hrest]; subst.
    destruct (Hd ltac:(left)) as [Hcl Hch].
    unfold main_step in Hmain. destruct (p_main s) as [i |].
    - destruct Hm as (_ & Hcl' & _). congruence.
    - apply forallb_forall. intros x Hx%list_elem_of_In.
      rewrite Forall_forall in Hdone. by rewrite (Hdone x Hx). }
  unfold main_step in Hmain. destruct (p_main s) as [i |] eqn:Hpm.
  - destruct (i <? maxBatches); [| done].
    destruct (Nat.ltb_spec (length (p_chan s)) n) as [| Hfull]; [done |].
    assert (p_chan s <> []) as Hne by (destruct (p_chan s); [cbn in Hfull; lia | done]).
    exfalso.
    assert (Forall (fun ws => (exists records, ws = WLock records /\ p_mu s = true)
                              \/ ws = WDone) (p_workers s)) as Hall.
    { eapply Forall_impl; [exact Hbl |]. intros ws [(_ & Hch & _) | H]; [done | done]. }
    pose proof (blocked_not_critical _ _ Hall) as Hz. rewrite Hz in Hmu.
    destruct (p_workers s) as [| ws wks] eqn:Hwks; [cbn in Hw; lia |].
    inversion Hall as [| ? ? [(r & _ & Ht) | ->] _]; subst.
    + by rewrite Ht in Hmu.
    + by destruct (Hd ltac:(left)).
  - destruct Hm as [Hcl _]. apply Hfin; [by right |].
    eapply Forall_impl; [exact Hbl |]. intros ws [(_ & _ & Hcl') | H]; [congruence | done].
Qed.

(** No deadlock: with at least one worker, some goroutine can move
    until [wg.Wait()] returns. *)
Lemma pool_progress n client s :
  (0 < n)%nat -> rtc (step n client) (pool_init n) s -> pool_done s = false ->
  exists s', step n client s s'.
Proof.
  intros Hn Hreach Hnd.
  destruct (first_step n client (seq 0 n) s) as [s' |] eqn:Hfs.
  - exists s'. by eapply first_step_Some.
  - apply stuck_is_done in Hfs; [congruence | done | by apply reachable_inv].
Qed.

Lemma run_reachable n client fuel s : rtc (step n client) s (run n client fuel s).
Proof.
  revert s. induction fuel as [| fuel IH]; intros s; cbn; [done |].
  destruct (first_step n client (seq 0 n) s) as [s' |] eqn:Hfs; [| done].
  eapply rtc_l; [by eapply first_step_Some | apply IH].
Qed.

(** The scheduler [run] reaches the return of [wg.Wait()] within
    [steps_left] steps. *)
Lemma run_done n client fuel s :
  (0 < n)%nat -> pool_inv n client s -> (steps_left s <= fuel)%nat ->
  pool_done (run n client fuel s) = true.
Proof.
  intros Hn. revert s. induction fuel as [| fuel IH]; intros s Hinv Hfuel; cbn.
  - destruct (first_step n client (seq 0 n) s) as [s' |] eqn:Hfs.
    + apply first_step_Some, step_lowers in Hfs. lia.
    + by eapply stuck_is_done.
  - destruct (first_step n client (seq 0 n) s) as [s' |] eqn:Hfs.
    + pose proof (first_step_Some _ _ _ _ _ Hfs) as Hstep.
      apply IH; [by eapply step_inv |].
      apply step_lowers in Hstep. lia.
    + by eapply stuck_is_done.
Qed.

(** C3: whatever the pages hold, the main goroutine sends the offsets
    0, 1000, 2000, ... in this order and never more than the 300 of
    [maxBatches]; a call of [fetchBatch], whatever it returns, leaves
    the channel and the feeding loop as they are; and when [wg.Wait()]
    returns all 300 offsets were sent and each was fetched once.  Every
    step lowers [steps_left], and with at least one worker the pool is
    never stuck before that, so the end is always reached. *)
Theorem coordinator_sends_every_offset n client s :
  rtc (step n client) (pool_init n) s ->
  (exists i, 0 <= i <= maxBatches /\
     p_sent s = (fun j => j * batchSize) <$> seqZ 0 i) /\
  (length (p_sent s) <= Z.to_nat maxBatches)%nat /\
  (forall w o s', p_workers s !! w = Some (WFetch o) ->
     worker_step client w s = Some s' ->
     p_main s' = p_main s /\ p_chan s' = p_chan s /\
     p_closed s' = p_closed s /\ p_sent s' = p_sent s) /\
  (pool_done s = true ->
     p_sent s = (fun j => j * batchSize) <$> seqZ 0 maxBatches /\
     p_fetched s ≡ₚ p_sent s /\ NoDup (p_fetched s)) /\
  (forall s', step n client s s' -> (steps_left s' < steps_left s)%nat) /\
  ((0 < n)%nat -> pool_done s = false -> exists s', step n client s s').
Proof.
  intros Hreach. pose proof (reachable_inv _ _ _ Hreach) as Hinv.
  assert (exists i, 0 <= i <= maxBatches /\ p_sent s = offsets_upto i) as Hsent.
  { destruct Hinv as [_ _ Hm _ _ _ _ _]. destruct (p_main s) as [i |].
    - exists i. tauto.
    - exists maxBatches. split; [unfold maxBatches; lia | tauto]. }
  split; [exact Hsent |]. split; [| split; [| split; [| split]]].
  - destruct Hsent as (i & Hi & ->). unfold offsets_upto.
    rewrite length_fmap, length_seqZ. lia.
  - intros w o s' Hw Hstep. unfold worker_step in Hstep. rewrite Hw in Hstep.
    destruct (fetchBatch o client). by injection Hstep as <-.
  - intros Hdone.
    destruct (pool_done_final _ _ _ Hinv Hdone) as (Hs & _ & Hf & _).
    rewrite Hs. split; [done |]. split; [done |]. rewrite Hf.
    unfold all_offsets, offsets_upto. apply NoDup_fmap_2, NoDup_seqZ.
    intros a b. unfold batchSize. lia.
  - intros s'. apply step_lowers.
  - intros Hn Hnd. by eapply pool_progress.
Qed.

Lemma length_bind_sum {A B} (f : A -> list B) (l : list A) :
  length (l ≫= f) = sum_list_with (fun x => length (f x)) l.
Proof.
  induction l as [| x l IH]; [done |].
  by rewrite bind_cons, length_app, IH.
Qed.

Lemma sum_full_pages {A} (f : A -> nat) (size : nat) (l : list A) :
  Forall (fun x => f x = 0%nat \/ f x = size) l ->
  sum_list_with f l = (length (filter (fun x => (0 < f x)%nat) l) * size)%nat.
Proof.
  induction 1 as [| x l Hx _ IH]; [done |].
  cbn [sum_list_with]. rewrite filter_cons, IH.
  destruct (decide (0 < f x)%nat); cbn [length]; lia.
Qed.

(** C7, as the code has it: for every number of workers and every
    interleaving, when [wg.Wait()] returns the dataset holds the records
    of the pages fetched without error, each record once (a permutation
    of the pages laid end to end), so its length is the sum of the page
    lengths; when every page that holds records holds [batchSize] of
    them, this is the number of such pages times [batchSize]. *)
Theorem pool_keeps_every_record n client s :
  rtc (step n client) (pool_init n) s -> pool_done s = true ->
  p_allData s ≡ₚ all_offsets ≫= page client /\
  length (p_allData s)
    = sum_list_with (fun o => length (page client o)) all_offsets /\
  (Forall (fun o => length (page client o) = 0%nat
                    \/ length (page client o) = Z.to_nat batchSize)
          all_offsets ->
   length (p_allData s) = (nonempty_pages client * Z.to_nat batchSize)%nat).
Proof.
  intros Hreach Hdone. pose proof (reachable_inv _ _ _ Hreach) as Hinv.
  destruct (pool_done_final _ _ _ Hinv Hdone) as (_ & _ & Hf & Had).
  assert (p_allData s ≡ₚ all_offsets ≫= page client) as Hperm
    by (by rewrite Had, Hf).
  assert (length (p_allData s)
          = sum_list_with (fun o => length (page client o)) all_offsets) as Hlen
    by (by rewrite Hperm, length_bind_sum).
  repeat split; [done .. |].
  intros Hfull. rewrite Hlen. by apply sum_full_pages.
Qed.
(** ** The whole program *)

(** With at least one worker [main] ends, whatever the service and
    the operating system answer. *)
Lemma main_run_exists n client env :
  (0 < n)%nat -> exists o, main_run n client env o.
Proof.
  intros Hn.
  exists (save env (p_allData (run n client (steps_left (pool_init n)) (pool_init n)))
                   (p_stdout (run n client (steps_left (pool_init n)) (pool_init n)))).
  eexists. split; [apply run_reachable |]. split; [| reflexivity].
  apply run_done; [done | apply pool_init_inv | done].
Qed.

(** * Further properties *)

#[local] Set Default Proof Using "Type".

(** Arithmetic with quotients and remainders; the parameters of the
    program play no part in it. *)
Ltac zdiv :=
  try clear json_Decode; try clear int64_unrepresentable;
  Z.div_mod_to_equations; lia.

Ltac zquot :=
  try clear json_Decode; try clear int64_unrepresentable;
  Z.to_euclidean_division_equations; lia.

(** ** Texts *)

Lemma string_app_cons c (s t : string) : String c s +:+ t = String c (s +:+ t).
Proof. reflexivity. Qed.

Lemma string_app_nil_l (t : string) : "" +:+ t = t.
Proof. reflexivity. Qed.

Lemma string_app_assoc (s t u : string) : (s +:+ t) +:+ u = s +:+ (t +:+ u).
Proof.
  induction s as [| c s IH]; rewrite ?string_app_nil_l, ?string_app_cons;
    cbn [String.length list_ascii_of_string app plus]; [done | by rewrite IH].
Qed.

Lemma string_app_nil_r (s : string) : s +:+ "" = s.
Proof.
  induction s as [| c s IH]; rewrite ?string_app_nil_l, ?string_app_cons;
    cbn [String.length list_ascii_of_string app plus]; [done | by rewrite IH].
Qed.

Lemma string_length_app (s t : string) :
  String.length (s +:+ t) = (String.length s + String.length t)%nat.
Proof.
  induction s as [| c s IH]; rewrite ?string_app_nil_l, ?string_app_cons;
    cbn [String.length list_ascii_of_string app plus]; [done | by rewrite IH].
Qed.

Lemma list_ascii_app (s t : string) :
  list_ascii_of_string (s +:+ t) = list_ascii_of_string s ++ list_ascii_of_string t.
Proof.
  induction s as [| c s IH]; rewrite ?string_app_nil_l, ?string_app_cons;
    cbn [String.length list_ascii_of_string app plus]; [done | by rewrite IH].
Qed.

Lemma string_app_inj (s1 s2 t1 t2 : string) :
  String.length s1 = String.length s2 -> s1 +:+ t1 = s2 +:+ t2 ->
  s1 = s2 /\ t1 = t2.
Proof.
  revert s2. induction s1 as [| c s1 IH]; intros [| c2 s2];
    rewrite ?string_app_nil_l, ?string_app_cons; cbn [String.length]; try done.
  intros [= Hl] [= -> H]. by destruct (IH _ Hl H) as [-> ->].
Qed.

Lemma string_app_inj_r (s1 s2 t : string) : s1 +:+ t = s2 +:+ t -> s1 = s2.
Proof.
  intros H. apply string_app_inj in H; [by destruct H |].
  apply (f_equal String.length) in H. rewrite !string_length_app in H. lia.
Qed.

Lemma all_digits_app (s t : string) :
  all_digits (s +:+ t) <-> all_digits s /\ all_digits t.
Proof.
  unfold all_digits. by rewrite list_ascii_app, Forall_app. Qed.

(** ** Decimal digits, in general *)

Lemma digits_aux_acc fuel n acc :
  digits_aux fuel n acc = digits_aux fuel n "" +:+ acc.
Proof.
  revert n acc. induction fuel as [| fuel IH]; intros n acc; [done |].
  rewrite !digits_aux_S. destruct (n <? 10); [done |].
  rewrite (IH _ (String _ acc)), (IH _ (String _ "")).
  by rewrite string_app_assoc.
Qed.

Lemma digits_aux_fuel fuel n acc :
  0 <= n < 2 ^ Z.of_nat fuel -> (1 <= fuel)%nat ->
  digits_aux (S fuel) n acc = digits_aux fuel n acc.
Proof.
  revert n acc. induction fuel as [| fuel IH]; intros n acc Hn Hf; [lia |].
  rewrite (digits_aux_S (S fuel) n acc), (digits_aux_S fuel n acc).
  destruct (Z.ltb_spec n 10) as [| Hge]; [done |].
  rewrite Nat2Z.inj_succ, Z.pow_succ_r in Hn by lia.
  destruct fuel as [| fuel]; [cbn in Hn; lia |].
  apply IH; [| lia]. zdiv.
Qed.

Lemma digits_aux_more fuel k n acc :
  0 <= n < 2 ^ Z.of_nat fuel -> (1 <= fuel)%nat ->
  digits_aux (fuel + k) n acc = digits_aux fuel n acc.
Proof.
  intros Hn Hf. induction k as [| k IH]; [by rewrite Nat.add_0_r |].
  rewrite Nat.add_succ_r, digits_aux_fuel; [done | | lia].
  split; [lia |]. eapply Z.lt_le_trans; [apply Hn |].
  apply Z.pow_le_mono_r; lia.
Qed.

Lemma digits_aux_enough f1 f2 n acc :
  0 <= n -> n < 2 ^ Z.of_nat f1 -> n < 2 ^ Z.of_nat f2 ->
  (1 <= f1)%nat -> (1 <= f2)%nat ->
  digits_aux f1 n acc = digits_aux f2 n acc.
Proof.
  intros H0 H1 H2 Hf1 Hf2. destruct (Nat.le_ge_cases f1 f2) as [Hle | Hle].
  - replace f2 with (f1 + (f2 - f1))%nat by lia. by rewrite digits_aux_more.
  - replace f1 with (f2 + (f1 - f2))%nat by lia. by rewrite digits_aux_more.
Qed.

Lemma utoa_small n : 0 <= n < 10 -> utoa n = String (digit_char n) "".
Proof.
  intros H. rewrite utoa_unfold, digits_aux_S.
  destruct (Z.ltb_spec n 10); [| lia]. by rewrite Z.mod_small.
Qed.

Lemma utoa_step n :
  10 <= n -> utoa n = utoa (n / 10) +:+ String (digit_char (n mod 10)) "".
Proof.
  intros H. rewrite (utoa_unfold n), digits_aux_S.
  destruct (Z.ltb_spec n 10); [lia |].
  rewrite digits_aux_acc. f_equal. rewrite utoa_unfold.
  assert (0 < n / 10) as Hq by zdiv.
  pose proof (Z.log2_spec n ltac:(lia)) as [Hl Hu].
  pose proof (Z.log2_spec (n / 10) Hq) as [Hl' Hu'].
  pose proof (Z.log2_nonneg n). pose proof (Z.log2_nonneg (n / 10)).
  assert (1 <= Z.log2 n).
  { destruct (Z.eq_dec (Z.log2 n) 0) as [E |]; [| lia].
    rewrite E in Hu. cbn in Hu. lia. }
  apply digits_aux_enough; [lia | | | lia | lia].
  - rewrite Z2Nat.id by lia.
    rewrite <- Z.add_1_r, Z.pow_add_r, Z.pow_1_r in Hu by lia. zdiv.
  - rewrite Nat2Z.inj_succ, Z2Nat.id by lia. exact Hu'.
Qed.

Lemma zeros_snoc k : zeros (S k) = zeros k +:+ "0".
Proof.
  induction k as [| k IH]; [done |]. cbn [zeros] in *. by rewrite IH at 1. Qed.

Lemma zeros_length k : String.length (zeros k) = k.
Proof.
  induction k as [| k IH]; cbn; [done | by rewrite IH]. Qed.

Lemma utoa_times_pow10 q k :
  1 <= q -> utoa (q * 10 ^ Z.of_nat k) = utoa q +:+ zeros k.
Proof.
  intros Hq. induction k as [| k IH].
  - by rewrite Z.mul_1_r, string_app_nil_r.
  - rewrite Nat2Z.inj_succ, Z.pow_succ_r by lia.
    assert (0 < 10 ^ Z.of_nat k) by (apply Z.pow_pos_nonneg; lia).
    rewrite utoa_step by nia.
    replace (q * (10 * 10 ^ Z.of_nat k)) with (q * 10 ^ Z.of_nat k * 10) by lia.
    rewrite Z.div_mul, Z.mod_mul, IH by lia.
    by rewrite zeros_snoc, string_app_assoc.
Qed.

(** The number of digits. *)
Lemma utoa_length n :
  0 <= n ->
  (1 <= String.length (utoa n))%nat /\
  n < 10 ^ Z.of_nat (String.length (utoa n)) /\
  (1 <= n -> 10 ^ (Z.of_nat (String.length (utoa n)) - 1) <= n).
Proof.
  revert n. apply (Zlt_0_ind
    (fun n => (1 <= String.length (utoa n))%nat /\
              n < 10 ^ Z.of_nat (String.length (utoa n)) /\
              (1 <= n -> 10 ^ (Z.of_nat (String.length (utoa n)) - 1) <= n))).
  intros n IH Hn. destruct (Z_lt_le_dec n 10) as [Hlt | Hge].
  - rewrite utoa_small by lia. cbn. lia.
  - rewrite utoa_step, string_length_app by lia. cbn [String.length].
    destruct (IH (n / 10)) as (H1 & H2 & H3); [zdiv |].
    set (L := String.length (utoa (n / 10))) in *.
    replace (Z.of_nat (L + 1)) with (Z.succ (Z.of_nat L)) by lia.
    rewrite Z.pow_succ_r by lia.
    replace (Z.succ (Z.of_nat L) - 1) with (Z.succ (Z.of_nat L - 1)) by lia.
    rewrite Z.pow_succ_r by lia.
    specialize (H3 ltac:(zdiv)).
    split; [lia |]. split; [zdiv |]. intros _. zdiv.
Qed.

Lemma utoa_length_eq n L :
  1 <= L -> 10 ^ (L - 1) <= n < 10 ^ L -> Z.of_nat (String.length (utoa n)) = L.
Proof.
  intros HL Hn.
  assert (0 < 10 ^ (L - 1)) by (apply Z.pow_pos_nonneg; lia).
  destruct (utoa_length n) as (H1 & H2 & H3); [lia |].
  specialize (H3 ltac:(lia)).
  set (K := Z.of_nat (String.length (utoa n))) in *.
  assert (1 <= K) by lia.
  destruct (Z.lt_trichotomy K L) as [Hlt | [-> | Hgt]]; [| done |]; exfalso.
  - assert (10 ^ K <= 10 ^ (L - 1)) by (apply Z.pow_le_mono_r; lia). lia.
  - assert (10 ^ L <= 10 ^ (K - 1)) by (apply Z.pow_le_mono_r; lia). lia.
Qed.

Lemma digit_char_not_zero d : 1 <= d <= 9 -> digit_char d <> "0"%char.
Proof.
  intros H.
  assert (d = 1 \/ d = 2 \/ d = 3 \/ d = 4 \/ d = 5 \/ d = 6 \/ d = 7 \/ d = 8
          \/ d = 9) as Hc by lia.
  repeat (destruct Hc as [-> | Hc]; [done |]). by subst d.
Qed.

Lemma utoa_last n :
  0 <= n -> exists s, utoa n = s +:+ String (digit_char (n mod 10)) "".
Proof.
  intros Hn. destruct (Z_lt_le_dec n 10).
  - exists "". rewrite utoa_small, Z.mod_small by lia. done.
  - exists (utoa (n / 10)). by apply utoa_step.
Qed.

(** ** Trailing zeros *)

Lemma trim_zeros_snoc_zero s : trim_zeros (s +:+ "0") = trim_zeros s.
Proof.
  unfold trim_zeros. by rewrite list_ascii_app, rev_app_distr. Qed.

Lemma trim_zeros_zeros s k : trim_zeros (s +:+ zeros k) = trim_zeros s.
Proof.
  induction k as [| k IH]; [by rewrite string_app_nil_r |].
  by rewrite zeros_snoc, <- string_app_assoc, trim_zeros_snoc_zero.
Qed.

Lemma strip_zeros_rev_keeps c l :
  c <> "0"%char -> strip_zeros_rev (c :: l) = c :: l.
Proof.
  intros Hc. destruct c as [[] [] [] [] [] [] [] []]; try reflexivity.
  by destruct Hc.
Qed.

Lemma trim_zeros_keeps s c :
  c <> "0"%char -> trim_zeros (s +:+ String c "") = s +:+ String c "".
Proof.
  intros Hc. unfold trim_zeros.
  rewrite list_ascii_app, rev_app_distr.
  change (rev (list_ascii_of_string (String c ""))) with [c]. cbn [app].
  rewrite strip_zeros_rev_keeps by done. cbn [rev]. rewrite rev_involutive.
  change [c] with (list_ascii_of_string (String c "")).
  rewrite <- list_ascii_app. apply string_of_list_ascii_of_string.
Qed.

(** A whole number is a number that does not end in zero, times a power
    of ten; its digits are those of that number, then the zeros. *)
Lemma whole_decimal n :
  1 <= n ->
  exists q j, n = q * 10 ^ Z.of_nat j /\ 1 <= q /\ q mod 10 <> 0 /\
    utoa n = utoa q +:+ zeros j /\ trim_zeros (utoa n) = utoa q.
Proof.
  intros Hn. assert (0 <= n) as H0 by lia. revert n H0 Hn.
  apply (Zlt_0_ind
    (fun n => 1 <= n ->
       exists q j, n = q * 10 ^ Z.of_nat j /\ 1 <= q /\ q mod 10 <> 0 /\
         utoa n = utoa q +:+ zeros j /\ trim_zeros (utoa n) = utoa q)).
  intros n IH _ Hn. destruct (Z.eq_dec (n mod 10) 0) as [Hz | Hnz].
  - destruct (IH (n / 10)) as (q & j & Hq & Hq1 & Hq10 & Hu & Ht); [zdiv .. |].
    exists q, (S j).
    assert (n = q * 10 ^ Z.of_nat (S j)) as Heq.
    { rewrite Nat2Z.inj_succ, Z.pow_succ_r by lia. zdiv. }
    split; [exact Heq |]. split; [done |]. split; [done |].
    rewrite Heq, utoa_times_pow10 by done.
    split; [done |]. rewrite trim_zeros_zeros.
    destruct (utoa_last q ltac:(lia)) as [s ->].
    apply trim_zeros_keeps, digit_char_not_zero. zdiv.
  - exists n, O. rewrite Z.mul_1_r, string_app_nil_r.
    split; [done |]. split; [done |]. split; [done |]. split; [done |].
    destruct (utoa_last n ltac:(lia)) as [s ->].
    apply trim_zeros_keeps, digit_char_not_zero. zdiv.
Qed.
(** ** Whole numbers under the verb v *)

Lemma find_dp_whole n den L fuel p :
  1 <= n -> 0 < den -> 1 <= L -> 10 ^ (L - 1) <= n < 10 ^ L ->
  p <= L -> (Z.to_nat (L - p) < fuel)%nat ->
  find_dp (n * den) den fuel p = L.
Proof.
  intros Hn Hden HL Hrange. revert p.
  induction fuel as [| fuel IH]; intros p Hp Hfuel; [lia |].
  cbn [find_dp].
  destruct (Z.eq_dec p L) as [-> | Hne].
  - rewrite (Z.max_l 0 (- L)), (Z.max_r 0 L), Z.pow_0_r by lia.
    destruct (Z.ltb_spec (n * den * 1) (den * 10 ^ L)); [done | nia].
  - assert ((n * den * 10 ^ Z.max 0 (- p) <? den * 10 ^ Z.max 0 p) = false) as ->.
    { apply Z.ltb_ge. destruct (Z_le_gt_dec p 0).
      - rewrite (Z.max_r 0 (- p)), (Z.max_l 0 p), Z.pow_0_r by lia.
        assert (0 < 10 ^ (- p)) by (apply Z.pow_pos_nonneg; lia).
        assert (1 <= n * 10 ^ (- p)) by nia. nia.
      - rewrite (Z.max_l 0 (- p)), (Z.max_r 0 p), Z.pow_0_r by lia.
        assert (10 ^ p <= 10 ^ (L - 1)) by (apply Z.pow_le_mono_r; lia). nia. }
    apply IH; lia.
Qed.

Lemma round_to_whole n den delta incl dp k :
  1 <= n -> 4 <= den -> 1 <= delta <= 2 -> 0 <= k <= dp ->
  round_to (n * den) (n * den - delta) (n * den + 2) den incl dp k
  = if n mod 10 ^ (dp - k) =? 0 then Some (n / 10 ^ (dp - k)) else None.
Proof.
  intros Hn Hden Hdelta Hk. unfold round_to.
  rewrite (Z.max_l 0 (k - dp)), (Z.max_r 0 (dp - k)), Z.pow_0_r, !Z.mul_1_r by lia.
  set (P := 10 ^ (dp - k)).
  assert (0 < P) as HP by (apply Z.pow_pos_nonneg; lia).
  assert (n * den / (den * P) = n / P) as ->.
  { rewrite (Z.mul_comm n den). apply Z.div_mul_cancel_l; lia. }
  pose proof (Z.div_mod n P ltac:(lia)) as Hdm.
  pose proof (Z.mod_pos_bound n P HP) as Hmod.
  set (q := n / P) in *. set (r := n mod P) in *.
  assert (((q + 1) * (den * P) <? n * den + 2) = false) as ->
    by (apply Z.ltb_ge; nia).
  assert (((q + 1) * (den * P) =? n * den + 2) = false) as ->
    by (apply Z.eqb_neq; nia).
  rewrite andb_false_r. cbn [orb].
  destruct (Z.eqb_spec r 0) as [Hr | Hr].
  - assert ((n * den - delta <? q * (den * P)) = true) as ->
      by (apply Z.ltb_lt; nia).
    reflexivity.
  - assert ((n * den - delta <? q * (den * P)) = false) as ->
      by (apply Z.ltb_ge; nia).
    assert ((n * den - delta =? q * (den * P)) = false) as ->
      by (apply Z.eqb_neq; nia).
    by rewrite andb_false_r.
Qed.

Lemma shortest_from_whole n den delta incl dp fuel k :
  1 <= n -> 4 <= den -> 1 <= delta <= 2 -> 1 <= dp ->
  10 ^ (dp - 1) <= n < 10 ^ dp ->
  0 <= k <= dp -> (Z.to_nat (dp - k) < fuel)%nat ->
  shortest_from (n * den) (n * den - delta) (n * den + 2) den incl fuel dp k
  = Decimal (trim_zeros (utoa n)) dp.
Proof.
  intros Hn Hden Hdelta Hdp Hrange. revert k.
  induction fuel as [| fuel IH]; intros k Hk Hfuel; [lia |].
  cbn [shortest_from]. rewrite round_to_whole by lia.
  set (P := 10 ^ (dp - k)).
  assert (0 < P) as HP by (apply Z.pow_pos_nonneg; lia).
  destruct (Z.eqb_spec (n mod P) 0) as [Hr | Hr].
  - assert (n = n / P * 10 ^ Z.of_nat (Z.to_nat (dp - k))) as Heq.
    { rewrite Z2Nat.id by lia. fold P. zdiv. }
    assert (1 <= n / P) as Hq by zdiv.
    pose proof (utoa_times_pow10 (n / P) (Z.to_nat (dp - k)) Hq) as Hu.
    rewrite <- Heq in Hu.
    pose proof (utoa_length_eq n dp Hdp Hrange) as Hlen.
    rewrite Hu, string_length_app, zeros_length in Hlen.
    rewrite Hu, trim_zeros_zeros. f_equal. lia.
  - assert (k <> dp) as Hne.
    { intros ->. subst P. rewrite Z.sub_diag, Z.pow_0_r, Z.mod_1_r in Hr. done. }
    apply IH; lia.
Qed.

Lemma substring_all (s : string) : String.substring 0 (String.length s) s = s.
Proof.
  induction s as [| c s IH]; cbn; [done | by rewrite IH]. Qed.

(** The shortest decimal of the float64 of a whole number below
    [2 ^ 53] has the digits of the number, trailing zeros dropped. *)
Lemma shortest_decimal_whole n (mx : positive) ex :
  1 <= n < 2 ^ 53 -> -52 <= ex <= 0 -> Z.pos mx = n * 2 ^ (- ex) ->
  shortest_decimal (Z.pos mx) ex
  = Decimal (trim_zeros (utoa n)) (Z.of_nat (String.length (utoa n))).
Proof.
  intros Hn Hex Hval. unfold shortest_decimal. cbv zeta.
  rewrite (Z.max_l 0 (ex - 2)), (Z.max_r 0 (2 - ex)), Z.pow_0_r, !Z.mul_1_r by lia.
  set (den := 2 ^ (2 - ex)).
  assert (4 * Z.pos mx = n * den) as Hnv.
  { subst den. replace (2 - ex) with (2 + - ex) by lia.
    rewrite Z.pow_add_r by lia. change (2 ^ 2) with 4. lia. }
  assert (4 <= den) as Hden.
  { subst den. change 4 with (2 ^ 2). apply Z.pow_le_mono_r; lia. }
  destruct (utoa_length n) as (H1 & H2 & H3); [lia |]. specialize (H3 ltac:(lia)).
  set (L := Z.of_nat (String.length (utoa n))) in *.
  assert (1 <= L <= 16) as HL.
  { split; [subst L; lia |]. destruct (Z_le_gt_dec L 16); [done |].
    assert (10 ^ 16 <= 10 ^ (L - 1)) by (apply Z.pow_le_mono_r; lia).
    change (10 ^ 16) with 10000000000000000 in *.
    change (2 ^ 53) with 9007199254740992 in *. lia. }
  rewrite Hnv, (find_dp_whole n den L) by lia.
  set (narrow := negb _ && negb _).
  replace (if narrow then n * den - 1 else n * den - 2)
    with (n * den - (if narrow then 1 else 2)) by (destruct narrow; lia).
  apply shortest_from_whole; [lia | lia | destruct narrow; lia | lia | lia | lia | lia].
Qed.
Lemma f64_of_Z_whole n :
  n <> 0 -> - 2 ^ 53 < n < 2 ^ 53 ->
  exists q j,
    Z.abs n = q * 10 ^ Z.of_nat j /\ 1 <= q /\ q mod 10 <> 0 /\
    utoa (Z.abs n) = utoa q +:+ zeros j /\
    trim_zeros (utoa (Z.abs n)) = utoa q /\
    fmt_float64 (f64_of_Z n)
    = fmtG_shortest (n <? 0)
        (Decimal (utoa q) (Z.of_nat (String.length (utoa q)) + Z.of_nat j)).
Proof.
  intros Hne Hn.
  destruct (f64_of_Z_normal n Hne Hn) as (mx & ex & -> & Hmx & Hex & Hval).
  destruct (whole_decimal (Z.abs n)) as (q & j & Hq & Hq1 & Hq10 & Hu & Ht); [lia |].
  exists q, j. repeat (split; [done |]).
  cbn [fmt_float64].
  rewrite (shortest_decimal_whole (Z.abs n)) by lia.
  by rewrite Ht, Hu, string_length_app, zeros_length, Nat2Z.inj_add.
Qed.

Lemma fmt_float64_whole_plain n :
  - 10 ^ 6 < n < 10 ^ 6 -> fmt_float64 (f64_of_Z n) = itoa n.
Proof.
  intros Hn. destruct (Z.eq_dec n 0) as [-> | Hne]; [by vm_compute |].
  destruct (f64_of_Z_whole n) as (q & j & Hq & Hq1 & Hq10 & Hu & Ht & ->);
    [done | change (2 ^ 53) with 9007199254740992; lia |].
  assert (utoa (Z.abs n) = if n <? 0 then utoa (- n) else utoa n) as Habs.
  { destruct (Z.ltb_spec n 0); [by rewrite Z.abs_neq by lia | by rewrite Z.abs_eq by lia]. }
  set (nd := Z.of_nat (String.length (utoa q))).
  assert (1 <= nd + Z.of_nat j <= 6) as HL.
  { destruct (utoa_length (Z.abs n)) as (H1 & H2 & H3); [lia |].
    specialize (H3 ltac:(lia)).
    rewrite Hu, string_length_app, zeros_length, Nat2Z.inj_add in H2, H3.
    rewrite Hu, string_length_app, zeros_length in H1.
    fold nd in H2, H3. split; [subst nd; lia |].
    destruct (Z_le_gt_dec (nd + Z.of_nat j) 6); [done |].
    assert (10 ^ 6 <= 10 ^ (nd + Z.of_nat j - 1)) by (apply Z.pow_le_mono_r; lia).
    lia. }
  assert (1 <= nd) as Hnd.
  { destruct (utoa_length q) as (H1 & _); [lia |]. subst nd. lia. }
  unfold fmtG_shortest, fmtF. cbn [dec_digits dec_dp]. fold nd.
  destruct (Z.ltb_spec (nd + Z.of_nat j - 1) (-4)); [lia |].
  destruct (Z.leb_spec 6 (nd + Z.of_nat j - 1)); [lia |]. cbn [orb].
  destruct (Z.ltb_spec 0 (nd + Z.of_nat j)); [| lia].
  rewrite (Z.max_r (nd - (nd + Z.of_nat j)) 0), (Z.min_l nd) by lia.
  change (0 <? 0) with false. cbv iota.
  replace (Z.to_nat (nd + Z.of_nat j - nd)) with j by lia.
  subst nd. rewrite Nat2Z.id, substring_all, string_app_nil_r, <- Hu, Habs.
  unfold itoa. by destruct (n <? 0).
Qed.

Lemma two_digits n :
  0 <= n < 100 -> (if n <? 10 then "0" +:+ utoa n else utoa n) = fixed_digits 2 n.
Proof.
  intros Hn. destruct (Z.ltb_spec n 10).
  - by rewrite utoa_1, (fixed_digits_small 1) by (cbn; lia).
  - by rewrite utoa_2 by lia.
Qed.

Lemma fmt_float64_whole_exponent n :
  10 ^ 6 <= Z.abs n < 2 ^ 53 ->
  exists c rest,
    trim_zeros (utoa (Z.abs n)) = String c rest /\
    fmt_float64 (f64_of_Z n)
    = (if n <? 0 then "-" else "")
      +:+ String c (match rest with "" => "" | _ => "." +:+ rest end)
      +:+ "e+"
      +:+ fixed_digits 2 (Z.of_nat (String.length (utoa (Z.abs n))) - 1).
Proof.
  intros Hn.
  destruct (f64_of_Z_whole n) as (q & j & Hq & Hq1 & Hq10 & Hu & Ht & ->);
    [lia | lia |].
  rewrite Ht, Hu, string_length_app, zeros_length, Nat2Z.inj_add.
  set (nd := Z.of_nat (String.length (utoa q))).
  assert (7 <= nd + Z.of_nat j <= 16) as HL.
  { destruct (utoa_length (Z.abs n)) as (H1 & H2 & H3); [lia |].
    specialize (H3 ltac:(lia)).
    rewrite Hu, string_length_app, zeros_length, Nat2Z.inj_add in H2, H3.
    fold nd in H2, H3. split.
    - destruct (Z_le_gt_dec 7 (nd + Z.of_nat j)); [done |].
      assert (10 ^ (nd + Z.of_nat j) <= 10 ^ 6) by (apply Z.pow_le_mono_r; lia).
      lia.
    - destruct (Z_le_gt_dec (nd + Z.of_nat j) 16); [done |].
      assert (10 ^ 16 <= 10 ^ (nd + Z.of_nat j - 1))
        by (apply Z.pow_le_mono_r; lia).
      change (10 ^ 16) with 10000000000000000 in *.
      change (2 ^ 53) with 9007199254740992 in *. lia. }
  destruct (utoa q) as [| c rest] eqn:Hds.
  { destruct (utoa_length q) as (H1 & _); [lia |]. rewrite Hds in H1. cbn in H1. lia. }
  exists c, rest. split; [done |].
  unfold fmtG_shortest, fmtE. cbn [dec_digits dec_dp]. fold nd.
  destruct (Z.ltb_spec (nd + Z.of_nat j - 1) (-4)); [lia |].
  destruct (Z.leb_spec 6 (nd + Z.of_nat j - 1)); [| lia]. cbn [orb].
  assert (nd = Z.of_nat (S (String.length rest))) as Hnd by done.
  destruct (Z.eqb_spec nd 0); [lia |].
  destruct (Z.ltb_spec (nd + Z.of_nat j - 1) 0); [lia |].
  rewrite Z.abs_eq, two_digits by lia.
  change (digit_at (String c rest) 0) with (String c "").
  rewrite (Z.min_l nd (nd - 1 + 1)), (Z.max_r 1 nd) by lia.
  replace (nd - 1 + 1 - nd) with 0 by lia. change (zeros (Z.to_nat 0)) with "".
  replace (Z.to_nat (nd - 1)) with (String.length rest) by lia.
  change (String.substring 1 (String.length rest) (String c rest))
    with (String.substring 0 (String.length rest) rest).
  rewrite substring_all, string_app_nil_r.
  destruct rest as [| c' rest'].
  - destruct (Z.ltb_spec 0 (nd - 1)); [cbn in Hnd; lia |]. reflexivity.
  - destruct (Z.ltb_spec 0 (nd - 1)); [| cbn [String.length] in Hnd; lia].
    reflexivity.
Qed.

Lemma formatValue_number_text key f :
  is_date_key key = false -> formatValue key (VNum f) = fmt_float64 f.
Proof.
  intros Hk. rewrite formatValue_other_column by done.
  by apply stringify_not_marker.
Qed.

(** X1: on a column that is no date column a whole number below one
    million in magnitude is written with its plain decimal digits, a
    minus sign first when it is negative: no point, no exponent. *)
Theorem formatValue_whole_number_plain key n :
  is_date_key key = false -> - 10 ^ 6 < n < 10 ^ 6 ->
  formatValue key (VNum (f64_of_Z n)) = itoa n.
Proof.
  intros Hk Hn. rewrite formatValue_number_text by done.
  by apply fmt_float64_whole_plain.
Qed.

(** X2: on a column that is no date column a whole number from one
    million on (and below [2 ^ 53], so exact in a float64) is written in
    exponent form: the sign, the first digit, after a point the other
    digits up to the last one that is not zero, then [e+] and the number
    of digits less one, in two digits. *)
Theorem formatValue_whole_number_exponent key n :
  is_date_key key = false -> 10 ^ 6 <= Z.abs n < 2 ^ 53 ->
  exists c rest,
    trim_zeros (utoa (Z.abs n)) = String c rest /\
    formatValue key (VNum (f64_of_Z n))
    = (if n <? 0 then "-" else "")
      +:+ String c (match rest with "" => "" | _ => "." +:+ rest end)
      +:+ "e+"
      +:+ fixed_digits 2 (Z.of_nat (String.length (utoa (Z.abs n))) - 1).
Proof.
  intros Hk Hn. rewrite formatValue_number_text by done.
  by apply fmt_float64_whole_exponent.
Qed.

(** ** No cell spells the nil marker *)

Lemma utoa_starts_ok n : starts_ok (utoa n).
Proof.
  pose proof (utoa_all_digits n) as Hd.
  destruct (utoa n) as [| c s] eqn:E.
  - exfalso. rewrite utoa_unfold, digits_aux_S in E.
    destruct (n <? 10); [done |]. rewrite digits_aux_acc in E.
    apply (f_equal String.length) in E. rewrite string_length_app in E.
    cbn in E. lia.
  - cbn. apply is_digit_not_lt. by inversion Hd.
Qed.

Lemma appendInt_starts_ok x width : starts_ok (appendInt x width).
Proof.
  unfold appendInt. destruct (x <? 0); [starts_const |].
  rewrite string_app_nil_l.
  destruct (width - String.length (utoa (Z.abs x)))%nat; [| starts_const].
  apply utoa_starts_ok.
Qed.

Lemma time_Format_starts_ok ext : starts_ok (time_Format ext).
Proof.
  unfold time_Format. destruct (absDate _) as [[y m] d].
  destruct (absClock _) as [[h mi] s].
  apply starts_ok_app, appendInt_starts_ok.
Qed.

(** X3: whatever the column and the value, [formatValue] never gives
    the text of the nil marker; a string is copied as it is on every
    column, the date columns included, unless it spells the marker, which
    gives the empty string; so no cell of a row holds the marker. *)
Theorem formatValue_never_nil_marker key v :
  formatValue key v <> "<nil>" /\
  (forall s, formatValue key (VStr s) = if String.eqb s "<nil>" then "" else s) /\
  (forall r : record, Forall (fun cell => cell <> "<nil>") (build_row r)).
Proof.
  assert (forall key v, formatValue key v <> "<nil>") as Hall.
  { clear key v. intros key v.
    assert (stringify v <> "<nil>") as Hs.
    { unfold stringify. by destruct (String.eqb_spec (fmt_value v) "<nil>"). }
    unfold formatValue.
    destruct v as [| b | ts | s | l | m]; [done | destruct (is_date_key key) ..];
      try exact Hs.
    destruct (f64_eqb ts (f64_of_Z 0)); [done |].
    apply starts_ok_not_nil, time_Format_starts_ok. }
  split; [apply Hall |]. split.
  - intros s. unfold formatValue, stringify. cbn [fmt_value].
    by destruct (is_date_key key).
  - intros r. rewrite build_row_cells. apply Forall_forall.
    intros cell (k & -> & _)%list_elem_of_fmap. apply Hall.
Qed.

(** ** The cells that come out empty *)

Lemma starts_ok_not_empty s : starts_ok s -> s <> "".
Proof. by destruct s. Qed.

(** C5: [formatValue] gives a text for every column name and every
    value, whatever its shape, and which text is settled by the shape:
    nothing for nil; the word for a boolean; a string as it is, unless
    it spells the nil marker; for a list and a map, shapes no column is
    meant to hold, their text under the verb v, in brackets; for a
    number, every float64 included (not-a-number, the infinities, what
    no int64 holds), its shortest text off the date columns, and on them
    nothing for zero and the date of its seconds otherwise.  So a value
    of an unexpected shape on a date column is written as text, and the
    result is empty in the cases named here only. *)
Theorem formatValue_total key :
  formatValue key VNil = "" /\
  (forall b, formatValue key (VBool b) = if b then "true" else "false") /\
  (forall t, formatValue key (VStr t) = if String.eqb t "<nil>" then "" else t) /\
  (forall l, formatValue key (VArr l)
             = "[" +:+ String.concat " " (map fmt_value l) +:+ "]") /\
  (forall m, formatValue key (VObj m)
             = "map["
               +:+ String.concat " "
                     (map (fun kv : string * string => kv.1 +:+ ":" +:+ kv.2)
                          (merge_sort key_le (map_to_list (fmt_value <$> m))))
               +:+ "]") /\
  (forall f, formatValue key (VNum f)
             = if is_date_key key then
                 if f64_eqb f (f64_of_Z 0) then ""
                 else time_Format
                        (time_Unix (int64_of_f64 (f64_div f (f64_of_Z 1000))))
               else fmt_float64 f) /\
  (forall f, fmt_float64 f <> "" /\
             time_Format (time_Unix (int64_of_f64 (f64_div f (f64_of_Z 1000))))
             <> "").
Proof.
  split; [done |]. split; [| split; [| split; [| split; [| split]]]].
  - intros b. unfold formatValue, stringify. cbn [fmt_value].
    by destruct (is_date_key key), b.
  - intros t. unfold formatValue, stringify. cbn [fmt_value].
    by destruct (is_date_key key).
  - intros l. unfold formatValue.
    rewrite stringify_not_marker by done.
    by destruct (is_date_key key).
  - intros m. unfold formatValue.
    rewrite stringify_not_marker by done.
    by destruct (is_date_key key).
  - intros f. unfold formatValue.
    rewrite stringify_not_marker by done.
    by destruct (is_date_key key).
  - intros f. split.
    + apply starts_ok_not_empty, fmt_float64_starts_ok.
    + apply starts_ok_not_empty, time_Format_starts_ok.
Qed.

(** X16: a cell is empty in four cases only: the value is nil (or the
    key is missing), it is the empty string, it is the string that
    spells the nil marker, or it is a number equal to zero on a date
    column.  A boolean, a number elsewhere, a number other than zero on
    a date column, a list and a map always give some text. *)
Theorem formatValue_empty_iff key v :
  formatValue key v = "" <->
  v = VNil \/ v = VStr "" \/ v = VStr "<nil>" \/
  (is_date_key key = true /\
   exists ts, v = VNum ts /\ f64_eqb ts (f64_of_Z 0) = true).
Proof.
  assert (v <> VNil -> (forall s, v <> VStr s) -> stringify v <> "") as Hs.
  { intros Hnil Hstr. rewrite stringify_not_marker by (done || apply Hstr).
    destruct v as [| [] | f | s | l | m]; cbn [fmt_value]; try done.
    - apply starts_ok_not_empty, fmt_float64_starts_ok.
    - by destruct (Hstr s). }
  split.
  - unfold formatValue.
    destruct v as [| b | ts | s | l | m]; [by left | ..].
    + intros H. exfalso. revert H.
      destruct (is_date_key key); by apply Hs.
    + destruct (is_date_key key) eqn:Hk.
      * destruct (f64_eqb ts (f64_of_Z 0)) eqn:Hz.
        -- intros _. right. right. right. split; [done |]. by exists ts.
        -- intros H. exfalso. revert H.
           apply starts_ok_not_empty, time_Format_starts_ok.
      * intros H. exfalso. revert H. by apply Hs.
    + intros H.
      assert (stringify (VStr s) = "") as H' by (by destruct (is_date_key key)).
      unfold stringify in H'. cbn [fmt_value] in H'.
      destruct (String.eqb_spec s "<nil>") as [-> | _]; [by auto |].
      subst s. by auto.
    + intros H. exfalso. revert H.
      destruct (is_date_key key); by apply Hs.
    + intros H. exfalso. revert H.
      destruct (is_date_key key); by apply Hs.
  - intros [-> | [-> | [-> | (Hk & ts & -> & Hz)]]]; unfold formatValue.
    + done.
    + by destruct (is_date_key key).
    + by destruct (is_date_key key).
    + by rewrite Hk, Hz.
Qed.

(** ** Dates of any year *)

Lemma fixed_digits_length w n : String.length (fixed_digits w n) = w.
Proof.
  revert n. induction w as [| w IH]; intros n; [done |].
  rewrite fixed_digits_S, string_length_app, IH. cbn. lia.
Qed.

Lemma appendInt_abs x width :
  appendInt x width = (if x <? 0 then "-" else "") +:+ appendInt (Z.abs x) width.
Proof.
  unfold appendInt. rewrite Z.abs_idemp.
  destruct (Z.ltb_spec (Z.abs x) 0); [lia |]. by rewrite string_app_nil_l.
Qed.

Lemma appendInt_year y : appendInt y 4 = year_text y.
Proof.
  unfold year_text. rewrite appendInt_abs. f_equal.
  destruct (Z.ltb_spec (Z.abs y) 10000) as [Hlt | Hge]; [apply appendInt_4; lia |].
  unfold appendInt. rewrite Z.abs_idemp.
  destruct (Z.ltb_spec (Z.abs y) 0); [lia |]. rewrite string_app_nil_l.
  destruct (utoa_length (Z.abs y)) as (_ & Hu & _); [lia |].
  assert (5 <= String.length (utoa (Z.abs y)))%nat as Hlen.
  { destruct (le_lt_dec 5 (String.length (utoa (Z.abs y)))); [done |].
    assert (10 ^ Z.of_nat (String.length (utoa (Z.abs y))) <= 10 ^ 4)
      by (apply Z.pow_le_mono_r; lia).
    change (10 ^ 4) with 10000 in *. lia. }
  replace (4 - String.length (utoa (Z.abs y)))%nat with 0%nat by lia.
  apply string_app_nil_l.
Qed.

Lemma year_text_length y :
  String.length (year_text y) = 4%nat <-> 0 <= y <= 9999.
Proof.
  unfold year_text. rewrite string_length_app.
  destruct (Z.ltb_spec (Z.abs y) 10000) as [Hlt | Hge].
  - rewrite fixed_digits_length. destruct (Z.ltb_spec y 0); cbn; lia.
  - destruct (utoa_length (Z.abs y)) as (_ & Hu & _); [lia |].
    assert (5 <= String.length (utoa (Z.abs y)))%nat as Hlen.
    { destruct (le_lt_dec 5 (String.length (utoa (Z.abs y)))); [done |].
      assert (10 ^ Z.of_nat (String.length (utoa (Z.abs y))) <= 10 ^ 4)
        by (apply Z.pow_le_mono_r; lia).
      change (10 ^ 4) with 10000 in *. lia. }
    lia.
Qed.

Lemma layout_text_any_length c :
  String.length (layout_text_any c) = 22%nat <-> 0 <= c_year c <= 9999.
Proof.
  unfold layout_text_any.
  rewrite !string_length_app, !fixed_digits_length, <- year_text_length.
  cbn [String.length]. lia.
Qed.

Lemma day_of_year_nonneg y m d :
  1 <= m <= 12 -> 1 <= d -> 0 <= days_before_month y m + (d - 1).
Proof.
  intros Hm Hd. rewrite days_before_month_table by lia.
  assert (0 <= daysBefore_at (m - 1)); [| destruct (_ && _); lia].
  assert (m = 1 \/ m = 2 \/ m = 3 \/ m = 4 \/ m = 5 \/ m = 6 \/ m = 7
          \/ m = 8 \/ m = 9 \/ m = 10 \/ m = 11 \/ m = 12 \/ False) as Hc by lia.
  repeat (destruct Hc as [-> | Hc]; [by vm_compute |]). destruct Hc.
Qed.

(** The text [Time.Format] gives for a second of the epoch is the
    layout filled with the civil time in UTC of that second, whatever
    the year. *)
Lemma time_Format_any_year sec :
  - 2 ^ 62 <= sec <= 2 ^ 62 ->
  exists c, civil_valid c /\ unix_of_civil c = sec /\
    time_Format (time_Unix sec) = layout_text_any c /\
    (0 <= c_year c <= 9999 <-> -62167219200 <= sec <= 253402300799).
Proof.
  intros Hsec. unfold time_Format.
  rewrite time_abs_Unix by lia.
  set (abs := sec + epoch_day * secondsPerDay).
  change (2 ^ 62) with 4611686018427387904 in Hsec.
  assert (0 <= abs < 2 ^ 64) as Habs.
  { subst abs. unfold epoch_day, secondsPerDay.
    change (2 ^ 64) with 18446744073709551616. lia. }
  destruct (absDate_spec abs Habs) as (y & m & d & -> & Hm & Hd & Hdays & Hyd).
  destruct (absClock_spec abs) as (h & mi & s & -> & Hh & Hmi & Hs & Hclock).
  assert (abs / secondsPerDay - epoch_day = sec / 86400 /\
          abs mod 86400 = sec mod 86400) as [Ediv Emod]
    by (subst abs; unfold epoch_day, secondsPerDay; zdiv).
  rewrite Ediv in Hdays. rewrite Emod in Hclock.
  pose proof (day_of_year_nonneg y m d Hm ltac:(lia)) as Hyd0.
  pose proof (year_length y) as Hlen.
  assert (days_before_year y <= sec / 86400 < days_before_year (y + 1))
    as Hbetween by lia.
  exists (Civil y m d h mi s). split; [| split; [| split]].
  - unfold civil_valid. cbn. lia.
  - unfold unix_of_civil. cbn [c_year c_month c_day c_hour c_minute c_second].
    rewrite Hdays. zdiv.
  - unfold layout_text_any. cbn [c_year c_month c_day c_hour c_minute c_second].
    assert (1 <= d <= 31) as Hd31.
    { unfold days_in_month in Hd.
      destruct (m =? 2); [destruct (isLeap y) |]; [lia | lia |].
      destruct (_ || _); lia. }
    by rewrite appendInt_year, !appendInt_2 by lia.
  - cbn [c_year]. split.
    + intros Hy.
      pose proof (days_before_year_mono 0 y ltac:(lia)) as Hlo.
      pose proof (days_before_year_mono (y + 1) 10000 ltac:(lia)) as Hhi.
      change (days_before_year 0) with (-719528) in Hlo.
      change (days_before_year 10000) with 2932897 in Hhi. zdiv.
    + intros Hrange.
      destruct (Z_lt_le_dec y 0) as [Hneg |];
        [| destruct (Z_lt_le_dec 9999 y) as [Hbig |]]; [| | lia]; exfalso.
      * pose proof (days_before_year_mono (y + 1) 0 ltac:(lia)) as Hmono.
        change (days_before_year 0) with (-719528) in Hmono. zdiv.
      * pose proof (days_before_year_mono 10000 y ltac:(lia)) as Hmono.
        change (days_before_year 10000) with 2932897 in Hmono. zdiv.
Qed.

(** X4: on a date column every whole number of milliseconds that a
    float64 holds exactly (magnitude below [2 ^ 53]), zero apart, is
    written as the civil time in UTC of its second (the quotient cut
    toward zero).  The year takes four digits exactly for the
    milliseconds of the years 0 to 9999; before, it carries a minus
    sign, after, a fifth digit, and only then the text is not 22
    characters long. *)
Theorem formatValue_date_any_year key ms :
  key = "Action_Filed" \/ key = "Sale_Date" ->
  ms <> 0 -> - 2 ^ 53 < ms < 2 ^ 53 ->
  exists c, civil_valid c /\ unix_of_civil c = Z.quot ms 1000 /\
    formatValue key (VNum (f64_of_Z ms)) = layout_text_any c /\
    (0 <= c_year c <= 9999 <-> -62167219200999 <= ms <= 253402300799999) /\
    (String.length (formatValue key (VNum (f64_of_Z ms))) = 22%nat
     <-> 0 <= c_year c <= 9999).
Proof.
  intros Hkey Hne Hms.
  assert (is_date_key key = true) as Hk by (by destruct Hkey as [-> | ->]).
  destruct (whole_ms_to_seconds ms Hne Hms) as [Hz Hsec].
  assert (formatValue key (VNum (f64_of_Z ms))
          = time_Format (time_Unix (Z.quot ms 1000))) as Hfmt.
  { unfold formatValue. by rewrite Hk, Hz, Hsec. }
  change (2 ^ 53) with 9007199254740992 in Hms.
  destruct (time_Format_any_year (Z.quot ms 1000)) as (c & Hv & Hu & Hf & Hy).
  { change (2 ^ 62) with 4611686018427387904.
    zquot. }
  exists c. rewrite Hfmt, Hf. split; [exact Hv |]. split; [exact Hu |].
  split; [done |]. split; [| apply layout_text_any_length].
  rewrite Hy. zquot.
Qed.

(** ** The order of the date texts *)

Lemma ascii_compare_refl (c : ascii) : Ascii.compare c c = Eq.
Proof. apply N.compare_refl. Qed.

Lemma string_compare_app (a b t1 t2 : string) :
  String.length a = String.length b ->
  String.compare (a +:+ t1) (b +:+ t2)
  = match String.compare a b with Eq => String.compare t1 t2 | r => r end.
Proof.
  revert b. induction a as [| c a IH]; intros [| c' b]; cbn [String.length];
    try done.
  intros [= Hl]. rewrite !string_app_cons. cbn [String.compare].
  destruct (Ascii.compare c c'); [by apply IH | done | done].
Qed.

Lemma string_compare_sep (c : ascii) (t1 t2 : string) :
  String.compare (String c "" +:+ t1) (String c "" +:+ t2) = String.compare t1 t2.
Proof.
  rewrite !string_app_cons, !string_app_nil_l. cbn [String.compare].
  by rewrite ascii_compare_refl.
Qed.

Lemma compare_lex a1 a2 b1 b2 B :
  0 <= b1 < B -> 0 <= b2 < B ->
  match a1 ?= a2 with Eq => b1 ?= b2 | r => r end
  = (a1 * B + b1 ?= a2 * B + b2).
Proof.
  intros H1 H2.
  destruct (Z.compare_spec a1 a2) as [-> | Ha | Ha].
  - destruct (Z.compare_spec b1 b2) as [-> | Hb | Hb]; symmetry.
    + apply Z.compare_refl.
    + apply Z.compare_lt_iff. lia.
    + apply Z.compare_gt_iff. lia.
  - symmetry. apply Z.compare_lt_iff. nia.
  - symmetry. apply Z.compare_gt_iff. nia.
Qed.

Lemma digit_char_compare x y :
  0 <= x <= 9 -> 0 <= y <= 9 ->
  Ascii.compare (digit_char x) (digit_char y) = (x ?= y).
Proof.
  intros Hx Hy.
  assert (forall d, 0 <= d <= 9 -> N_of_ascii (digit_char d) = (48 + Z.to_N d)%N)
    as Hd.
  { intros d H. unfold digit_char. apply N_ascii_embedding. lia. }
  unfold Ascii.compare. rewrite !Hd by done.
  rewrite <- N2Z.inj_compare, !N2Z.inj_add, !Z2N.id by lia.
  apply Z.add_compare_mono_l.
Qed.

Lemma fixed_digits_compare w x y :
  0 <= x < 10 ^ Z.of_nat w -> 0 <= y < 10 ^ Z.of_nat w ->
  String.compare (fixed_digits w x) (fixed_digits w y) = (x ?= y).
Proof.
  revert x y. induction w as [| w IH]; intros x y Hx Hy.
  - assert (x = 0) as -> by (cbn in Hx; lia).
    assert (y = 0) as -> by (cbn in Hy; lia). reflexivity.
  - rewrite Nat2Z.inj_succ, Z.pow_succ_r in Hx, Hy by lia.
    rewrite !fixed_digits_S, string_compare_app
      by (by rewrite !fixed_digits_length).
    rewrite IH by zdiv. cbn [String.compare].
    rewrite digit_char_compare by zdiv.
    replace (match x mod 10 ?= y mod 10 with Eq => Eq | r => r end)
      with (x mod 10 ?= y mod 10) by (by destruct (x mod 10 ?= y mod 10)).
    rewrite (compare_lex _ _ _ _ 10) by zdiv.
    f_equal; zdiv.
Qed.

(** The first day of a month and its length, by the month. *)
Lemma month_table y m :
  1 <= m <= 12 ->
  let leap := if isLeap y then 1 else 0 in
  (m = 1 /\ days_before_month y m = 0 /\ days_in_month y m = 31) \/
  (m = 2 /\ days_before_month y m = 31 /\ days_in_month y m = 28 + leap) \/
  (m = 3 /\ days_before_month y m = 59 + leap /\ days_in_month y m = 31) \/
  (m = 4 /\ days_before_month y m = 90 + leap /\ days_in_month y m = 30) \/
  (m = 5 /\ days_before_month y m = 120 + leap /\ days_in_month y m = 31) \/
  (m = 6 /\ days_before_month y m = 151 + leap /\ days_in_month y m = 30) \/
  (m = 7 /\ days_before_month y m = 181 + leap /\ days_in_month y m = 31) \/
  (m = 8 /\ days_before_month y m = 212 + leap /\ days_in_month y m = 31) \/
  (m = 9 /\ days_before_month y m = 243 + leap /\ days_in_month y m = 30) \/
  (m = 10 /\ days_before_month y m = 273 + leap /\ days_in_month y m = 31) \/
  (m = 11 /\ days_before_month y m = 304 + leap /\ days_in_month y m = 30) \/
  (m = 12 /\ days_before_month y m = 334 + leap /\ days_in_month y m = 31).
Proof.
  intros Hm. cbv zeta. unfold days_before_month, days_in_month.
  assert (m = 1 \/ m = 2 \/ m = 3 \/ m = 4 \/ m = 5 \/ m = 6 \/ m = 7 \/ m = 8
          \/ m = 9 \/ m = 10 \/ m = 11 \/ m = 12) as Hc by lia.
  destruct (isLeap y);
    repeat (destruct Hc as [-> | Hc]; [vm_compute; tauto |]);
    subst m; vm_compute; tauto.
Qed.

(** The days from 1970-01-01 to the day of a civil time. *)
Lemma civil_day_compare c1 c2 :
  civil_valid c1 -> civil_valid c2 ->
  match c_year c1 ?= c_year c2 with
  | Eq => match c_month c1 ?= c_month c2 with
          | Eq => c_day c1 ?= c_day c2
          | r => r
          end
  | r => r
  end
  = (days_before_year (c_year c1) + days_before_month (c_year c1) (c_month c1)
     + (c_day c1 - 1)
     ?= days_before_year (c_year c2) + days_before_month (c_year c2) (c_month c2)
        + (c_day c2 - 1)).
Proof.
  destruct c1 as [y1 m1 d1 h1 mi1 s1], c2 as [y2 m2 d2 h2 mi2 s2].
  unfold civil_valid. cbn [c_year c_month c_day c_hour c_minute c_second].
  intros (Hm1 & Hd1 & _) (Hm2 & Hd2 & _).
  pose proof (month_table y1 m1 Hm1) as T1. pose proof (month_table y2 m2 Hm2) as T2.
  cbv zeta in T1, T2.
  pose proof (year_length y1) as L1. pose proof (year_length y2) as L2.
  destruct (Z.compare_spec y1 y2) as [-> | Hy | Hy].
  - destruct (Z.compare_spec m1 m2) as [-> | Hmm | Hmm].
    + destruct (Z.compare_spec d1 d2); symmetry;
        [apply Z.compare_eq_iff | apply Z.compare_lt_iff | apply Z.compare_gt_iff];
        lia.
    + symmetry. apply Z.compare_lt_iff. destruct (isLeap y2); lia.
    + symmetry. apply Z.compare_gt_iff. destruct (isLeap y2); lia.
  - symmetry. apply Z.compare_lt_iff.
    pose proof (days_before_year_mono (y1 + 1) y2 ltac:(lia)).
    destruct (isLeap y1), (isLeap y2); lia.
  - symmetry. apply Z.compare_gt_iff.
    pose proof (days_before_year_mono (y2 + 1) y1 ltac:(lia)).
    destruct (isLeap y1), (isLeap y2); lia.
Qed.

Lemma civil_clock_compare c1 c2 :
  civil_valid c1 -> civil_valid c2 ->
  match c_hour c1 ?= c_hour c2 with
  | Eq => match c_minute c1 ?= c_minute c2 with
          | Eq => c_second c1 ?= c_second c2
          | r => r
          end
  | r => r
  end
  = (c_hour c1 * 3600 + (c_minute c1 * 60 + c_second c1)
     ?= c_hour c2 * 3600 + (c_minute c2 * 60 + c_second c2)).
Proof.
  intros (_ & _ & Hh1 & Hmi1 & Hs1) (_ & _ & Hh2 & Hmi2 & Hs2).
  rewrite (compare_lex (c_minute c1) (c_minute c2) _ _ 60) by lia.
  apply compare_lex; lia.
Qed.

(** Between the years 0 and 9999 the texts of two civil times compare,
    byte by byte, as the times do. *)
Lemma layout_text_compare c1 c2 :
  civil_valid c1 -> civil_valid c2 ->
  0 <= c_year c1 <= 9999 -> 0 <= c_year c2 <= 9999 ->
  String.compare (layout_text c1) (layout_text c2)
  = (unix_of_civil c1 ?= unix_of_civil c2).
Proof.
  intros Hv1 Hv2 Hy1 Hy2.
  pose proof (civil_day_compare c1 c2 Hv1 Hv2) as Hday.
  pose proof (civil_clock_compare c1 c2 Hv1 Hv2) as Hclock.
  assert (forall c, civil_valid c -> 1 <= c_day c <= 31) as Hd31.
  { intros c (Hm & Hd & _). unfold days_in_month in Hd.
    destruct (c_month c =? 2); [destruct (isLeap (c_year c)) |]; [lia | lia |].
    destruct (_ || _); lia. }
  pose proof (Hd31 c1 Hv1) as Hd1. pose proof (Hd31 c2 Hv2) as Hd2.
  destruct Hv1 as (Hm1 & _ & Hh1 & Hmi1 & Hs1).
  destruct Hv2 as (Hm2 & _ & Hh2 & Hmi2 & Hs2).
  unfold layout_text.
  rewrite string_compare_app, fixed_digits_compare, string_compare_sep
    by (first [by rewrite !fixed_digits_length | cbn; lia]).
  do 5 (rewrite string_compare_app, fixed_digits_compare, ?string_compare_sep
          by (first [by rewrite !fixed_digits_length | cbn; lia])).
  change (String.compare "+00" "+00") with Eq.
  set (cy := c_year c1 ?= c_year c2) in *.
  set (cm := c_month c1 ?= c_month c2) in *.
  set (cd := c_day c1 ?= c_day c2) in *.
  set (ch := c_hour c1 ?= c_hour c2) in *.
  set (cmi := c_minute c1 ?= c_minute c2) in *.
  set (cs := c_second c1 ?= c_second c2) in *.
  transitivity
    (match (match cy with
            | Eq => match cm with Eq => cd | Lt => Lt | Gt => Gt end
            | Lt => Lt
            | Gt => Gt
            end)
     with
     | Eq => match ch with
             | Eq => match cmi with Eq => cs | Lt => Lt | Gt => Gt end
             | Lt => Lt
             | Gt => Gt
             end
     | Lt => Lt
     | Gt => Gt
     end);
    [by destruct cy, cm, cd, ch, cmi, cs |].
  rewrite Hday, Hclock.
  rewrite (compare_lex _ _ _ _ 86400) by lia.
  unfold unix_of_civil. f_equal; lia.
Qed.

(** X5: on a date column the texts of two whole numbers of
    milliseconds of the years 0 to 9999 compare, byte by byte, as their
    seconds do: the alphabetical order of the cells is the order of
    time, and two cells are equal exactly when the seconds are. *)
Theorem formatValue_date_order key ms1 ms2 :
  key = "Action_Filed" \/ key = "Sale_Date" ->
  ms1 <> 0 -> -62167219200999 <= ms1 <= 253402300799999 ->
  ms2 <> 0 -> -62167219200999 <= ms2 <= 253402300799999 ->
  String.compare (formatValue key (VNum (f64_of_Z ms1)))
                 (formatValue key (VNum (f64_of_Z ms2)))
  = (Z.quot ms1 1000 ?= Z.quot ms2 1000) /\
  (formatValue key (VNum (f64_of_Z ms1)) = formatValue key (VNum (f64_of_Z ms2))
   <-> Z.quot ms1 1000 = Z.quot ms2 1000).
Proof.
  intros Hkey Hne1 Hr1 Hne2 Hr2.
  assert (is_date_key key = true) as Hk by (by destruct Hkey as [-> | ->]).
  assert (forall ms, ms <> 0 -> -62167219200999 <= ms <= 253402300799999 ->
            exists c, civil_valid c /\ 0 <= c_year c <= 9999 /\
              unix_of_civil c = Z.quot ms 1000 /\
              formatValue key (VNum (f64_of_Z ms)) = layout_text c) as Hciv.
  { intros ms Hne Hr.
    destruct (whole_ms_to_seconds ms Hne) as [Hz Hsec];
      [change (2 ^ 53) with 9007199254740992; lia |].
    destruct (time_Format_civil (Z.quot ms 1000)) as (c & Hv & Hy & Hu & Hf);
      [zquot |].
    exists c. repeat (split; [done |]).
    unfold formatValue. by rewrite Hk, Hz, Hsec. }
  destruct (Hciv ms1 Hne1 Hr1) as (c1 & Hv1 & Hy1 & Hu1 & ->).
  destruct (Hciv ms2 Hne2 Hr2) as (c2 & Hv2 & Hy2 & Hu2 & ->).
  assert (String.compare (layout_text c1) (layout_text c2)
          = (Z.quot ms1 1000 ?= Z.quot ms2 1000)) as Hcmp
    by (by rewrite layout_text_compare, Hu1, Hu2).
  split; [exact Hcmp |]. split.
  - intros Heq. rewrite Heq in Hcmp. apply Z.compare_eq.
    rewrite <- Hcmp. clear. induction (layout_text c2) as [| c s IH]; [done |].
    cbn [String.compare]. by rewrite ascii_compare_refl.
  - intros Heq. rewrite Heq, Z.compare_refl in Hcmp.
    by apply String.compare_eq_iff.
Qed.

(** ** The request of fetchBatch *)

Lemma QueryEscape_kept s :
  Forall (fun c => shouldEscape c = false) (list_ascii_of_string s) ->
  QueryEscape s = s.
Proof.
  induction s as [| c s IH]; [done |]. cbn [list_ascii_of_string QueryEscape].
  intros [Hc Hs]%Forall_cons. by rewrite Hc, string_app_cons, string_app_nil_l, IH.
Qed.

Lemma is_digit_kept c : is_digit c = true -> shouldEscape c = false.
Proof.
  unfold is_digit, shouldEscape. intros [H1 H2]%andb_true_iff. cbv zeta.
  rewrite H1, H2. cbn [andb]. by rewrite !orb_true_r.
Qed.

Lemma QueryEscape_itoa n : QueryEscape (itoa n) = itoa n.
Proof.
  apply QueryEscape_kept. unfold itoa.
  assert (Forall (fun c => shouldEscape c = false) (list_ascii_of_string (utoa n)) /\
          Forall (fun c => shouldEscape c = false) (list_ascii_of_string (utoa (- n))))
    as [H1 H2].
  { split; (eapply Forall_impl; [apply utoa_all_digits | apply is_digit_kept]). }
  destruct (n <? 0); [| done]. rewrite list_ascii_app.
  apply Forall_app. split; [by repeat constructor | done].
Qed.

Lemma Values_Encode_sorted (q : Values) l :
  merge_sort values_key_le (map_to_list q) = l ->
  Values_Encode q
  = String.concat "&"
      (l ≫= fun kv => map (fun v => QueryEscape kv.1 +:+ "=" +:+ QueryEscape v) kv.2).
Proof. unfold Values_Encode. by intros ->. Qed.

(** The text of the request for an offset. *)
Lemma batch_request_text offset :
  Request_String (batch_request offset)
  = url +:+ "?f=json&outFields=%2A&resultOffset=" +:+ itoa offset
    +:+ "&resultRecordCount=1000&returnGeometry=false&where=1%3D1".
Proof.
  unfold Request_String, batch_request. cbn [URL RawQuery]. f_equal.
  pose proof (QueryEscape_itoa offset) as Hesc.
  remember (itoa offset) as o eqn:Ho. clear Ho offset.
  rewrite (Values_Encode_sorted _
    [ ("f", ["json"]); ("outFields", ["*"]); ("resultOffset", [o]);
      ("resultRecordCount", ["1000"]); ("returnGeometry", ["false"]);
      ("where", ["1=1"]) ]) by (vm_compute; reflexivity).
  rewrite !bind_cons. cbn [mbind list_bind map fst snd app String.concat].
  rewrite Hesc.
  repeat match goal with
  | |- context [QueryEscape ?s] =>
      let v := eval vm_compute in (QueryEscape s) in
      change (QueryEscape s) with v
  end.
  rewrite !string_app_assoc. reflexivity.
Qed.

(** X6: what [fetchBatch] returns depends on the client only through
    its answer to one request, which depends on the offset only: a GET
    of the service's query URL with the six parameters in the order of
    their names, the asterisk and the equals sign escaped, the offset in
    decimal and a page size of 1000. *)
Theorem fetchBatch_request offset client :
  fetchBatch offset client = fetchBatch offset (fun _ => client (batch_request offset)) /\
  fetchBatch offset (fun req => inl (Method req +:+ " " +:+ Request_String req))
  = ([], Some (UrlError
       ("GET " +:+ url +:+ "?f=json&outFields=%2A&resultOffset=" +:+ itoa offset
        +:+ "&resultRecordCount=1000&returnGeometry=false&where=1%3D1"))).
Proof.
  split; [by rewrite !fetchBatch_unfold |].
  rewrite fetchBatch_unfold, batch_request_text. reflexivity.
Qed.

(** *** Decimal texts read back *)

Lemma digits_value_from_app acc s t :
  digits_value_from acc (s +:+ t) = digits_value_from (digits_value_from acc s) t.
Proof.
  revert acc. induction s as [| c s IH]; intros acc; [done |].
  rewrite string_app_cons. cbn [digits_value_from]. apply IH.
Qed.

Lemma digit_value_char d : 0 <= d <= 9 -> digit_value (digit_char d) = d.
Proof.
  intros H. unfold digit_value, digit_char.
  rewrite N_ascii_embedding by lia. lia.
Qed.

Lemma digits_value_utoa n : 0 <= n -> digits_value (utoa n) = n.
Proof.
  revert n. apply (Zlt_0_ind (fun n => digits_value (utoa n) = n)).
  intros n IH Hn. destruct (Z_lt_le_dec n 10) as [Hlt | Hge].
  - rewrite utoa_small by lia. unfold digits_value. cbn [digits_value_from].
    rewrite digit_value_char; lia.
  - rewrite utoa_step by lia. unfold digits_value in *.
    rewrite digits_value_from_app, IH by zdiv. cbn [digits_value_from].
    rewrite digit_value_char by zdiv. zdiv.
Qed.

Lemma utoa_first n : exists c s, utoa n = String c s /\ is_digit c = true.
Proof.
  pose proof (utoa_starts_ok n) as Hs. pose proof (utoa_all_digits n) as Hd.
  destruct (utoa n) as [| c s]; [done |]. exists c, s. split; [done |].
  by inversion Hd.
Qed.

Lemma itoa_inj a b : itoa a = itoa b -> a = b.
Proof.
  unfold itoa. intros H.
  assert (forall n m, "-" +:+ utoa n <> utoa m) as Hsign.
  { intros n m E. destruct (utoa_first m) as (c & s & Hm & Hc).
    rewrite Hm in E. injection E as <- _. done. }
  destruct (Z.ltb_spec a 0), (Z.ltb_spec b 0).
  - apply String.app_inj in H. apply (f_equal digits_value) in H.
    rewrite !digits_value_utoa in H by lia. lia.
  - by apply Hsign in H.
  - symmetry in H. by apply Hsign in H.
  - apply (f_equal digits_value) in H. by rewrite !digits_value_utoa in H by lia.
Qed.

(** X7: two offsets that differ give requests that differ, in the
    query text the service sees. *)
Theorem fetchBatch_offsets_tell_apart o1 o2 :
  o1 <> o2 ->
  Request_String (batch_request o1) <> Request_String (batch_request o2) /\
  batch_request o1 <> batch_request o2.
Proof.
  intros Hne.
  assert (Request_String (batch_request o1) <> Request_String (batch_request o2))
    as Htext.
  { rewrite !batch_request_text. intros H. apply Hne, itoa_inj.
    apply String.app_inj in H. apply String.app_inj in H.
    by apply string_app_inj_r in H. }
  split; [exact Htext |]. intros H. apply Htext. by rewrite H.
Qed.

(** ** The worker pool: the lock, the channel, the pages, the log *)

Lemma sum_list_with_lookup {A} (f : A -> nat) (l : list A) i x :
  l !! i = Some x -> (f x <= sum_list_with f l)%nat.
Proof.
  revert i. induction l as [| y l IH]; intros [| i] H; cbn in *; try done.
  - injection H as ->. lia.
  - specialize (IH _ H). lia.
Qed.

Lemma sum_list_with_lookup2 {A} (f : A -> nat) (l : list A) i j x y :
  i <> j -> l !! i = Some x -> l !! j = Some y ->
  (f x + f y <= sum_list_with f l)%nat.
Proof.
  revert i j. induction l as [| z l IH]; intros [| i] [| j] Hne Hi Hj;
    cbn in *; try done.
  - injection Hi as ->. pose proof (sum_list_with_lookup f l j y Hj). lia.
  - injection Hj as ->. pose proof (sum_list_with_lookup f l i x Hi). lia.
  - assert (i <> j) as Hne' by lia. specialize (IH i j Hne' Hi Hj). lia.
Qed.

Lemma sum_list_with_pos {A} (f : A -> nat) (l : list A) :
  (0 < sum_list_with f l)%nat -> exists i x, l !! i = Some x /\ (0 < f x)%nat.
Proof.
  induction l as [| a l IH]; cbn; [lia |]. intros H.
  destruct (f a) as [| k] eqn:E.
  - destruct IH as (i & x & Hl & Hx); [lia |]. by exists (S i), x.
  - exists 0%nat, a. split; [done | lia].
Qed.

Lemma in_critical_bound ws : (in_critical ws <= 1)%nat.
Proof. destruct ws; cbn; lia. Qed.

(** A step changes the dataset only when it is the assignment of a
    worker. *)
Lemma actor_step_allData n client a s s' :
  actor_step n client a s = Some s' ->
  p_allData s' = p_allData s \/
  exists w old records,
    a = Some w /\ p_workers s !! w = Some (WWrite old records) /\
    p_allData s' = old ++ records.
Proof.
  destruct a as [w |]; cbn [actor_step].
  - unfold worker_step, set_worker.
    destruct (p_workers s !! w) as [ws |] eqn:Hlk; [| done].
    destruct ws as [| o | recs | recs | old recs | |]; try done.
    + destruct (p_chan s); [destruct (p_closed s); [| done] |];
        intros [= <-]; by left.
    + destruct (fetchBatch o client). intros [= <-]. by left.
    + destruct (p_mu s); [done |]. intros [= <-]. by left.
    + intros [= <-]. by left.
    + intros [= <-]. right. by exists w, old, recs.
    + intros [= <-]. by left.
  - unfold main_step. destruct (p_main s) as [i |]; [| done].
    destruct (i <? maxBatches); [destruct (_ <? _)%nat; [| done] |];
      intros [= <-]; by left.
Qed.

(** X8: in every state the pool can reach at most one worker stands
    between [mu.Lock()] and [mu.Unlock()], and [mu] is locked exactly
    when one does; a worker about to assign [allData] has read the
    current value, so its assignment appends its records to it; and no
    other step changes [allData]. *)
Theorem pool_mutual_exclusion n client s :
  rtc (step n client) (pool_init n) s ->
  (forall w1 w2 ws1 ws2,
     p_workers s !! w1 = Some ws1 -> p_workers s !! w2 = Some ws2 ->
     in_critical ws1 = 1%nat -> in_critical ws2 = 1%nat -> w1 = w2) /\
  (p_mu s = true <->
   exists w ws, p_workers s !! w = Some ws /\ in_critical ws = 1%nat) /\
  (forall w old records,
     p_workers s !! w = Some (WWrite old records) -> old = p_allData s) /\
  (forall a s', actor_step n client a s = Some s' ->
     p_allData s' <> p_allData s ->
     exists w old records,
       a = Some w /\ p_workers s !! w = Some (WWrite old records) /\
       p_allData s' = p_allData s ++ records).
Proof.
  intros Hreach. destruct (reachable_inv _ _ _ Hreach) as [_ _ _ _ _ _ Hmu Hwr].
  assert (forall w old records,
            p_workers s !! w = Some (WWrite old records) -> old = p_allData s)
    as Hread.
  { intros w old records Hw. rewrite Forall_lookup in Hwr. exact (Hwr _ _ Hw). }
  split; [| split; [| split; [exact Hread |]]].
  - intros w1 w2 ws1 ws2 H1 H2 Hc1 Hc2.
    destruct (decide (w1 = w2)) as [| Hne]; [done |].
    pose proof (sum_list_with_lookup2 in_critical _ _ _ _ _ Hne H1 H2).
    destruct (p_mu s); lia.
  - split.
    + intros Hlocked. rewrite Hlocked in Hmu.
      destruct (sum_list_with_pos in_critical (p_workers s)) as (w & ws & Hw & Hc);
        [lia |].
      exists w, ws. split; [done |]. pose proof (in_critical_bound ws). lia.
    + intros (w & ws & Hw & Hc).
      pose proof (sum_list_with_lookup in_critical _ _ _ Hw).
      destruct (p_mu s); [done | lia].
  - intros a s' Hstep Hch.
    destruct (actor_step_allData _ _ _ _ _ Hstep)
      as [Hsame | (w & old & recs & -> & Hw & Hd)]; [done |].
    exists w, old, recs. split; [done |]. split; [done |].
    by rewrite Hd, (Hread _ _ _ Hw).
Qed.

(** *** The channel *)

Lemma step_fifo n client s s' :
  (exists taken, p_sent s = taken ++ p_chan s) -> step n client s s' ->
  exists taken, p_sent s' = taken ++ p_chan s'.
Proof.
  intros [taken Hs] [[w |] Hstep]; cbn [actor_step] in Hstep.
  - unfold worker_step, set_worker in Hstep.
    destruct (p_workers s !! w) as [ws |]; [| done].
    destruct ws as [| o | recs | recs | old recs | |]; try done.
    + destruct (p_chan s) as [| o rest] eqn:Hch.
      * destruct (p_closed s); [| done]. injection Hstep as <-. cbn.
        by exists taken.
      * injection Hstep as <-. cbn. exists (taken ++ [o]).
        by rewrite Hs, <- app_assoc.
    + destruct (fetchBatch o client). injection Hstep as <-. cbn. by exists taken.
    + destruct (p_mu s); [done |]. injection Hstep as <-. cbn. by exists taken.
    + injection Hstep as <-. cbn. by exists taken.
    + injection Hstep as <-. cbn. by exists taken.
    + injection Hstep as <-. cbn. by exists taken.
  - unfold main_step in Hstep. destruct (p_main s) as [i |]; [| done].
    destruct (i <? maxBatches).
    + destruct (_ <? _)%nat; [| done]. injection Hstep as <-. cbn.
      exists taken. by rewrite Hs, app_assoc.
    + injection Hstep as <-. cbn. by exists taken.
Qed.

Lemma held_offset_length (wks : list wstate) :
  (length (wks ≫= held_offset) <= length wks)%nat.
Proof.
  induction wks as [| ws wks IH]; [done |].
  rewrite bind_cons, length_app. destruct ws; cbn [held_offset length]; lia.
Qed.

(** X9: the channel never holds more offsets than its capacity, the
    number of workers; the offsets leave it in the order they were
    sent, those still in it being the last ones sent, and each offset
    taken from it is with a worker or was fetched, so the feeding loop
    is never more than twice the number of workers ahead of the
    fetches; the channel is closed exactly when the feeding loop is
    over, after the last offset, and a worker leaves its loop only once
    the channel is closed and empty. *)
Theorem pool_channel_fifo n client s :
  rtc (step n client) (pool_init n) s ->
  (length (p_chan s) <= n)%nat /\
  (exists taken,
     p_sent s = taken ++ p_chan s /\
     taken ≡ₚ p_fetched s ++ (p_workers s ≫= held_offset)) /\
  (length (p_sent s) <= length (p_fetched s) + 2 * n)%nat /\
  (p_closed s = true <-> p_main s = MWait) /\
  (p_closed s = true -> p_sent s = all_offsets) /\
  (WDone ∈ p_workers s -> p_closed s = true /\ p_chan s = []).
Proof.
  intros Hreach.
  assert (exists taken, p_sent s = taken ++ p_chan s) as [taken Hs].
  { revert s Hreach. apply rtc_ind_r; [by exists [] |].
    intros s s' _ Hstep IH. by eapply step_fifo. }
  destruct (reachable_inv _ _ _ Hreach) as [Hw Hc Hm Hd Ho _ _ _].
  assert ((p_closed s = true <-> p_main s = MWait) /\
          (p_closed s = true -> p_sent s = all_offsets)) as [Hclosed Hall].
  { destruct (p_main s) as [i |].
    - destruct Hm as (_ & -> & _). by split.
    - destruct Hm as (-> & Hsent). by split. }
  split; [exact Hc |].
  split; [| split; [| split; [exact Hclosed | split; [exact Hall | exact Hd]]]].
  - exists taken. split; [exact Hs |].
    rewrite Hs, app_assoc in Ho. by apply Permutation_app_inv_r in Ho.
  - rewrite Ho, !length_app.
    pose proof (held_offset_length (p_workers s)). lia.
Qed.

(** *** Whole pages *)

Lemma pool_init_pages n client : pages_kept client (pool_init n).
Proof.
  exists [], (replicate n []). cbn. split; [done |]. split.
  - induction n as [| n IH]; cbn; by constructor.
  - induction n as [| n IH]; cbn; [done | exact IH].
Qed.

Lemma pages_split client (pre post : list wstate) ws hs :
  Forall2 (fun ws h => held_records ws = h ≫= page client) (pre ++ ws :: post) hs ->
  exists hpre h hpost,
    hs = hpre ++ h :: hpost /\ held_records ws = h ≫= page client /\
    forall ws' h', held_records ws' = h' ≫= page client ->
      Forall2 (fun ws h => held_records ws = h ≫= page client)
              (pre ++ ws' :: post) (hpre ++ h' :: hpost).
Proof.
  intros (hpre & hrest & Hpre & Hrest & ->)%Forall2_app_inv_l.
  apply Forall2_cons_inv_l in Hrest as (h & hpost & Hh & Hpost & ->).
  exists hpre, h, hpost. split; [done |]. split; [done |].
  intros ws' h' Hh'. apply Forall2_app; [done |]. by constructor.
Qed.

Lemma worker_step_pages n client w s s' :
  pool_inv n client s -> pages_kept client s ->
  worker_step client w s = Some s' -> pages_kept client s'.
Proof.
  intros [_ _ _ _ _ _ _ Hwr] (os & hs & Had & Hhs & Hf).
  unfold worker_step, set_worker.
  destruct s as [m ch cl wks mu ad out sent fet]; pool_fields.
  destruct (wks !! w) as [ws |] eqn:Hlk; [| done].
  destruct (lookup_split _ _ _ Hlk) as (pre & post & -> & Hins). clear Hlk.
  destruct (pages_split _ _ _ _ _ Hhs) as (hpre & h & hpost & -> & Hh & Hnew).
  apply Forall_app in Hwr as [_ [Hws _]%Forall_cons].
  rewrite concat_app, concat_cons in Hf.
  assert (forall os' h' s'',
            p_allData s'' = os' ≫= page client ->
            (exists ws', p_workers s'' = pre ++ ws' :: post /\
                         held_records ws' = h' ≫= page client) ->
            p_fetched s'' ≡ₚ os' ++ concat hpre ++ h' ++ concat hpost ->
            pages_kept client s'') as Hkeep.
  { intros os' h' s'' H1 (ws' & H2 & H3) H4. exists os', (hpre ++ h' :: hpost).
    split; [done |]. split; [rewrite H2; by apply Hnew |].
    by rewrite concat_app, concat_cons. }
  destruct ws as [| o | recs | recs | old recs | |]; cbn [held_records] in Hh.
  - destruct ch as [| o rest].
    + destruct cl; [| done]. intros [= <-]. rewrite Hins.
      apply (Hkeep os h); pool_fields; [done | by exists WDone | done].
    + intros [= <-]. rewrite Hins.
      apply (Hkeep os h); pool_fields; [done | by exists (WFetch o) | done].
  - destruct (fetchBatch o client) as [records err] eqn:Hfetch.
    intros [= <-]. rewrite Hins.
    assert (page client o = records /\ err = None /\ records <> []
            \/ page client o = [] /\
               match err with
               | Some _ => WRecv
               | None => if (length records =? 0)%nat then WRecv
                         else WLock records
               end = WRecv) as Hpage.
    { unfold page. rewrite Hfetch. destruct err; [by right |].
      destruct records; [by right | by left]. }
    destruct Hpage as [(Hp & -> & Hne) | (Hp & ->)].
    + destruct records as [| r records]; [done |].
      change (length (r :: records) =? 0)%nat with false. cbv iota.
      apply (Hkeep (os ++ h) [o]); pool_fields.
      * by rewrite bind_app, <- Hh, app_nil_r.
      * exists (WLock (r :: records)). split; [done |].
        cbn [held_records]. by rewrite bind_cons, Hp, app_nil_r.
      * rewrite Hf. solve_Permutation.
    + apply (Hkeep (os ++ [o]) h); pool_fields.
      * by rewrite bind_app, bind_cons, Hp, !app_nil_r.
      * by exists WRecv.
      * rewrite Hf. solve_Permutation.
  - destruct mu; [done |]. intros [= <-]. rewrite Hins.
    apply (Hkeep os h); pool_fields; [done | by exists (WRead recs) | done].
  - intros [= <-]. rewrite Hins.
    apply (Hkeep os h); pool_fields; [done | by exists (WWrite ad recs) | done].
  - intros [= <-]. rewrite Hins. cbn [reads_current] in Hws. subst old.
    apply (Hkeep (os ++ h) []); pool_fields.
    + by rewrite bind_app, Had, Hh.
    + by exists WUnlock.
    + rewrite Hf. solve_Permutation.
  - intros [= <-]. rewrite Hins.
    apply (Hkeep os h); pool_fields; [done | by exists WRecv | done].
  - done.
Qed.

Lemma reachable_pages n client s :
  rtc (step n client) (pool_init n) s -> pages_kept client s.
Proof.
  revert s. apply rtc_ind_r; [apply pool_init_pages |].
  intros s s' Hreach [[w |] Hstep] IH; cbn [actor_step] in Hstep.
  - eapply worker_step_pages; [by apply reachable_inv | done | done].
  - destruct IH as (os & hs & H1 & H2 & H3). exists os, hs.
    unfold main_step in Hstep. destruct (p_main s) as [i |]; [| done].
    destruct (i <? maxBatches); [destruct (_ <? _)%nat; [| done] |];
      injection Hstep as <-; by cbn.
Qed.

(** When [wg.Wait()] returns the dataset is the pages of all the
    offsets, laid end to end in some order of the offsets. *)
Lemma pool_done_pages n client s :
  rtc (step n client) (pool_init n) s -> pool_done s = true ->
  exists os, os ≡ₚ all_offsets /\ p_allData s = os ≫= page client.
Proof.
  intros Hreach Hdone.
  destruct (reachable_pages _ _ _ Hreach) as (os & hs & Had & Hhs & Hf).
  destruct (pool_done_final _ _ _ (reachable_inv _ _ _ Hreach) Hdone)
    as (_ & _ & Hall & _).
  destruct (pool_done_workers _ Hdone) as [_ Hws].
  assert (concat hs ≫= page client = []) as Hnone.
  { clear Hf. induction Hhs as [| ws h wks hs Hh _ IH]; [done |].
    apply Forall_cons in Hws as [-> Hws].
    cbn [concat held_records] in *. by rewrite bind_app, <- Hh, IH. }
  exists (os ++ concat hs). split; [by rewrite <- Hf |].
  by rewrite bind_app, Hnone, app_nil_r.
Qed.

Lemma actor_step_grows n client a s s' :
  pool_inv n client s -> actor_step n client a s = Some s' ->
  p_allData s `prefix_of` p_allData s'.
Proof.
  intros [_ _ _ _ _ _ _ Hwr] Hstep.
  destruct (actor_step_allData _ _ _ _ _ Hstep)
    as [-> | (w & old & recs & -> & Hw & ->)]; [done |].
  rewrite Forall_lookup in Hwr. specialize (Hwr _ _ Hw). cbn in Hwr. subst old.
  by apply prefix_app_r.
Qed.

(** X10: the dataset only grows, by whole pages.  From a state the
    pool can reach, whatever happens next keeps the records that are in
    [allData], in their places; at every moment [allData] is the pages
    of some of the offsets fetched so far, each page unbroken and in the
    order the service gave; and when [wg.Wait()] returns it is the pages
    of all the offsets, laid end to end in some order of the offsets. *)
Theorem pool_dataset_grows_by_pages n client s :
  rtc (step n client) (pool_init n) s ->
  (forall s', rtc (step n client) s s' -> p_allData s `prefix_of` p_allData s') /\
  (exists os, os ⊆+ p_fetched s /\ p_allData s = os ≫= page client) /\
  (pool_done s = true ->
   exists os, os ≡ₚ all_offsets /\ p_allData s = os ≫= page client).
Proof.
  intros Hreach. split; [| split].
  - intros s' Hnext. induction Hnext as [s | s s1 s' [a Hstep] Hnext IH]; [done |].
    etrans; [eapply actor_step_grows; [by apply reachable_inv | done] |].
    apply IH. eapply rtc_r; [done | by exists a].
  - destruct (reachable_pages _ _ _ Hreach) as (os & hs & Had & _ & Hf).
    exists os. split; [| done]. rewrite Hf. by apply submseteq_inserts_r.
  - by apply (pool_done_pages n).
Qed.

(** *** The lines printed *)

Lemma step_stdout n client s s' :
  p_stdout s = ("Starting data fetch..." +:+ nl) :: (p_fetched s ≫= error_line client) ->
  step n client s s' ->
  p_stdout s' = ("Starting data fetch..." +:+ nl) :: (p_fetched s' ≫= error_line client).
Proof.
  intros Hs [[w |] Hstep]; cbn [actor_step] in Hstep.
  - unfold worker_step, set_worker in Hstep.
    destruct (p_workers s !! w) as [ws |]; [| done].
    destruct ws as [| o | recs | recs | old recs | |]; try done.
    + destruct (p_chan s); [destruct (p_closed s); [| done] |];
        injection Hstep as <-; by cbn.
    + unfold error_line in *.
      destruct (fetchBatch o client) as [records err] eqn:Hf.
      injection Hstep as <-. cbn [p_stdout p_fetched].
      rewrite bind_app, bind_cons, Hf, Hs. cbn [mbind list_bind].
      rewrite app_nil_r. by destruct err.
    + destruct (p_mu s); [done |]. injection Hstep as <-. by cbn.
    + injection Hstep as <-. by cbn.
    + injection Hstep as <-. by cbn.
    + injection Hstep as <-. by cbn.
  - unfold main_step in Hstep. destruct (p_main s) as [i |]; [| done].
    destruct (i <? maxBatches); [destruct (_ <? _)%nat; [| done] |];
      injection Hstep as <-; by cbn.
Qed.

Lemma reachable_stdout n client s :
  rtc (step n client) (pool_init n) s ->
  p_stdout s = ("Starting data fetch..." +:+ nl) :: (p_fetched s ≫= error_line client).
Proof.
  revert s. apply rtc_ind_r; [done |].
  intros s s' _ Hstep IH. by eapply step_stdout.
Qed.

(** X11: when [wg.Wait()] returns, what has been printed is the line
    that the fetch starts and after it one line for each offset whose
    fetch failed, naming the offset and the cause, and nothing for an
    offset that gave a page: every failure is reported, once, and
    nothing else is; the lines of different workers come in the order
    the schedule gave them. *)
Theorem pool_reports_each_failure n client s :
  rtc (step n client) (pool_init n) s -> pool_done s = true ->
  exists lines,
    p_stdout s = ("Starting data fetch..." +:+ nl) :: lines /\
    lines ≡ₚ all_offsets ≫= error_line client /\
    (forall o e, fetchBatch o client = ([], Some e) ->
       error_line client o
       = ["Error fetching offset " +:+ itoa o +:+ ": " +:+ Error e +:+ nl]) /\
    (forall o records, fetchBatch o client = (records, None) ->
       error_line client o = []) /\
    (forall line,
       line ∈ lines <->
       exists o e, o ∈ all_offsets /\ (fetchBatch o client).2 = Some e /\
                   line = "Error fetching offset " +:+ itoa o +:+ ": "
                          +:+ Error e +:+ nl).
Proof.
  intros Hreach Hdone.
  pose proof (reachable_stdout _ _ _ Hreach) as Hout.
  destruct (pool_done_final _ _ _ (reachable_inv _ _ _ Hreach) Hdone)
    as (_ & _ & Hall & _).
  exists (p_fetched s ≫= error_line client).
  split; [exact Hout |]. split; [by rewrite Hall |]. split; [| split].
  - intros o e Hf. unfold error_line. by rewrite Hf.
  - intros o records Hf. unfold error_line. by rewrite Hf.
  - intros line. rewrite Hall, list_elem_of_bind. split.
    + intros (o & Hline & Ho). exists o. unfold error_line in Hline.
      destruct (fetchBatch o client) as [records [e |]];
        [| by apply elem_of_nil in Hline].
      apply list_elem_of_singleton in Hline. by exists e.
    + intros (o & e & Ho & Hf & ->). exists o. split; [| done].
      unfold error_line. destruct (fetchBatch o client) as [records err].
      cbn in Hf. subst err. apply list_elem_of_singleton. done.
Qed.

(** ** The schedule and the number of workers *)

(** X17: the outcome of the pool does not depend on the schedule or on
    the number of workers, the order apart: two runs against the same
    service, each to the return of [wg.Wait()], fetch the same offsets,
    end with the same records and print the same lines, each as often
    in one as in the other. *)
Theorem pool_outcome_up_to_order n1 n2 client s1 s2 :
  rtc (step n1 client) (pool_init n1) s1 -> pool_done s1 = true ->
  rtc (step n2 client) (pool_init n2) s2 -> pool_done s2 = true ->
  p_sent s1 = p_sent s2 /\
  p_fetched s1 ≡ₚ p_fetched s2 /\
  p_allData s1 ≡ₚ p_allData s2 /\
  length (p_allData s1) = length (p_allData s2) /\
  p_stdout s1 ≡ₚ p_stdout s2.
Proof.
  intros Hr1 Hd1 Hr2 Hd2.
  destruct (pool_done_final _ _ _ (reachable_inv _ _ _ Hr1) Hd1)
    as (Hs1 & _ & Hf1 & Ha1).
  destruct (pool_done_final _ _ _ (reachable_inv _ _ _ Hr2) Hd2)
    as (Hs2 & _ & Hf2 & Ha2).
  assert (p_allData s1 ≡ₚ p_allData s2) as Hdata by (by rewrite Ha1, Ha2, Hf1, Hf2).
  split; [by rewrite Hs1, Hs2 |]. split; [by rewrite Hf1, Hf2 |].
  split; [exact Hdata |]. split; [by rewrite Hdata |].
  by rewrite (reachable_stdout _ _ _ Hr1), (reachable_stdout _ _ _ Hr2), Hf1, Hf2.
Qed.

(** *** One worker *)

Lemma single_worker_step client s s' :
  pool_inv 1 client s ->
  (exists ws, p_workers s = [ws] /\
     p_sent s = p_fetched s ++ held_offset ws ++ p_chan s /\
     p_fetched s ≫= page client = p_allData s ++ held_records ws) ->
  step 1 client s s' ->
  exists ws, p_workers s' = [ws] /\
    p_sent s' = p_fetched s' ++ held_offset ws ++ p_chan s' /\
    p_fetched s' ≫= page client = p_allData s' ++ held_records ws.
Proof.
  intros [_ _ _ _ _ _ _ Hwr] (ws & Hws & Hsent & Hdata) [[w |] Hstep];
    cbn [actor_step] in Hstep.
  - unfold worker_step, set_worker in Hstep. rewrite Hws in Hstep, Hwr.
    destruct w as [| w]; [| done]. cbn [lookup list_lookup insert list_insert] in Hstep.
    apply Forall_cons in Hwr as [Hread _].
    destruct ws as [| o | recs | recs | old recs | |];
      cbn [held_offset held_records reads_current] in *.
    + destruct (p_chan s) as [| o rest].
      * destruct (p_closed s); [| done]. injection Hstep as <-. cbn.
        by exists WDone.
      * injection Hstep as <-. cbn. by exists (WFetch o).
    + destruct (fetchBatch o client) as [records err] eqn:Hf.
      injection Hstep as <-. cbn [p_workers p_sent p_fetched p_chan p_allData].
      eexists. split; [done |].
      assert (page client o = match err with Some _ => [] | None => records end)
        as Hp by (unfold page; rewrite Hf; by destruct err).
      rewrite bind_app, bind_cons, Hp, Hdata, Hsent. cbn [mbind list_bind].
      rewrite !app_nil_r, <- !app_assoc.
      destruct err; [done |]. by destruct records.
    + destruct (p_mu s); [done |]. injection Hstep as <-. cbn. by exists (WRead recs).
    + injection Hstep as <-. cbn. by exists (WWrite (p_allData s) recs).
    + injection Hstep as <-. cbn. exists WUnlock. subst old.
      by rewrite Hdata, !app_nil_r.
    + injection Hstep as <-. cbn. by exists WRecv.
    + done.
  - unfold main_step in Hstep. destruct (p_main s) as [i |]; [| done].
    destruct (i <? maxBatches).
    + destruct (_ <? _)%nat; [| done]. injection Hstep as <-. cbn.
      exists ws. by rewrite Hsent, <- !app_assoc.
    + injection Hstep as <-. cbn. by exists ws.
Qed.

(** X18: with one worker nothing is left to the schedule: when
    [wg.Wait()] returns the offsets were fetched in the order they were
    sent, the dataset is the pages laid end to end in the order of the
    offsets, and the lines of the failed fetches stand in that order. *)
Theorem pool_single_worker_in_order client s :
  rtc (step 1 client) (pool_init 1) s -> pool_done s = true ->
  p_fetched s = all_offsets /\
  p_allData s = all_offsets ≫= page client /\
  p_stdout s = ("Starting data fetch..." +:+ nl) :: (all_offsets ≫= error_line client).
Proof.
  intros Hreach Hdone.
  assert (exists ws, p_workers s = [ws] /\
            p_sent s = p_fetched s ++ held_offset ws ++ p_chan s /\
            p_fetched s ≫= page client = p_allData s ++ held_records ws)
    as (ws & Hws & Hsent & Hdata).
  { clear Hdone. revert s Hreach. apply rtc_ind_r; [by exists WRecv |].
    intros s s' Hreach Hstep IH.
    eapply single_worker_step; [by apply reachable_inv | done | done]. }
  destruct (pool_done_final _ _ _ (reachable_inv _ _ _ Hreach) Hdone)
    as (Hall & Hch & _ & _).
  destruct (pool_done_workers _ Hdone) as [_ Hw]. rewrite Hws in Hw.
  apply Forall_cons in Hw as [-> _]. cbn [held_offset held_records] in *.
  rewrite Hch, Hall, !app_nil_r in Hsent. rewrite app_nil_r in Hdata.
  split; [done |]. split; [by rewrite Hsent, Hdata |].
  by rewrite (reachable_stdout _ _ _ Hreach), <- Hsent.
Qed.

(** ** The writing phase: failures, and the rows of a record *)



(** X13: with records to save, [main] panics exactly when the
    directory cannot be made, the file cannot be created or the header
    cannot be written, with the error of that call; by then it has
    printed the number of records and nothing after it, and no row is in
    the file. *)
Theorem save_panics env allData stdout :
  allData <> [] ->
  let counted :=
    stdout ++ ["Fetched " +:+ itoa (Z.of_nat (length allData))
               +:+ " total records." +:+ nl] in
  (forall e, mkdirAll_err env = Some e ->
     save env allData stdout = Outcome counted None None (Some (OsError e))) /\
  (forall e, mkdirAll_err env = None -> create_err env = Some e ->
     save env allData stdout
     = Outcome counted (Some outputDir) None (Some (OsError e))) /\
  (forall e, mkdirAll_err env = None -> create_err env = None ->
     write_err env 0 = Some e ->
     save env allData stdout
     = Outcome counted (Some outputDir)
               (Some (outputDir +:+ "/" +:+ outputFile, [])) (Some (CsvError e))) /\
  (o_panic (save env allData stdout) = None <->
   mkdirAll_err env = None /\ create_err env = None /\ write_err env 0 = None).
Proof.
  intros Hne. cbv zeta. unfold save.
  destruct allData as [| r data]; [done |].
  change (0 <? length (r :: data))%nat with true. cbv iota.
  repeat split.
  - by intros e ->.
  - by intros e -> ->.
  - by intros e -> -> ->.
  - destruct (mkdirAll_err env); [done |]. destruct (create_err env); [done |].
    destruct (write_err env 0); done.
  - destruct (mkdirAll_err env); [done |]. destruct (create_err env); [done |].
    destruct (write_err env 0); done.
  - destruct (mkdirAll_err env); [done |]. destruct (create_err env); [done |].
    destruct (write_err env 0); done.
  - intros (-> & -> & ->). by destruct (write_rows env 1 (r :: data)).
Qed.

(** X14: a row depends on the record through the 18 columns of the
    schema only: two records that agree on them give the same row,
    whatever else they hold. *)
Theorem build_row_schema_only (r1 r2 : record) :
  Forall (fun key => r1 !! key = r2 !! key) csvHeaders ->
  build_row r1 = build_row r2.
Proof.
  intros Hagree. rewrite !build_row_cells. apply map_ext_in.
  intros key Hin%list_elem_of_In. rewrite Forall_forall in Hagree.
  unfold record_get. by rewrite (Hagree key Hin).
Qed.


(** * The writer and the file *)

(** ** The buffer of the writer *)

Lemma holds_error b t s :
  is_Some (b_err b) -> holds b t -> holds b (t ++ s).
Proof.
  intros [e He] [Hlen Hb]. split; [done |]. rewrite He in *.
  by apply prefix_app_r.
Qed.

Lemma Flush_spec fs b t :
  holds b t ->
  (Flush fs b).1 = b_err (Flush fs b).2 /\
  holds (Flush fs b).2 t /\
  (b_err (Flush fs b).2 = None ->
   b_buf (Flush fs b).2 = [] /\ b_file (Flush fs b).2 = t) /\
  (file_ok fs -> b_err b = None -> b_err (Flush fs b).2 = None).
Proof.
  destruct b as [buf err file calls]. intros [Hlen Hb]. cbn in Hlen, Hb.
  unfold Flush, file_Write. cbn [b_buf b_err b_file b_calls].
  destruct err as [e |]; [by cbn; repeat (split; [done |]) |].
  destruct (Nat.eqb_spec (length buf) 0) as [H0 | H0].
  { apply nil_length_inv in H0. subst buf. rewrite app_nil_r in Hb.
    cbn. split; [done |]. split; [by split; cbn; [lia | rewrite app_nil_r] |]. done. }
  destruct (fs_write fs calls) as [[n e] |] eqn:Hw.
  - cbn [fst snd b_buf b_err b_file b_calls]. repeat split; try done.
    + cbn. rewrite length_drop. lia.
    + cbn. subst t. apply prefix_app, prefix_take.
    + intros Hok. by rewrite Hok in Hw.
  - rewrite Nat.ltb_irrefl. cbn [fst snd b_buf b_err b_file b_calls].
    rewrite firstn_all. repeat split; try done.
    + cbn. lia.
    + cbn. by rewrite app_nil_r.
Qed.

Lemma WriteByte_emits fs c : emits fs (WriteByte fs c) (String c "").
Proof.
  intros b t Hb. cbn [list_ascii_of_string]. unfold WriteByte.
  destruct (b_err b) as [e |] eqn:He.
  { cbn [fst snd]. split; [by apply holds_error | ]. split; [congruence | done]. }
  destruct (Nat.leb_spec (Available b) 0) as [Hfull | Hroom].
  - destruct (Flush_spec fs b t Hb) as (Hr & Hh & Hnone & Hok).
    destruct (Flush fs b) as [[e |] b'] eqn:Hf; cbn [fst snd] in *.
    + split; [apply holds_error; [by rewrite <- Hr | done] |].
      split; [by intros e' <- |].
      intros Hfs _. specialize (Hok Hfs He). congruence.
    + symmetry in Hr. destruct (Hnone Hr) as [Hbuf Hfile].
      rewrite Hbuf, Hr. repeat split; cbn; try done.
      * unfold defaultBufSize. lia.
      * by rewrite Hfile.
  - destruct Hb as [Hlen Hb]. rewrite He in Hb. unfold Available in Hroom.
    repeat split; cbn; try done.
    + rewrite length_app. cbn. lia.
    + by rewrite app_assoc, Hb.
Qed.

Lemma WriteByte_sticky fs c : sticky (WriteByte fs c).
Proof. intros b e He. unfold WriteByte. by rewrite He. Qed.

Lemma loop_over_stop fs fuel s b :
  loop_over s b -> WriteString_loop fs (S fuel) s b = (s, b).
Proof. unfold loop_over. intros H. cbn [WriteString_loop]. by rewrite H. Qed.

Lemma loop_over_error s b : is_Some (b_err b) -> loop_over s b.
Proof.
  intros H. unfold loop_over. rewrite (bool_decide_eq_true_2 _ H).
  apply andb_false_r.
Qed.

Lemma loop_over_nil b : loop_over [] b.
Proof.
  unfold loop_over. cbn [length].
  by rewrite (proj2 (Nat.ltb_ge (Available b) 0)) by lia.
Qed.

(** One turn of the loop of [WriteString]: the text taken from the
    front of [s] is held by the writer, and either the loop is over or
    the buffer is empty. *)
Lemma WriteString_turn fs s b t :
  holds b t -> ~ loop_over s b ->
  exists n b',
    (forall fuel, WriteString_loop fs (S fuel) s b
                  = WriteString_loop fs fuel (drop n s) b') /\
    holds b' (t ++ take n s) /\
    (file_ok fs -> b_err b' = None) /\
    (loop_over (drop n s) b' \/ (Buffered b <> 0%nat /\ Buffered b' = 0%nat)).
Proof.
  intros Hb Hgo. unfold loop_over in Hgo.
  apply not_false_is_true, andb_true_iff in Hgo as [Hlt Herr].
  apply negb_true_iff, bool_decide_eq_false in Herr.
  assert (b_err b = None) as He by (by destruct (b_err b); [destruct Herr |]).
  destruct (Nat.eqb_spec (Buffered b) 0) as [H0 | H0].
  - (* the text goes to the file as it is *)
    unfold Buffered in H0. apply nil_length_inv in H0.
    destruct Hb as [Hlen Hb]. rewrite He, H0, app_nil_r in Hb.
    destruct (fs_write fs (b_calls b)) as [[n e] |] eqn:Hw.
    + exists (Nat.min n (length s)),
        (Bufio (b_buf b) (Some e) (b_file b ++ take (Nat.min n (length s)) s)
               (S (b_calls b))).
      split; [| split; [| split]].
      * intros fuel. cbn [WriteString_loop]. rewrite Hlt.
        rewrite (bool_decide_eq_false_2 _ Herr). cbn [negb andb].
        unfold Buffered. rewrite !H0. cbn [length Nat.eqb].
        unfold file_Write. rewrite Hw. cbn [b_buf b_err b_file b_calls]. by rewrite ?H0.
      * split; [exact Hlen |]. cbn. rewrite Hb. by apply prefix_app.
      * intros Hok. by rewrite Hok in Hw.
      * left. by apply loop_over_error.
    + exists (length s),
        (Bufio (b_buf b) None (b_file b ++ take (length s) s) (S (b_calls b))).
      split; [| split; [| split]].
      * intros fuel. cbn [WriteString_loop]. rewrite Hlt.
        rewrite (bool_decide_eq_false_2 _ Herr). cbn [negb andb].
        unfold Buffered. rewrite !H0. cbn [length Nat.eqb].
        unfold file_Write. rewrite Hw. cbn [b_buf b_err b_file b_calls]. by rewrite ?H0.
      * split; [exact Hlen |]. cbn. by rewrite H0, app_nil_r, Hb.
      * done.
      * left. rewrite drop_all. apply loop_over_nil.
  - (* the buffer is filled and flushed *)
    set (n := Nat.min (Available b) (length s)).
    set (b1 := Bufio (b_buf b ++ take n s) (b_err b) (b_file b) (b_calls b)).
    assert (holds b1 (t ++ take n s)) as Hb1.
    { destruct Hb as [Hlen Hb]. rewrite He in Hb. split.
      - cbn. rewrite length_app, length_take. subst n.
        unfold Available, defaultBufSize in *. lia.
      - cbn. rewrite He. by rewrite app_assoc, Hb. }
    destruct (Flush_spec fs b1 _ Hb1) as (Hr & Hh & Hnone & Hok).
    exists n, (Flush fs b1).2. split; [| split; [| split]].
    + intros fuel. cbn [WriteString_loop]. rewrite Hlt.
      rewrite (bool_decide_eq_false_2 _ Herr). cbn [negb andb].
      by destruct (Nat.eqb_spec (Buffered b) 0).
    + done.
    + intros Hfs. by apply Hok.
    + destruct (b_err (Flush fs b1).2) as [e |] eqn:He'.
      * left. apply loop_over_error. by rewrite He'.
      * right. split; [done |]. unfold Buffered.
        by rewrite (proj1 (Hnone eq_refl)).
Qed.

Lemma loop_over_dec s b : loop_over s b \/ ~ loop_over s b.
Proof. unfold loop_over. destruct (_ && _); [by right | by left]. Qed.

(** The loop of [WriteString] ends within two turns: what it gives
    with three units of fuel it gives with any more. *)
Lemma WriteString_loop_ends fs l b t :
  holds b t ->
  exists done rest b',
    (forall k, WriteString_loop fs (3 + k) l b = (rest, b')) /\
    l = done ++ rest /\
    holds b' (t ++ done) /\ loop_over rest b' /\
    (file_ok fs -> b_err b = None -> b_err b' = None).
Proof.
  intros Hb.
  destruct (loop_over_dec l b) as [Hover | Hgo].
  { exists [], l, b. rewrite app_nil_r.
    split_and!; try done. intros k. by apply loop_over_stop. }
  destruct (WriteString_turn fs l b t Hb Hgo) as (n1 & b1 & Hrun1 & Hb1 & Hok1 & H1).
  destruct (loop_over_dec (drop n1 l) b1) as [Hover | Hgo1].
  { exists (take n1 l), (drop n1 l), b1. rewrite take_drop.
    split_and!; try done.
    - intros k. cbn [Nat.add]. rewrite Hrun1. by apply loop_over_stop.
    - intros Hfs _. by apply Hok1. }
  destruct H1 as [? | [_ H1]]; [done |].
  destruct (WriteString_turn fs _ b1 _ Hb1 Hgo1) as (n2 & b2 & Hrun2 & Hb2 & Hok2 & H2).
  destruct H2 as [Hover | [H2 _]]; [| done].
  exists (take n1 l ++ take n2 (drop n1 l)), (drop n2 (drop n1 l)), b2.
  split_and!; try done.
  - intros k. cbn [Nat.add]. rewrite Hrun1, Hrun2.
    by apply loop_over_stop.
  - by rewrite <- app_assoc, take_drop, take_drop.
  - by rewrite app_assoc.
  - intros Hfs _. by apply Hok2.
Qed.

Lemma WriteString_emits fs s : emits fs (WriteString fs s) s.
Proof.
  intros b t Hb. unfold WriteString.
  destruct (WriteString_loop_ends fs (list_ascii_of_string s) b t Hb)
    as (done & rest & b' & Hrun & Hs & Hb' & Hover & Hok).
  specialize (Hrun 0%nat). cbn [Nat.add] in Hrun. rewrite Hrun, Hs.
  destruct (b_err b') as [e |] eqn:He.
  - cbn [fst snd]. split; [| split].
    + rewrite app_assoc. apply holds_error; [by rewrite He | done].
    + by intros e' [= <-].
    + intros Hfs Hnone. specialize (Hok Hfs Hnone). congruence.
  - cbn [fst snd]. unfold loop_over in Hover. rewrite He in Hover.
    rewrite bool_decide_eq_false_2, andb_true_r in Hover
      by (by intros [? ?]).
    apply Nat.ltb_ge in Hover. unfold Available in Hover.
    destruct Hb' as [Hlen Hb']. rewrite He in Hb'.
    split; [| split]; [| done | done].
    split; cbn.
    + rewrite length_app. lia.
    + by rewrite (app_assoc (b_file b')), Hb', <- app_assoc.
Qed.

Lemma WriteString_sticky fs s : sticky (WriteString fs s).
Proof.
  intros b e He. unfold WriteString.
  rewrite loop_over_stop by (apply loop_over_error; by rewrite He).
  by rewrite He.
Qed.

(** ** The lines of the file *)

Lemma emits_nil fs : emits fs op_nil "".
Proof. intros b t Hb. cbn. rewrite app_nil_r. by split_and!. Qed.

Lemma emits_then fs f g s1 s2 :
  emits fs f s1 -> emits fs g s2 -> emits fs (op_then f g) (s1 +:+ s2).
Proof.
  intros Hf Hg b t Hb. unfold op_then. rewrite list_ascii_app, app_assoc.
  destruct (Hf b t Hb) as (Hh & He & Hok).
  destruct (f b) as [[e |] b1]; cbn [fst snd] in *.
  - split_and!.
    + apply holds_error; [| done]. by rewrite (He e eq_refl).
    + intros e' [= <-]. by apply He.
    + intros Hfs Hnone. by destruct (Hok Hfs Hnone).
  - destruct (Hg b1 _ Hh) as (Hh2 & He2 & Hok2). split_and!; try done.
    intros Hfs Hnone. destruct (Hok Hfs Hnone) as [_ H1]. by apply Hok2.
Qed.

Lemma emits_text fs op s s' : s = s' -> emits fs op s -> emits fs op s'.
Proof. by intros ->. Qed.

Lemma sticky_then f g : sticky f -> sticky (op_then f g).
Proof. intros Hf b e He. unfold op_then. by rewrite (Hf b e He). Qed.

Lemma sticky_nil_then g : sticky g -> sticky (op_then op_nil g).
Proof. intros Hg b e He. unfold op_then, op_nil. by apply Hg. Qed.

Lemma span_plain_spec field :
  field = (span_plain field).1 +:+ (span_plain field).2 /\
  csv_escape field = (span_plain field).1 +:+ csv_escape (span_plain field).2 /\
  (String.length (span_plain field).2 <= String.length field)%nat /\
  match (span_plain field).2 with
  | "" => True
  | String c _ => c = quote \/ c = cr \/ c = lf
  end.
Proof.
  induction field as [| c field IH]; [done |].
  cbn [span_plain].
  destruct (Ascii.eqb c quote || Ascii.eqb c cr || Ascii.eqb c lf) eqn:Hsp.
  { cbn [fst snd]. rewrite !string_app_nil_l. split_and!; [done | done | lia |].
    apply orb_true_iff in Hsp as [Hsp | Hsp];
      [apply orb_true_iff in Hsp as [Hsp | Hsp] |];
      apply Ascii.eqb_eq in Hsp; auto. }
  apply orb_false_iff in Hsp as [Hsp _].
  apply orb_false_iff in Hsp as [Hq _].
  destruct (span_plain field) as [plain rest]. cbn [fst snd] in *.
  destruct IH as (Hf & He & Hlen & Hc). split_and!.
  - by rewrite string_app_cons, <- Hf.
  - cbn [csv_escape]. rewrite Hq. by rewrite string_app_cons, <- He.
  - cbn [String.length]. lia.
  - done.
Qed.

Lemma write_quoted_emits fs fuel field :
  (String.length field < fuel)%nat ->
  emits fs (write_quoted fs fuel field) (csv_escape field).
Proof.
  revert field. induction fuel as [| fuel IH]; intros field Hlen; [lia |].
  destruct field as [| a field0]; [apply emits_nil |].
  set (field := String a field0) in *.
  cbn [write_quoted]. fold field.
  destruct (span_plain_spec field) as (_ & Hesc & Hl & Hc).
  destruct (span_plain field) as [plain rest]. cbn [fst snd] in *.
  rewrite Hesc. apply emits_then; [apply WriteString_emits |].
  destruct rest as [| c rest]; [apply emits_nil |].
  assert (String.length rest < fuel)%nat as Hrest
    by (cbn [String.length] in Hl; lia).
  destruct Hc as [-> | [-> | ->]].
  - change (Ascii.eqb quote quote) with true. cbv iota.
    apply (emits_text _ _ (String quote (String quote "") +:+ csv_escape rest));
      [done |].
    apply emits_then; [apply WriteString_emits | by apply IH].
  - change (Ascii.eqb cr quote) with false. cbv iota.
    apply (emits_text _ _ (String cr "" +:+ csv_escape rest)); [done |].
    apply emits_then; [apply WriteByte_emits | by apply IH].
  - change (Ascii.eqb lf quote) with false. cbv iota.
    apply (emits_text _ _ (String lf "" +:+ csv_escape rest)); [done |].
    apply emits_then; [apply WriteByte_emits | by apply IH].
Qed.

Lemma write_fields_emits fs n record :
  emits fs (write_fields fs n record) (fields_text n record).
Proof.
  revert n. induction record as [| field rest IH]; intros n;
    [apply emits_nil |].
  cbn [write_fields fields_text]. apply emits_then.
  { destruct (0 <? n)%nat; [apply WriteByte_emits | apply emits_nil]. }
  apply emits_then; [| apply IH].
  unfold csv_field. destruct (fieldNeedsQuotes field); cbn [negb].
  - apply (emits_text _ _
             (String quote "" +:+ csv_escape field +:+ String quote ""));
      [done |].
    apply emits_then; [apply WriteByte_emits |].
    apply emits_then; [| apply WriteByte_emits].
    apply write_quoted_emits. lia.
  - apply WriteString_emits.
Qed.

Lemma fields_text_S n m record :
  fields_text (S n) record = fields_text (S m) record.
Proof.
  revert n m. induction record as [| field rest IH]; intros n m; [done |].
  cbn [fields_text]. change (0 <? S n)%nat with true.
  change (0 <? S m)%nat with true. by rewrite (IH (S n) (S m)).
Qed.

Lemma concat_fields x record :
  String.concat "," (x :: map csv_field record) = x +:+ fields_text 1 record.
Proof.
  revert x. induction record as [| field rest IH]; intros x.
  - cbn. by rewrite string_app_nil_r.
  - change (String.concat "," (x :: map csv_field (field :: rest)))
      with (x +:+ "," +:+ String.concat "," (csv_field field :: map csv_field rest)).
    rewrite IH. cbn [fields_text]. change (0 <? 1)%nat with true. cbv iota.
    by rewrite (fields_text_S 1 0).
Qed.

Lemma fields_text_line record :
  fields_text 0 record +:+ String lf "" = csv_line record.
Proof.
  unfold csv_line. destruct record as [| field rest]; [done |].
  cbn [map]. rewrite concat_fields. cbn [fields_text].
  change (0 <? 0)%nat with false. cbv iota. by rewrite string_app_nil_l.
Qed.

(** [writer.Write(record)] writes the line of the record. *)
Lemma csv_Write_emits fs record : emits fs (csv_Write fs record) (csv_line record).
Proof.
  rewrite <- fields_text_line. unfold csv_Write.
  apply emits_then; [apply write_fields_emits | apply WriteByte_emits].
Qed.

(** Once the writer has stopped on an error, [writer.Write] returns
    that error and writes nothing. *)
Lemma csv_Write_sticky fs record : sticky (csv_Write fs record).
Proof.
  unfold csv_Write. destruct record as [| field rest].
  { apply sticky_nil_then, WriteByte_sticky. }
  apply sticky_then. cbn [write_fields].
  assert (sticky (if negb (fieldNeedsQuotes field) then WriteString fs field
                  else op_then (WriteByte fs quote)
                         (op_then (write_quoted fs (S (String.length field)) field)
                                  (WriteByte fs quote)))) as Hfield.
  { destruct (fieldNeedsQuotes field); cbn [negb].
    - apply sticky_then, WriteByte_sticky.
    - apply WriteString_sticky. }
  change (0 <? 0)%nat with false. cbv iota.
  by apply sticky_nil_then, sticky_then.
Qed.

Lemma WriteByte_exact fs c b t :
  holds b t -> (WriteByte fs c b).1 = b_err (WriteByte fs c b).2.
Proof.
  intros Hb. unfold WriteByte. destruct (b_err b) as [e |] eqn:He; [done |].
  destruct (Available b <=? 0)%nat; [| done].
  destruct (Flush_spec fs b t Hb) as (Hr & _).
  by destruct (Flush fs b) as [[e |] b'].
Qed.

(** [writer.Write] returns the error the writer stands on after it, or
    nil when there is none. *)
Lemma csv_Write_exact fs record b t :
  holds b t -> (csv_Write fs record b).1 = b_err (csv_Write fs record b).2.
Proof.
  intros Hb. unfold csv_Write, op_then.
  destruct (write_fields_emits fs 0 record b t Hb) as (Hh & He & _).
  destruct (write_fields fs 0 record b) as [[e |] b1]; cbn [fst snd] in *.
  - by rewrite (He e eq_refl).
  - by eapply WriteByte_exact.
Qed.

(** ** [main] on the writer *)

Lemma string_of_list_ascii_app l1 l2 :
  string_of_list_ascii (l1 ++ l2)
  = string_of_list_ascii l1 +:+ string_of_list_ascii l2.
Proof.
  induction l1 as [| c l1 IH]; [done |].
  cbn [app string_of_list_ascii]. by rewrite IH, string_app_cons.
Qed.

(** The header fits in the buffer: its write cannot fail, and nothing
    of it is in the file yet. *)
Lemma header_written fs : csv_Write fs csvHeaders NewWriter = (None, header_writer).
Proof. vm_compute. reflexivity. Qed.

Lemma header_writer_holds :
  holds header_writer (list_ascii_of_string (csv_line csvHeaders)).
Proof. split; [apply Nat.leb_le; vm_compute; reflexivity | done]. Qed.

(** Once the writer has stopped on an error every further record
    fails with it. *)
Lemma write_records_error fs data b e :
  b_err b = Some e ->
  write_records fs data b
  = (replicate (length data) ("Error writing record to CSV: " +:+ e +:+ nl), b).
Proof.
  intros He. induction data as [| r data IH]; [done |].
  cbn [write_records].
  by rewrite (csv_Write_sticky fs (build_row r) b e He), IH.
Qed.

Lemma write_records_results fs data b :
  (write_records fs data b).1
  = omap (fmap (fun e => "Error writing record to CSV: " +:+ e +:+ nl))
         (write_results fs (map build_row data) b).
Proof.
  revert b. induction data as [| r data IH]; intros b; [done |].
  cbn [write_records map write_results]. specialize (IH (csv_Write fs (build_row r) b).2).
  destruct (csv_Write fs (build_row r) b) as [err b1]. cbn [fst snd] in IH.
  destruct (write_records fs data b1) as [log b2]. cbn [fst snd] in *.
  rewrite IH. by destruct err.
Qed.

Lemma write_results_length fs rows b :
  length (write_results fs rows b) = length rows.
Proof.
  revert b. induction rows as [| row rows IH]; intros b; [done |].
  cbn [write_results]. specialize (IH (csv_Write fs row b).2).
  destruct (csv_Write fs row b) as [err b1]. cbn [length fst snd] in *.
  by rewrite IH.
Qed.

Lemma write_results_error fs rows b e :
  b_err b = Some e ->
  write_results fs rows b = replicate (length rows) (Some e).
Proof.
  intros He. induction rows as [| row rows IH]; [done |].
  cbn [write_results]. rewrite (csv_Write_sticky fs row b e He).
  by rewrite IH.
Qed.

(** The calls of [writer.Write] return nil up to some call, and the
    same error from then on; and nil at every call on a file that takes
    every write. *)
Lemma write_results_shape fs rows b t :
  holds b t ->
  (exists (j k : nat) (e : string), (j + k)%nat = length rows /\
     write_results fs rows b = replicate j None ++ replicate k (Some e)) /\
  (file_ok fs -> b_err b = None ->
   write_results fs rows b = replicate (length rows) None).
Proof.
  revert b t. induction rows as [| row rows IH]; intros b t Hb.
  { split; [by exists 0%nat, 0%nat, "" | done]. }
  cbn [write_results].
  destruct (csv_Write_emits fs row b t Hb) as (Hh & He & Hok).
  pose proof (csv_Write_exact fs row b t Hb) as Hex.
  destruct (csv_Write fs row b) as [err b1]. cbn [fst snd] in *.
  destruct (IH b1 _ Hh) as ((j & k & e & Hjk & Hres) & Hall). split.
  - destruct err as [e' |].
    + exists 0%nat, (S (length rows)), e'. split; [done |].
      by rewrite (write_results_error fs rows b1 e').
    + exists (S j), k, e. split; [cbn [length]; lia | by rewrite Hres].
  - intros Hfs Hnone. destruct (Hok Hfs Hnone) as [-> Hb1].
    by rewrite (Hall Hfs Hb1).
Qed.

Lemma write_records_spec fs data b t :
  holds b t ->
  holds (write_records fs data b).2
        (t ++ list_ascii_of_string (csv_text (map build_row data))) /\
  (exists k e, (k <= length data)%nat /\
     (write_records fs data b).1
     = replicate k ("Error writing record to CSV: " +:+ e +:+ nl)) /\
  (file_ok fs -> b_err b = None ->
   (write_records fs data b).1 = [] /\
   b_err (write_records fs data b).2 = None).
Proof.
  revert b t. induction data as [| r data IH]; intros b t Hb.
  { cbn. rewrite app_nil_r. split_and!; [done | by exists 0%nat, "" | done]. }
  change (csv_text (map build_row (r :: data)))
    with (csv_line (build_row r) +:+ csv_text (map build_row data)).
  cbn [write_records].
  destruct (csv_Write_emits fs (build_row r) b t Hb) as (Hh & He & Hok).
  destruct (csv_Write fs (build_row r) b) as [err b1] eqn:Hw.
  cbn [fst snd] in *. rewrite list_ascii_app, app_assoc.
  destruct (IH b1 _ Hh) as (Hh2 & (k & e & Hk & Hlog) & Hok2).
  pose proof (write_records_error fs data b1) as Hall.
  destruct (write_records fs data b1) as [log b2] eqn:Hrec.
  cbn [fst snd] in *. split_and!.
  - done.
  - destruct err as [e' |].
    + specialize (Hall e' (He e' eq_refl)). injection Hall as -> _.
      by exists (S (length data)), e'.
    + exists k, e. split; [cbn [length]; lia | done].
  - intros Hfs Hnone. destruct (Hok Hfs Hnone) as [-> Hb1].
    by destruct (Hok2 Hfs Hb1) as [-> ?].
Qed.

(** What is in the file when [main] has ended: a part of the text the
    writer holds, all of it when no write to the file fails. *)
Lemma deferred_spec fs b t :
  holds b t ->
  (exists rest, string_of_list_ascii t = deferred fs b +:+ rest) /\
  (file_ok fs -> b_err b = None -> deferred fs b = string_of_list_ascii t).
Proof.
  intros Hb. destruct (Flush_spec fs b t Hb) as (_ & [_ Hh] & Hnone & Hok).
  unfold deferred. split.
  - destruct (b_err (Flush fs b).2) as [e |].
    + destruct Hh as [rest ->]. exists (string_of_list_ascii rest).
      apply string_of_list_ascii_app.
    + destruct (Hnone eq_refl) as [_ ->]. exists "".
      by rewrite string_app_nil_r.
  - intros Hfs He. by destruct (Hnone (Hok Hfs He)) as [_ ->].
Qed.

Lemma main_write_nonempty fs allData stdout :
  allData <> [] -> fs_mkdirAll fs = None -> fs_create fs = None ->
  main_write fs allData stdout =
    RunEnd (stdout
            ++ ["Fetched " +:+ itoa (Z.of_nat (length allData))
                +:+ " total records." +:+ nl]
            ++ (write_records fs allData header_writer).1
            ++ ["✅ Data saved to data/Louisville_Metro_KY_-_Property_Foreclosures.csv"
                +:+ nl])
           (Some "data")
           (Some ("data/Louisville_Metro_KY_-_Property_Foreclosures.csv",
                  deferred fs (write_records fs allData header_writer).2))
           None.
Proof.
  intros Hne Hm Hc. unfold main_write. rewrite Hm, Hc. cbv zeta.
  rewrite header_written.
  destruct allData as [| r data]; [done |].
  change (0 <? length (r :: data))%nat with true. cbv iota.
  destruct (write_records fs (r :: data) header_writer) as [log b].
  cbn [fst snd]. by rewrite <- !app_assoc.
Qed.

Lemma main_write_file fs allData :
  (exists rest,
     csv_text (csvHeaders :: map build_row allData)
     = deferred fs (write_records fs allData header_writer).2 +:+ rest) /\
  (exists k e, (k <= length allData)%nat /\
     (write_records fs allData header_writer).1
     = replicate k ("Error writing record to CSV: " +:+ e +:+ nl)) /\
  (file_ok fs ->
   (write_records fs allData header_writer).1 = [] /\
   deferred fs (write_records fs allData header_writer).2
   = csv_text (csvHeaders :: map build_row allData)).
Proof.
  destruct (write_records_spec fs allData _ _ header_writer_holds)
    as (Hh & Hlog & Hok).
  destruct (deferred_spec fs _ _ Hh) as (Hpre & Hall).
  rewrite string_of_list_ascii_app, !string_of_list_ascii_of_string in Hpre, Hall.
  split_and!; [done | done |].
  intros Hfs. destruct (Hok Hfs eq_refl) as [Hnil He]. split; [done |].
  by apply Hall.
Qed.

(** C2: when the file is set up and takes every write, it holds after
    the header one line for every record of the dataset, in the order
    of the dataset, the line of the row of the record; every row has as
    many cells as the schema has columns, the cell of a column being
    [formatValue] of the column name and the record's value under it, so
    the empty string for a column the record lacks. *)
Theorem writer_one_row_per_record fs allData stdout :
  allData <> [] -> fs_mkdirAll fs = None -> fs_create fs = None ->
  (forall k, fs_write fs k = None) ->
  e_file (main_write fs allData stdout) =
    Some (outputDir +:+ "/" +:+ outputFile,
          csv_text
            (csvHeaders ::
               map (fun r => map (fun key => formatValue key (record_get r key))
                                 csvHeaders) allData)) /\
  e_panic (main_write fs allData stdout) = None /\
  (forall r, length (build_row r) = length csvHeaders) /\
  (forall r i key, csvHeaders !! i = Some key ->
     build_row r !! i = Some (formatValue key (record_get r key)) /\
     (r !! key = None -> build_row r !! i = Some "")).
Proof.
  intros Hne Hm Hc Hw. split_and!.
  - rewrite main_write_nonempty by done. cbn [e_file].
    destruct (main_write_file fs allData) as (_ & _ & Hall).
    destruct (Hall Hw) as [_ ->].
    by rewrite (map_ext build_row _ build_row_cells).
  - by rewrite main_write_nonempty.
  - intros r. by rewrite build_row_cells, length_map.
  - intros r i key Hi. rewrite build_row_cells, list_lookup_fmap, Hi.
    split; [done |]. intros Hr. cbn. unfold record_get. by rewrite Hr.
Qed.

(** C4: when records were fetched and the file is set up, the write of
    the header cannot fail, and what reaches the file begins with the
    line of the header, the 18 column names of the schema in their order
    whatever keys the records have, or with the part of it the file
    took; when the file takes every write, the file is that line and
    after it the lines of the rows of the records, so the header is
    written once, first. *)
Theorem writer_header_is_schema fs allData stdout :
  allData <> [] -> fs_mkdirAll fs = None -> fs_create fs = None ->
  length csvHeaders = 18%nat /\
  csvHeaders =
    [ "House_Nr"; "Dir"; "Street_Name"; "St_Type"; "Post_Dir"; "Zip"; "L_S";
      "CD"; "Neighborhood"; "Full_Parcel_ID"; "Census_Tract"; "Action_Filed";
      "Case_"; "Case_Style"; "Sale_Date"; "Sale_Price"; "Purchaser";
      "ObjectId" ] /\
  csv_line csvHeaders
  = "House_Nr,Dir,Street_Name,St_Type,Post_Dir,Zip,L_S,CD,Neighborhood,"
    +:+ "Full_Parcel_ID,Census_Tract,Action_Filed,Case_,Case_Style,Sale_Date,"
    +:+ "Sale_Price,Purchaser,ObjectId" +:+ nl /\
  e_panic (main_write fs allData stdout) = None /\
  (exists text rest,
     e_file (main_write fs allData stdout)
     = Some (outputDir +:+ "/" +:+ outputFile, text) /\
     csv_line csvHeaders +:+ csv_text (map build_row allData) = text +:+ rest) /\
  ((forall k, fs_write fs k = None) ->
   e_file (main_write fs allData stdout)
   = Some (outputDir +:+ "/" +:+ outputFile,
           csv_line csvHeaders +:+ csv_text (map build_row allData))).
Proof.
  intros Hne Hm Hc. rewrite main_write_nonempty by done. cbn [e_file e_panic].
  destruct (main_write_file fs allData) as ([rest Hpre] & _ & Hall).
  split_and!; try done.
  - by eexists _, rest.
  - intros Hw. by destruct (Hall Hw) as [_ ->].
Qed.

Lemma omap_results (f : string -> string) j k e :
  omap (fmap f) (replicate j None ++ replicate k (Some e)) = replicate k (f e).
Proof.
  induction j as [| j IH]; [| done].
  induction k as [| k IH]; [done |]. cbn. by f_equal.
Qed.

(** X12: a write that fails never stops the export, and what is lost
    is not always reported.  With the file set up [main] does not
    panic: the header fits in the buffer of the writer.  The calls of
    [writer.Write] return nil up to some record and from then on the
    error the writer has stopped on; [main] prints the number of
    records, then one line with that error for each of these records,
    then the line that the data was saved, whatever reached the file.
    The file holds the text of the header and the rows up to some point,
    which can be in the middle of a line and before rows whose write
    returned nil; it holds all of it, and no error line is printed, when
    the file takes every write. *)
Theorem writer_never_aborts fs allData stdout :
  allData <> [] -> fs_mkdirAll fs = None -> fs_create fs = None ->
  exists (j k : nat) (e text rest : string),
    (j + k)%nat = length allData /\
    write_results fs (csvHeaders :: map build_row allData) NewWriter
    = replicate (S j) None ++ replicate k (Some e) /\
    main_write fs allData stdout
    = RunEnd
        (stdout
         ++ ["Fetched " +:+ itoa (Z.of_nat (length allData))
             +:+ " total records." +:+ nl]
         ++ replicate k ("Error writing record to CSV: " +:+ e +:+ nl)
         ++ ["✅ Data saved to data/Louisville_Metro_KY_-_Property_Foreclosures.csv"
             +:+ nl])
        (Some "data")
        (Some ("data/Louisville_Metro_KY_-_Property_Foreclosures.csv", text))
        None /\
    csv_text (csvHeaders :: map build_row allData) = text +:+ rest /\
    ((forall i, fs_write fs i = None) ->
     k = 0%nat /\ text = csv_text (csvHeaders :: map build_row allData)).
Proof.
  intros Hne Hm Hc. rewrite main_write_nonempty by done.
  destruct (main_write_file fs allData) as ([rest Hpre] & _ & Hall).
  destruct (write_results_shape fs (map build_row allData) _ _
              header_writer_holds) as ((j & k & e & Hjk & Hres) & _).
  assert ((write_records fs allData header_writer).1
          = replicate k ("Error writing record to CSV: " +:+ e +:+ nl)) as Hlog.
  { rewrite write_records_results, Hres.
    apply (omap_results (fun e => "Error writing record to CSV: " +:+ e +:+ nl)). }
  exists j, k, e, (deferred fs (write_records fs allData header_writer).2), rest.
  split_and!.
  - by rewrite Hjk, length_map.
  - cbn [write_results]. rewrite header_written. by rewrite Hres.
  - by rewrite Hlog.
  - done.
  - intros Hw. destruct (Hall Hw) as [Hnil Htext]. split; [| done].
    rewrite Hnil in Hlog. by destruct k.
Qed.

(** ** [save], the writing phase through the results of its calls *)

Lemma write_rows_results env fs n data b :
  (forall i, write_err env (n + i)
             = mjoin (write_results fs (map build_row data) b !! i)) ->
  (write_rows env n data).2 = (write_records fs data b).1.
Proof.
  revert n b. induction data as [| r data IH]; intros n b Henv; [done |].
  cbn [write_rows write_records].
  pose proof (Henv 0%nat) as H0. rewrite Nat.add_0_r in H0.
  cbn [map write_results] in H0, Henv.
  destruct (csv_Write fs (build_row r) b) as [err b1].
  cbn [lookup list_lookup mjoin option_join] in H0.
  specialize (IH (S n) b1).
  destruct (write_rows env (S n) data) as [rows log].
  destruct (write_records fs data b1) as [log' b2]. cbn [fst snd] in *.
  rewrite H0, <- IH.
  - by destruct err.
  - intros i. specialize (Henv (S i)). by rewrite Nat.add_succ_r in Henv.
Qed.

(** What [save] says of a run on the results of its calls is what
    [main] does on a file system, the content of the file apart: the
    lines printed, the directory, the path of the file and the panic
    are the same. *)
Lemma save_of_main_write fs allData stdout :
  o_stdout (save (OsEnv_of fs allData) allData stdout)
  = e_stdout (main_write fs allData stdout) /\
  o_dir (save (OsEnv_of fs allData) allData stdout)
  = e_dir (main_write fs allData stdout) /\
  fst <$> o_file (save (OsEnv_of fs allData) allData stdout)
  = fst <$> e_file (main_write fs allData stdout) /\
  o_panic (save (OsEnv_of fs allData) allData stdout)
  = e_panic (main_write fs allData stdout).
Proof.
  unfold save, main_write. cbv zeta.
  destruct (0 <? length allData)%nat; [| done].
  cbn [OsEnv_of mkdirAll_err create_err write_err].
  destruct (fs_mkdirAll fs); [done |]. destruct (fs_create fs); [done |].
  cbn [write_results]. rewrite header_written.
  cbn [lookup list_lookup mjoin option_join].
  rewrite (surjective_pairing (write_rows _ 1 allData)).
  rewrite (surjective_pairing (write_records fs allData header_writer)).
  cbn [o_stdout o_dir o_file o_panic e_stdout e_dir e_file e_panic fmap
       option_fmap option_map fst].
  split_and!; try done.
  f_equal. f_equal. by apply write_rows_results.
Qed.

(** ** The whole program, end to end *)

(** With at least one worker [main] ends, whatever the service and
    the file system answer. *)
Lemma main_ends_exists n client fs :
  (0 < n)%nat -> exists e, main_ends n client fs e.
Proof.
  intros Hn.
  exists (main_write fs
            (p_allData (run n client (steps_left (pool_init n)) (pool_init n)))
            (p_stdout (run n client (steps_left (pool_init n)) (pool_init n)))).
  eexists. split; [apply run_reachable |]. split; [| reflexivity].
  apply run_done; [done | apply pool_init_inv | done].
Qed.

(** X15: when the file system lets the file be written, a run of
    [main] prints the line that the fetch starts, one line for each
    offset whose fetch failed, the number of records, and a last line;
    the number is that of the records of all the pages; with no record
    there is neither directory nor file, and otherwise the file holds
    the line of the header and the line of the row of each record of
    each page, the pages in some order of the offsets. *)
Theorem main_run_end_to_end n client fs e :
  main_ends n client fs e ->
  fs_mkdirAll fs = None -> fs_create fs = None ->
  (forall k, fs_write fs k = None) ->
  exists os failed,
    os ≡ₚ all_offsets /\ failed ≡ₚ all_offsets /\
    e_panic e = None /\
    e_stdout e
    = ("Starting data fetch..." +:+ nl) :: (failed ≫= error_line client)
      ++ [ "Fetched " +:+ itoa (Z.of_nat (length (all_offsets ≫= page client)))
           +:+ " total records." +:+ nl;
           match os ≫= page client with
           | [] => "⚠️ No data was retrieved from the API." +:+ nl
           | _ => "✅ Data saved to data/Louisville_Metro_KY_-_Property_Foreclosures.csv"
                  +:+ nl
           end ] /\
    e_dir e = match os ≫= page client with [] => None | _ => Some "data" end /\
    e_file e
    = match os ≫= page client with
      | [] => None
      | data => Some ("data/Louisville_Metro_KY_-_Property_Foreclosures.csv",
                      csv_text (csvHeaders :: map build_row data))
      end.
Proof.
  intros (s & Hreach & Hdone & ->) Hm Hc Hw.
  destruct (pool_done_pages _ _ _ Hreach Hdone) as (os & Hos & Had).
  destruct (pool_done_final _ _ _ (reachable_inv _ _ _ Hreach) Hdone)
    as (_ & _ & Hfs & _).
  exists os, (p_fetched s). split; [done |]. split; [done |].
  assert (length (all_offsets ≫= page client) = length (p_allData s)) as ->
    by (by rewrite Had, Hos).
  rewrite <- Had, (reachable_stdout _ _ _ Hreach).
  destruct (p_allData s) as [| r data] eqn:Hdata.
  - unfold main_write.
    cbn [length Nat.ltb Nat.leb e_panic e_stdout e_dir e_file].
    repeat split. by rewrite <- !app_assoc.
  - rewrite main_write_nonempty by done.
    destruct (main_write_file fs (r :: data)) as (_ & _ & Hall).
    destruct (Hall Hw) as [-> ->].
    cbn [e_panic e_stdout e_dir e_file]. by repeat split.
Qed.

End Program.

(** * The properties at work on the small world *)

(** The pool of the program's [workers] on the sample service, run by
    the scheduler to its end. *)
Local Abbreviation sample_final :=
  (run sample_decode workers sample_client 4000 (pool_init workers)).

(** The date column on the timestamp of the specification, on zero, on
    a negative millisecond and on a text. *)
Lemma formatValue_date_column_witness :
  formatValue amd64_int64_unrepresentable "Sale_Date"
    (VNum (f64_of_Z 1615766400000)) = "2021/03/15 00:00:00+00" /\
  formatValue amd64_int64_unrepresentable "Sale_Date" (VNum (f64_of_Z 0)) = "" /\
  formatValue amd64_int64_unrepresentable "Sale_Date" (VNum (f64_of_Z (-1)))
    = "1970/01/01 00:00:00+00" /\
  formatValue amd64_int64_unrepresentable "Sale_Date" (VStr "n/a") = "n/a".
Proof.
  destruct (formatValue_date_column amd64_int64_unrepresentable "Sale_Date"
              (or_intror eq_refl)) as (Hzero & _ & Hms & _ & Hexample & Hother).
  split; [exact Hexample |]. split; [apply Hzero; reflexivity |]. split.
  - rewrite Hms by (vm_compute; intuition congruence). vm_compute. reflexivity.
  - rewrite Hother by congruence. vm_compute. reflexivity.
Defined.

(** On the sample service, where 295 of the 300 pages are empty and
    three calls fail, all 300 offsets are sent and fetched. *)
Lemma coordinator_sends_every_offset_witness :
  p_sent sample_final = (fun j => j * batchSize) <$> seqZ 0 maxBatches /\
  p_fetched sample_final ≡ₚ p_sent sample_final /\
  NoDup (p_fetched sample_final).
Proof.
  destruct (coordinator_sends_every_offset sample_decode workers sample_client
              sample_final (run_reachable _ _ _ _ _))
    as (_ & _ & _ & Hdone & _).
  apply Hdone. vm_compute. reflexivity.
Defined.

(** On the sample service the dataset ends with the three records of
    the two pages that hold records. *)
Lemma pool_keeps_every_record_witness :
  p_allData sample_final ≡ₚ all_offsets ≫= page sample_decode sample_client /\
  length (p_allData sample_final) = 3%nat.
Proof.
  destruct (pool_keeps_every_record sample_decode workers sample_client
              sample_final (run_reachable _ _ _ _ _)) as (Hperm & Hlen & _).
  - vm_compute. reflexivity.
  - split; [exact Hperm |]. rewrite Hlen. vm_compute. reflexivity.
Defined.

(** C7 as stated fails: the sample service has two pages with records,
    of two records and of one, and the dataset ends with three records,
    not with two times [batchSize]. *)
Lemma count_is_not_pages_times_batchSize :
  exists json_Decode n client s,
    rtc (step json_Decode n client) (pool_init n) s /\
    pool_done s = true /\
    nonempty_pages json_Decode client = 2%nat /\
    length (p_allData s) = 3%nat /\
    length (p_allData s)
      <> (nonempty_pages json_Decode client * Z.to_nat batchSize)%nat.
Proof.
  exists sample_decode, workers, sample_client, sample_final.
  split; [apply run_reachable |].
  split; [vm_compute; reflexivity |].
  assert (nonempty_pages sample_decode sample_client = 2%nat) as Hp
    by (vm_compute; reflexivity).
  assert (length (p_allData sample_final) = 3%nat) as Hl
    by (vm_compute; reflexivity).
  rewrite Hp, Hl. repeat split. vm_compute. lia.
Qed.

(** The file written for three sample records, the purchaser of the
    last between quotes. *)
Lemma writer_one_row_per_record_witness :
  e_file (main_write amd64_int64_unrepresentable sample_fs
            (sample_data ++ [named_record]) []) =
    Some ("data/Louisville_Metro_KY_-_Property_Foreclosures.csv",
          "House_Nr,Dir,Street_Name,St_Type,Post_Dir,Zip,L_S,CD,Neighborhood,"
           +:+ "Full_Parcel_ID,Census_Tract,Action_Filed,Case_,Case_Style,"
           +:+ "Sale_Date,Sale_Price,Purchaser,ObjectId" +:+ nl
           +:+ ",,,,,40202,,,,,,2021/03/15 00:00:00+00,,,,,,1" +:+ nl
           +:+ ",,,,,40204,,,,,,,,,,,,1.234567e+06" +:+ nl
           +:+ ",,,,,40205,,,,,,,,,,," +:+ String quote "DOE, JOHN"
           +:+ String quote ",7" +:+ nl).
Proof.
  destruct (writer_one_row_per_record amd64_int64_unrepresentable sample_fs
              (sample_data ++ [named_record]) [])
    as (Hfile & _); [done | done | done | done |].
  rewrite Hfile. vm_compute. reflexivity.
Defined.

(** The header of the file written for two sample records. *)
Lemma writer_header_is_schema_witness :
  e_panic (main_write amd64_int64_unrepresentable sample_fs sample_data [])
  = None /\
  e_file (main_write amd64_int64_unrepresentable sample_fs sample_data []) =
    Some ("data/Louisville_Metro_KY_-_Property_Foreclosures.csv",
          "House_Nr,Dir,Street_Name,St_Type,Post_Dir,Zip,L_S,CD,Neighborhood,"
           +:+ "Full_Parcel_ID,Census_Tract,Action_Filed,Case_,Case_Style,"
           +:+ "Sale_Date,Sale_Price,Purchaser,ObjectId" +:+ nl
           +:+ ",,,,,40202,,,,,,2021/03/15 00:00:00+00,,,,,,1" +:+ nl
           +:+ ",,,,,40204,,,,,,,,,,,,1.234567e+06" +:+ nl).
Proof.
  destruct (writer_header_is_schema amd64_int64_unrepresentable sample_fs
              sample_data [])
    as (_ & _ & _ & Hpanic & _ & Hfile); [done | done | done |].
  split; [exact Hpanic |]. rewrite Hfile by done. vm_compute. reflexivity.
Defined.

(** * The further properties at work on the small world *)

(** A census tract number keeps its digits and its sign. *)
Lemma formatValue_whole_number_plain_witness :
  formatValue amd64_int64_unrepresentable "Census_Tract" (VNum (f64_of_Z (-11300)))
  = "-11300".
Proof.
  rewrite (formatValue_whole_number_plain amd64_int64_unrepresentable
             "Census_Tract" (-11300)); [reflexivity | reflexivity | lia].
Defined.

(** A sale price of one and a quarter million. *)
Lemma formatValue_whole_number_exponent_witness :
  formatValue amd64_int64_unrepresentable "Sale_Price" (VNum (f64_of_Z 1250000))
  = "1.25e+06".
Proof.
  destruct (formatValue_whole_number_exponent amd64_int64_unrepresentable
              "Sale_Price" 1250000) as (c & rest & Ht & ->);
    [reflexivity | vm_compute; split; [discriminate | reflexivity] |].
  vm_compute in Ht. injection Ht as <- <-. vm_compute. reflexivity.
Defined.

(** The first millisecond of the year 10000 and the last one before the
    year 0: a fifth digit, a minus sign. *)
Lemma formatValue_date_any_year_witness :
  formatValue amd64_int64_unrepresentable "Sale_Date"
    (VNum (f64_of_Z 253402300800000)) = "10000/01/01 00:00:00+00" /\
  formatValue amd64_int64_unrepresentable "Sale_Date"
    (VNum (f64_of_Z (-62167219201000))) = "-0001/12/31 23:59:59+00" /\
  (String.length (formatValue amd64_int64_unrepresentable "Sale_Date"
                    (VNum (f64_of_Z 253402300800000))) = 22%nat -> False).
Proof.
  split; [vm_compute; reflexivity |]. split; [vm_compute; reflexivity |].
  destruct (formatValue_date_any_year amd64_int64_unrepresentable "Sale_Date"
              253402300800000) as (c & _ & _ & _ & Hy & Hl);
    [right; reflexivity | lia | lia |].
  intros H. apply Hl, Hy in H. lia.
Defined.

(** Two filing dates a day and 123 milliseconds apart. *)
Lemma formatValue_date_order_witness :
  String.compare
    (formatValue amd64_int64_unrepresentable "Action_Filed"
       (VNum (f64_of_Z 1615766400000)))
    (formatValue amd64_int64_unrepresentable "Action_Filed"
       (VNum (f64_of_Z 1615852800123)))
  = Lt.
Proof.
  destruct (formatValue_date_order amd64_int64_unrepresentable "Action_Filed"
              1615766400000 1615852800123) as [-> _];
    [left; reflexivity | lia | lia | lia | lia |].
  reflexivity.
Defined.

(** The first two offsets. *)
Lemma fetchBatch_offsets_tell_apart_witness :
  Request_String (batch_request 0) <> Request_String (batch_request 1000) /\
  batch_request 0 <> batch_request 1000.
Proof. apply fetchBatch_offsets_tell_apart. lia. Defined.

(** The pool on the sample service after 12 steps: worker 0 is about to
    assign [allData]. *)
Local Abbreviation sample_writing :=
  (run sample_decode workers sample_client 12 (pool_init workers)).

Lemma pool_mutual_exclusion_witness :
  p_mu sample_writing = true /\
  (forall w old records,
     p_workers sample_writing !! w = Some (WWrite old records) ->
     old = p_allData sample_writing).
Proof.
  destruct (pool_mutual_exclusion sample_decode workers sample_client
              sample_writing (run_reachable _ _ _ _ _))
    as (_ & Hmu & Hread & _).
  split; [| exact Hread].
  apply Hmu. exists 0%nat, (WWrite (p_allData sample_writing)
                              [sample_record 1234567 "40204" 0]).
  split; vm_compute; reflexivity.
Defined.

(** After 8 steps the second offset waits in the channel. *)
Lemma pool_channel_fifo_witness :
  exists taken,
    p_sent (run sample_decode workers sample_client 8 (pool_init workers))
    = taken ++ [1000].
Proof.
  destruct (pool_channel_fifo sample_decode workers sample_client
              (run sample_decode workers sample_client 8 (pool_init workers))
              (run_reachable _ _ _ _ _))
    as (_ & (taken & Hs & _) & _).
  exists taken. exact Hs.
Defined.

(** The two records of the first page stay first to the end. *)
Lemma pool_dataset_grows_by_pages_witness :
  p_allData (run sample_decode workers sample_client 7 (pool_init workers))
  `prefix_of` p_allData
    (run sample_decode workers sample_client 4000
       (run sample_decode workers sample_client 7 (pool_init workers))).
Proof.
  destruct (pool_dataset_grows_by_pages sample_decode workers sample_client
              (run sample_decode workers sample_client 7 (pool_init workers))
              (run_reachable _ _ _ _ _))
    as (Hgrow & _).
  apply Hgrow. apply run_reachable.
Defined.

(** The three failures of the sample service. *)
Lemma pool_reports_each_failure_witness :
  exists lines,
    p_stdout sample_final = ("Starting data fetch..." +:+ nl) :: lines /\
    lines
    ≡ₚ [ "Error fetching offset 2000: status code 500" +:+ nl;
         "Error fetching offset 3000: connection reset" +:+ nl;
         "Error fetching offset 4000: unexpected end of JSON input" +:+ nl ].
Proof.
  destruct (pool_reports_each_failure sample_decode workers sample_client
              sample_final (run_reachable _ _ _ _ _))
    as (lines & Hout & Hlines & _); [vm_compute; reflexivity |].
  exists lines. split; [exact Hout |]. rewrite Hlines.
  vm_compute. reflexivity.
Defined.

(** On a disk that takes 200 bytes the write of 170 of 300 records
    returns no error and that of the 130 others does; the file ends in
    the second row.  On a full disk two records are lost and no line
    says so. *)
Lemma writer_never_aborts_witness :
  e_panic (main_write amd64_int64_unrepresentable short_disk many_records [])
  = None /\
  write_results short_disk
    (csvHeaders :: map (build_row amd64_int64_unrepresentable) many_records)
    NewWriter
  = replicate 171 None ++ replicate 130 (Some ENOSPC) /\
  main_write amd64_int64_unrepresentable short_disk many_records []
  = RunEnd
      (["Fetched 300 total records." +:+ nl]
       ++ replicate 130 ("Error writing record to CSV: " +:+ ENOSPC +:+ nl)
       ++ ["✅ Data saved to data/Louisville_Metro_KY_-_Property_Foreclosures.csv"
           +:+ nl])
      (Some "data")
      (Some ("data/Louisville_Metro_KY_-_Property_Foreclosures.csv",
             "House_Nr,Dir,Street_Name,St_Type,Post_Dir,Zip,L_S,CD,Neighborhood,"
              +:+ "Full_Parcel_ID,Census_Tract,Action_Filed,Case_,Case_Style,"
              +:+ "Sale_Date,Sale_Price,Purchaser,ObjectId" +:+ nl
              +:+ ",,,,,40202,,,,,,,,,,,," +:+ nl +:+ ",,,,,40202,,,"))
      None /\
  main_write amd64_int64_unrepresentable full_disk sample_data []
  = RunEnd
      [ "Fetched 2 total records." +:+ nl;
        "✅ Data saved to data/Louisville_Metro_KY_-_Property_Foreclosures.csv"
        +:+ nl ]
      (Some "data")
      (Some ("data/Louisville_Metro_KY_-_Property_Foreclosures.csv", ""))
      None.
Proof.
  destruct (writer_never_aborts amd64_int64_unrepresentable short_disk
              many_records [])
    as (j & k & e & text & rest & _ & _ & Hrun & _); [done | done | done |].
  split; [by rewrite Hrun |]. split; [| split]; vm_compute; reflexivity.
Defined.

(** An operating system that refuses the directory. *)
Lemma save_panics_witness :
  save amd64_int64_unrepresentable
    {| mkdirAll_err := Some "mkdir data: permission denied"; create_err := None;
       write_err := fun _ => None |} sample_data []
  = Outcome ["Fetched 2 total records." +:+ nl] None None
            (Some (OsError "mkdir data: permission denied")).
Proof.
  destruct (save_panics amd64_int64_unrepresentable
              {| mkdirAll_err := Some "mkdir data: permission denied";
                 create_err := None; write_err := fun _ => None |}
              sample_data []) as (Hmk & _); [done |].
  rewrite (Hmk _ eq_refl). reflexivity.
Defined.

(** An attribute outside the schema leaves the row as it is. *)
Lemma build_row_schema_only_witness :
  build_row amd64_int64_unrepresentable
    (<["Shape__Length" := VNum (f64_of_Z 42)]> (sample_record 1 "40202" 0))
  = build_row amd64_int64_unrepresentable (sample_record 1 "40202" 0).
Proof.
  apply build_row_schema_only.
  repeat (constructor; [vm_compute; reflexivity |]). constructor.
Defined.

(** The run of the scheduler on the sample service, to the file. *)
Lemma main_run_end_to_end_witness :
  exists os failed,
    os ≡ₚ all_offsets /\ failed ≡ₚ all_offsets /\
    e_panic (main_write amd64_int64_unrepresentable sample_fs
               (p_allData sample_final) (p_stdout sample_final)) = None /\
    e_file (main_write amd64_int64_unrepresentable sample_fs
              (p_allData sample_final) (p_stdout sample_final))
    = match os ≫= page sample_decode sample_client with
      | [] => None
      | data => Some ("data/Louisville_Metro_KY_-_Property_Foreclosures.csv",
                      csv_text
                        (csvHeaders
                         :: map (build_row amd64_int64_unrepresentable) data))
      end.
Proof.
  destruct (main_run_end_to_end amd64_int64_unrepresentable sample_decode
              workers sample_client sample_fs
              (main_write amd64_int64_unrepresentable sample_fs
                 (p_allData sample_final) (p_stdout sample_final)))
    as (os & failed & Hos & Hfs & Hp & _ & _ & Hfile);
    [| reflexivity | reflexivity | reflexivity |].
  - exists sample_final. split; [apply run_reachable |].
    split; [vm_compute; reflexivity | reflexivity].
  - exists os, failed. by repeat split.
Defined.

(** The pool of one worker on the sample service, run to its end. *)
Local Abbreviation sample_final_1 :=
  (run sample_decode 1 sample_client 4000 (pool_init 1)).

(** Five workers and one worker end with the same records and lines. *)
Lemma pool_outcome_up_to_order_witness :
  p_allData sample_final ≡ₚ p_allData sample_final_1 /\
  p_stdout sample_final ≡ₚ p_stdout sample_final_1.
Proof.
  destruct (pool_outcome_up_to_order sample_decode workers 1 sample_client
              sample_final sample_final_1)
    as (_ & _ & Hdata & _ & Hout);
    [apply run_reachable | vm_compute; reflexivity
     | apply run_reachable | vm_compute; reflexivity |].
  by split.
Defined.

(** One worker on the sample service: the pages in the order of the
    offsets. *)
Lemma pool_single_worker_in_order_witness :
  p_fetched sample_final_1 = all_offsets /\
  p_allData sample_final_1 = all_offsets ≫= page sample_decode sample_client.
Proof.
  destruct (pool_single_worker_in_order sample_decode sample_client
              sample_final_1) as (Hf & Hd & _);
    [apply run_reachable | vm_compute; reflexivity |].
  by split.
Defined.
